(** * A shallow embedding of CLE's Mach-O loader

    The development follows [cle/backends/macho/__init__.py]: the byte
    readers built on [struct.unpack], the load-command handlers, the
    load-command loop of [MachO.__init__], entry-point resolution, the
    exports-trie walk and the symbol resolution pass.  Python integers are
    unbounded, so numbers are [Z] without wrap-around; a Python 2 [str] is a
    list of bytes; exceptions are an explicit result type. *)

From Stdlib Require Import ZArith Lia.
From Stdlib Require Import Strings.Byte Strings.String Strings.Ascii.
From stdpp Require Import base option list gmap strings sorting.

Local Open Scope Z_scope.

(** ** Exceptions and results *)

(** The exception classes the loader raises or lets escape.  [StructError] is
    [struct.error] (a buffer whose length does not fit the format). *)
Inductive exn : Type :=
  | CLEInvalidBinaryError
  | CLECompatibilityError
  | CLEOperationError
  | IOError
  | StructError
  | IndexError
  | ValueError
  | AttributeError
  | TypeError.

#[global] Instance exn_eq_dec : EqDecision exn.
Proof. solve_decision. Defined.

(** The outcome of running a piece of the loader: a value, an exception, or
    [Diverge] when the Python code does not return (or the fuel handed to a
    [while] loop was too small to see it return). *)
Inductive res (A : Type) : Type :=
  | Ok (a : A)
  | Raise (e : exn)
  | Diverge.
Arguments Ok {A} a.
Arguments Raise {A} e.
Arguments Diverge {A}.

#[global] Instance res_ret : MRet res := fun A a => Ok a.
#[global] Instance res_bind : MBind res := fun A B k r =>
  match r with
  | Ok a => k a
  | Raise e => Raise e
  | Diverge => Diverge
  end.

(** ** Bytes, files and [struct.unpack] *)

#[global] Instance byte_eq_dec : EqDecision byte := Byte.byte_eq_dec.

Definition ord (b : byte) : Z := Z.of_N (Byte.to_N b).

(** [chr(0)], the string terminator. *)
Definition NUL : byte := x00.

(** A Python 2 [str] shown as text: segment, section and symbol names. *)
Definition text (bs : list byte) : string := string_of_list_byte bs.

Inductive byteorder : Type := Little | Big.

(** Unsigned value of a little-endian byte string. *)
Fixpoint le_uint (bs : list byte) : Z :=
  match bs with
  | [] => 0
  | b :: rest => Z.lor (ord b) (Z.shiftl (le_uint rest) 8)
  end.

Definition uint (o : byteorder) (bs : list byte) : Z :=
  match o with
  | Little => le_uint bs
  | Big => le_uint (rev bs)
  end.

(** Two's complement reading of the same bytes. *)
Definition sint (o : byteorder) (bs : list byte) : Z :=
  let u := uint o bs in
  let w := 8 * Z.of_nat (length bs) in
  if Z.testbit u (w - 1) then u - Z.shiftl 1 w else u.

(** Format characters of [struct]: B, H, h, I, Q, c and [n]s. *)
Inductive fmt : Type := fB | fH | fh | fI | fQ | fc | fs (n : nat).

Definition fmt_size (c : fmt) : nat :=
  match c with
  | fB | fc => 1
  | fH | fh => 2
  | fI => 4
  | fQ => 8
  | fs n => n
  end.

(** A component of the tuple [struct.unpack] returns. *)
Inductive val : Type := VInt (z : Z) | VStr (s : list byte).

Definition decode (o : byteorder) (c : fmt) (bs : list byte) : val :=
  match c with
  | fh => VInt (sint o bs)
  | fc | fs _ => VStr bs
  | _ => VInt (uint o bs)
  end.

Fixpoint unpack_fields (o : byteorder) (fs : list fmt) (data : list byte) : list val :=
  match fs with
  | [] => []
  | c :: rest =>
      decode o c (take (fmt_size c) data)
        :: unpack_fields o rest (drop (fmt_size c) data)
  end.

Definition calcsize (fs : list fmt) : nat := foldr (fun c n => (fmt_size c + n)%nat) 0%nat fs.

(** [struct.unpack(order + fmt, data)]: the buffer must have exactly the size
    of the format. *)
Definition struct_unpack (o : byteorder) (fs : list fmt) (data : list byte) : res (list val) :=
  if decide (length data = calcsize fs) then Ok (unpack_fields o fs data)
  else Raise StructError.

(** Reading the components of an unpacked tuple. *)
Definition int_at (vs : list val) (i : nat) : Z :=
  match vs !! i with
  | Some (VInt z) => z
  | _ => 0
  end.

Definition str_at (vs : list val) (i : nat) : list byte :=
  match vs !! i with
  | Some (VStr s) => s
  | _ => []
  end.

(** Indexing a Python list or tuple: negative indices count from the end. *)
Definition py_getitem {A} (l : list A) (i : Z) : res A :=
  let n := Z.of_nat (length l) in
  let j := if i <? 0 then i + n else i in
  if (0 <=? j) && (j <? n) then
    match l !! Z.to_nat j with
    | Some x => Ok x
    | None => Raise IndexError
    end
  else Raise IndexError.

(** The binary stream: all bytes of the file. *)
Definition file := list byte.

(** [MachO._read]: [file.seek(offset)] then [file.read(size)].  A negative
    offset makes [seek] raise [IOError]; reading past the end returns what is
    left; a negative size reads to the end. *)
Definition _read (f : file) (offset size : Z) : res (list byte) :=
  if offset <? 0 then Raise IOError
  else if size <? 0 then Ok (drop (Z.to_nat offset) f)
  else Ok (take (Z.to_nat size) (drop (Z.to_nat offset) f)).

(** [MachO._unpack_with_byteorder] and [MachO._unpack]. *)
Definition _unpack_with_byteorder (o : byteorder) (fs : list fmt) (input : list byte) :
    res (list val) :=
  struct_unpack o fs input.

Definition _unpack (o : byteorder) (fs : list fmt) (f : file) (offset size : Z) :
    res (list val) :=
  input ← _read f offset size;
  _unpack_with_byteorder o fs input.

(** ** Data model *)

(** An entry of [exports_by_name]: the tuples the trie walk stores. *)
Inductive Export : Type :=
  | ExportRegular (eflags addr : Z)
  | ExportReexport (eflags lib_ordinal : Z) (lib_sym_name : string)
  | ExportStubAndResolver (eflags stub_offset resolver_offset : Z).

#[global] Instance Export_eq_dec : EqDecision Export.
Proof. solve_decision. Defined.

(** [MachOSection], built by
    [MachOSection(offset, vaddr, size, vsize, segname, sectname, align,
    reloff, nreloc, flags, r1, r2)]; the class is declared in [section.py]. *)
Record MachOSection : Type := Build_MachOSection {
  sec_offset : Z;
  sec_vaddr : Z;
  sec_filesize : Z;
  sec_memsize : Z;
  sec_segname : string;
  sec_sectname : string;
  sec_align : Z;
  sec_reloff : Z;
  sec_nreloc : Z;
  sec_flags : Z;
  sec_r1 : Z;
  sec_r2 : Z
}.

(** [MachOSegment], built by
    [MachOSegment(offset, vaddr, size, vsize, segname, nsect, sections,
    flags, initprot, maxprot)]; the class is declared in [segment.py]. *)
Record MachOSegment : Type := Build_MachOSegment {
  seg_offset : Z;
  seg_vaddr : Z;
  seg_filesize : Z;
  seg_memsize : Z;
  seg_segname : string;
  seg_nsect : Z;
  seg_sections : list MachOSection;
  seg_flags : Z;
  seg_initprot : Z;
  seg_maxprot : Z
}.

(** [MachOSymbol]: the attributes the loader reads and writes.  The class
    itself lives in [symbol.py]. *)
Record MachOSymbol : Type := Build_MachOSymbol {
  sym_name : string;  (* name *)
  sym_addr : option Z;  (* addr, [None] until resolved *)
  sym_size : Z;  (* size *)
  symtab_offset : Z;
  n_type : Z;
  n_sect : Z;
  n_desc : Z;
  n_value : Z;
  library_name : option string;
  segment_name : option string;
  section_name : option string;
  _is_export : option bool;
  is_export : option bool;
  bind_xrefs : list Z;
  symbol_stubs : list Z
}.

Definition set_sym_addr (v : option Z) (r : MachOSymbol) : MachOSymbol :=
  {| sym_name := sym_name r; sym_addr := v; sym_size := sym_size r;
     symtab_offset := symtab_offset r; n_type := n_type r; n_sect := n_sect r;
     n_desc := n_desc r; n_value := n_value r; library_name := library_name r;
     segment_name := segment_name r; section_name := section_name r;
     _is_export := _is_export r; is_export := is_export r; bind_xrefs := bind_xrefs r;
     symbol_stubs := symbol_stubs r |}.

Definition set_sym_size (v : Z) (r : MachOSymbol) : MachOSymbol :=
  {| sym_name := sym_name r; sym_addr := sym_addr r; sym_size := v;
     symtab_offset := symtab_offset r; n_type := n_type r; n_sect := n_sect r;
     n_desc := n_desc r; n_value := n_value r; library_name := library_name r;
     segment_name := segment_name r; section_name := section_name r;
     _is_export := _is_export r; is_export := is_export r; bind_xrefs := bind_xrefs r;
     symbol_stubs := symbol_stubs r |}.

Definition set_library_name (v : option string) (r : MachOSymbol) : MachOSymbol :=
  {| sym_name := sym_name r; sym_addr := sym_addr r; sym_size := sym_size r;
     symtab_offset := symtab_offset r; n_type := n_type r; n_sect := n_sect r;
     n_desc := n_desc r; n_value := n_value r; library_name := v;
     segment_name := segment_name r; section_name := section_name r;
     _is_export := _is_export r; is_export := is_export r; bind_xrefs := bind_xrefs r;
     symbol_stubs := symbol_stubs r |}.

Definition set__is_export (v : option bool) (r : MachOSymbol) : MachOSymbol :=
  {| sym_name := sym_name r; sym_addr := sym_addr r; sym_size := sym_size r;
     symtab_offset := symtab_offset r; n_type := n_type r; n_sect := n_sect r;
     n_desc := n_desc r; n_value := n_value r; library_name := library_name r;
     segment_name := segment_name r; section_name := section_name r; _is_export := v;
     is_export := is_export r; bind_xrefs := bind_xrefs r;
     symbol_stubs := symbol_stubs r |}.

Definition set_is_export (v : option bool) (r : MachOSymbol) : MachOSymbol :=
  {| sym_name := sym_name r; sym_addr := sym_addr r; sym_size := sym_size r;
     symtab_offset := symtab_offset r; n_type := n_type r; n_sect := n_sect r;
     n_desc := n_desc r; n_value := n_value r; library_name := library_name r;
     segment_name := segment_name r; section_name := section_name r;
     _is_export := _is_export r; is_export := v; bind_xrefs := bind_xrefs r;
     symbol_stubs := symbol_stubs r |}.

Definition set_section_names (segment_name' section_name' : option string) (r : MachOSymbol) :
    MachOSymbol :=
  {| sym_name := sym_name r; sym_addr := sym_addr r; sym_size := sym_size r;
     symtab_offset := symtab_offset r; n_type := n_type r; n_sect := n_sect r;
     n_desc := n_desc r; n_value := n_value r; library_name := library_name r;
     segment_name := segment_name'; section_name := section_name';
     _is_export := _is_export r; is_export := is_export r; bind_xrefs := bind_xrefs r;
     symbol_stubs := symbol_stubs r |}.

Definition set_xrefs (bind_xrefs' symbol_stubs' : list Z) (r : MachOSymbol) : MachOSymbol :=
  {| sym_name := sym_name r; sym_addr := sym_addr r; sym_size := sym_size r;
     symtab_offset := symtab_offset r; n_type := n_type r; n_sect := n_sect r;
     n_desc := n_desc r; n_value := n_value r; library_name := library_name r;
     segment_name := segment_name r; section_name := section_name r;
     _is_export := _is_export r; is_export := is_export r; bind_xrefs := bind_xrefs';
     symbol_stubs := symbol_stubs' |}.

(** The [MachO] object under construction: the attributes of [self] the
    loader touches, with [segments], [memory] and [symbols_by_addr] of the
    [Backend] base class. *)
Record MachO : Type := Build_MachO {
  struct_byteorder : byteorder;
  arch_bits : Z;  (* self.arch.bits *)
  cputype : Z;
  cpusubtype : Z;
  filetype : Z;
  pie : bool;
  ncmds : Z;
  sizeofcmds : Z;
  flags : Z;
  imported_libraries : list string;
  exports_by_name : gmap string Export;
  entryoff : option Z;
  unixthread_pc : option Z;
  lc_data_in_code : list (Z * Z * Z);
  lc_function_starts : list Z;
  mod_init_func_pointers : list Z;
  mod_term_func_pointers : list Z;
  segments : list MachOSegment;
  memory : list (Z * list byte);  (* backers, in the order of add_backer *)
  strtab : list byte;
  symbols : list MachOSymbol;
  symbols_by_addr : gmap Z MachOSymbol;
  rebase_blob : option (list byte);
  binding_blob : option (list byte);
  weak_binding_blob : option (list byte);
  lazy_binding_blob : option (list byte);
  export_blob : option (list byte);
  _entry : option Z
}.

Definition set_struct_byteorder (v : byteorder) (r : MachO) : MachO :=
  {| struct_byteorder := v; arch_bits := arch_bits r; cputype := cputype r;
     cpusubtype := cpusubtype r; filetype := filetype r; pie := pie r; ncmds := ncmds r;
     sizeofcmds := sizeofcmds r; flags := flags r;
     imported_libraries := imported_libraries r; exports_by_name := exports_by_name r;
     entryoff := entryoff r; unixthread_pc := unixthread_pc r;
     lc_data_in_code := lc_data_in_code r; lc_function_starts := lc_function_starts r;
     mod_init_func_pointers := mod_init_func_pointers r;
     mod_term_func_pointers := mod_term_func_pointers r; segments := segments r;
     memory := memory r; strtab := strtab r; symbols := symbols r;
     symbols_by_addr := symbols_by_addr r; rebase_blob := rebase_blob r;
     binding_blob := binding_blob r; weak_binding_blob := weak_binding_blob r;
     lazy_binding_blob := lazy_binding_blob r; export_blob := export_blob r;
     _entry := _entry r |}.

Definition set_arch_bits (v : Z) (r : MachO) : MachO :=
  {| struct_byteorder := struct_byteorder r; arch_bits := v; cputype := cputype r;
     cpusubtype := cpusubtype r; filetype := filetype r; pie := pie r; ncmds := ncmds r;
     sizeofcmds := sizeofcmds r; flags := flags r;
     imported_libraries := imported_libraries r; exports_by_name := exports_by_name r;
     entryoff := entryoff r; unixthread_pc := unixthread_pc r;
     lc_data_in_code := lc_data_in_code r; lc_function_starts := lc_function_starts r;
     mod_init_func_pointers := mod_init_func_pointers r;
     mod_term_func_pointers := mod_term_func_pointers r; segments := segments r;
     memory := memory r; strtab := strtab r; symbols := symbols r;
     symbols_by_addr := symbols_by_addr r; rebase_blob := rebase_blob r;
     binding_blob := binding_blob r; weak_binding_blob := weak_binding_blob r;
     lazy_binding_blob := lazy_binding_blob r; export_blob := export_blob r;
     _entry := _entry r |}.

Definition set_imported_libraries (v : list string) (r : MachO) : MachO :=
  {| struct_byteorder := struct_byteorder r; arch_bits := arch_bits r;
     cputype := cputype r; cpusubtype := cpusubtype r; filetype := filetype r;
     pie := pie r; ncmds := ncmds r; sizeofcmds := sizeofcmds r; flags := flags r;
     imported_libraries := v; exports_by_name := exports_by_name r; entryoff := entryoff r;
     unixthread_pc := unixthread_pc r; lc_data_in_code := lc_data_in_code r;
     lc_function_starts := lc_function_starts r;
     mod_init_func_pointers := mod_init_func_pointers r;
     mod_term_func_pointers := mod_term_func_pointers r; segments := segments r;
     memory := memory r; strtab := strtab r; symbols := symbols r;
     symbols_by_addr := symbols_by_addr r; rebase_blob := rebase_blob r;
     binding_blob := binding_blob r; weak_binding_blob := weak_binding_blob r;
     lazy_binding_blob := lazy_binding_blob r; export_blob := export_blob r;
     _entry := _entry r |}.

Definition set_exports_by_name (v : gmap string Export) (r : MachO) : MachO :=
  {| struct_byteorder := struct_byteorder r; arch_bits := arch_bits r;
     cputype := cputype r; cpusubtype := cpusubtype r; filetype := filetype r;
     pie := pie r; ncmds := ncmds r; sizeofcmds := sizeofcmds r; flags := flags r;
     imported_libraries := imported_libraries r; exports_by_name := v;
     entryoff := entryoff r; unixthread_pc := unixthread_pc r;
     lc_data_in_code := lc_data_in_code r; lc_function_starts := lc_function_starts r;
     mod_init_func_pointers := mod_init_func_pointers r;
     mod_term_func_pointers := mod_term_func_pointers r; segments := segments r;
     memory := memory r; strtab := strtab r; symbols := symbols r;
     symbols_by_addr := symbols_by_addr r; rebase_blob := rebase_blob r;
     binding_blob := binding_blob r; weak_binding_blob := weak_binding_blob r;
     lazy_binding_blob := lazy_binding_blob r; export_blob := export_blob r;
     _entry := _entry r |}.

Definition set_entryoff (v : option Z) (r : MachO) : MachO :=
  {| struct_byteorder := struct_byteorder r; arch_bits := arch_bits r;
     cputype := cputype r; cpusubtype := cpusubtype r; filetype := filetype r;
     pie := pie r; ncmds := ncmds r; sizeofcmds := sizeofcmds r; flags := flags r;
     imported_libraries := imported_libraries r; exports_by_name := exports_by_name r;
     entryoff := v; unixthread_pc := unixthread_pc r; lc_data_in_code := lc_data_in_code r;
     lc_function_starts := lc_function_starts r;
     mod_init_func_pointers := mod_init_func_pointers r;
     mod_term_func_pointers := mod_term_func_pointers r; segments := segments r;
     memory := memory r; strtab := strtab r; symbols := symbols r;
     symbols_by_addr := symbols_by_addr r; rebase_blob := rebase_blob r;
     binding_blob := binding_blob r; weak_binding_blob := weak_binding_blob r;
     lazy_binding_blob := lazy_binding_blob r; export_blob := export_blob r;
     _entry := _entry r |}.

Definition set_unixthread_pc (v : option Z) (r : MachO) : MachO :=
  {| struct_byteorder := struct_byteorder r; arch_bits := arch_bits r;
     cputype := cputype r; cpusubtype := cpusubtype r; filetype := filetype r;
     pie := pie r; ncmds := ncmds r; sizeofcmds := sizeofcmds r; flags := flags r;
     imported_libraries := imported_libraries r; exports_by_name := exports_by_name r;
     entryoff := entryoff r; unixthread_pc := v; lc_data_in_code := lc_data_in_code r;
     lc_function_starts := lc_function_starts r;
     mod_init_func_pointers := mod_init_func_pointers r;
     mod_term_func_pointers := mod_term_func_pointers r; segments := segments r;
     memory := memory r; strtab := strtab r; symbols := symbols r;
     symbols_by_addr := symbols_by_addr r; rebase_blob := rebase_blob r;
     binding_blob := binding_blob r; weak_binding_blob := weak_binding_blob r;
     lazy_binding_blob := lazy_binding_blob r; export_blob := export_blob r;
     _entry := _entry r |}.

Definition set_lc_data_in_code (v : list (Z * Z * Z)) (r : MachO) : MachO :=
  {| struct_byteorder := struct_byteorder r; arch_bits := arch_bits r;
     cputype := cputype r; cpusubtype := cpusubtype r; filetype := filetype r;
     pie := pie r; ncmds := ncmds r; sizeofcmds := sizeofcmds r; flags := flags r;
     imported_libraries := imported_libraries r; exports_by_name := exports_by_name r;
     entryoff := entryoff r; unixthread_pc := unixthread_pc r; lc_data_in_code := v;
     lc_function_starts := lc_function_starts r;
     mod_init_func_pointers := mod_init_func_pointers r;
     mod_term_func_pointers := mod_term_func_pointers r; segments := segments r;
     memory := memory r; strtab := strtab r; symbols := symbols r;
     symbols_by_addr := symbols_by_addr r; rebase_blob := rebase_blob r;
     binding_blob := binding_blob r; weak_binding_blob := weak_binding_blob r;
     lazy_binding_blob := lazy_binding_blob r; export_blob := export_blob r;
     _entry := _entry r |}.

Definition set_lc_function_starts (v : list Z) (r : MachO) : MachO :=
  {| struct_byteorder := struct_byteorder r; arch_bits := arch_bits r;
     cputype := cputype r; cpusubtype := cpusubtype r; filetype := filetype r;
     pie := pie r; ncmds := ncmds r; sizeofcmds := sizeofcmds r; flags := flags r;
     imported_libraries := imported_libraries r; exports_by_name := exports_by_name r;
     entryoff := entryoff r; unixthread_pc := unixthread_pc r;
     lc_data_in_code := lc_data_in_code r; lc_function_starts := v;
     mod_init_func_pointers := mod_init_func_pointers r;
     mod_term_func_pointers := mod_term_func_pointers r; segments := segments r;
     memory := memory r; strtab := strtab r; symbols := symbols r;
     symbols_by_addr := symbols_by_addr r; rebase_blob := rebase_blob r;
     binding_blob := binding_blob r; weak_binding_blob := weak_binding_blob r;
     lazy_binding_blob := lazy_binding_blob r; export_blob := export_blob r;
     _entry := _entry r |}.

Definition set_mod_init_func_pointers (v : list Z) (r : MachO) : MachO :=
  {| struct_byteorder := struct_byteorder r; arch_bits := arch_bits r;
     cputype := cputype r; cpusubtype := cpusubtype r; filetype := filetype r;
     pie := pie r; ncmds := ncmds r; sizeofcmds := sizeofcmds r; flags := flags r;
     imported_libraries := imported_libraries r; exports_by_name := exports_by_name r;
     entryoff := entryoff r; unixthread_pc := unixthread_pc r;
     lc_data_in_code := lc_data_in_code r; lc_function_starts := lc_function_starts r;
     mod_init_func_pointers := v; mod_term_func_pointers := mod_term_func_pointers r;
     segments := segments r; memory := memory r; strtab := strtab r; symbols := symbols r;
     symbols_by_addr := symbols_by_addr r; rebase_blob := rebase_blob r;
     binding_blob := binding_blob r; weak_binding_blob := weak_binding_blob r;
     lazy_binding_blob := lazy_binding_blob r; export_blob := export_blob r;
     _entry := _entry r |}.

Definition set_mod_term_func_pointers (v : list Z) (r : MachO) : MachO :=
  {| struct_byteorder := struct_byteorder r; arch_bits := arch_bits r;
     cputype := cputype r; cpusubtype := cpusubtype r; filetype := filetype r;
     pie := pie r; ncmds := ncmds r; sizeofcmds := sizeofcmds r; flags := flags r;
     imported_libraries := imported_libraries r; exports_by_name := exports_by_name r;
     entryoff := entryoff r; unixthread_pc := unixthread_pc r;
     lc_data_in_code := lc_data_in_code r; lc_function_starts := lc_function_starts r;
     mod_init_func_pointers := mod_init_func_pointers r; mod_term_func_pointers := v;
     segments := segments r; memory := memory r; strtab := strtab r; symbols := symbols r;
     symbols_by_addr := symbols_by_addr r; rebase_blob := rebase_blob r;
     binding_blob := binding_blob r; weak_binding_blob := weak_binding_blob r;
     lazy_binding_blob := lazy_binding_blob r; export_blob := export_blob r;
     _entry := _entry r |}.

Definition set_segments (v : list MachOSegment) (r : MachO) : MachO :=
  {| struct_byteorder := struct_byteorder r; arch_bits := arch_bits r;
     cputype := cputype r; cpusubtype := cpusubtype r; filetype := filetype r;
     pie := pie r; ncmds := ncmds r; sizeofcmds := sizeofcmds r; flags := flags r;
     imported_libraries := imported_libraries r; exports_by_name := exports_by_name r;
     entryoff := entryoff r; unixthread_pc := unixthread_pc r;
     lc_data_in_code := lc_data_in_code r; lc_function_starts := lc_function_starts r;
     mod_init_func_pointers := mod_init_func_pointers r;
     mod_term_func_pointers := mod_term_func_pointers r; segments := v; memory := memory r;
     strtab := strtab r; symbols := symbols r; symbols_by_addr := symbols_by_addr r;
     rebase_blob := rebase_blob r; binding_blob := binding_blob r;
     weak_binding_blob := weak_binding_blob r; lazy_binding_blob := lazy_binding_blob r;
     export_blob := export_blob r; _entry := _entry r |}.

Definition set_memory (v : list (Z * list byte)) (r : MachO) : MachO :=
  {| struct_byteorder := struct_byteorder r; arch_bits := arch_bits r;
     cputype := cputype r; cpusubtype := cpusubtype r; filetype := filetype r;
     pie := pie r; ncmds := ncmds r; sizeofcmds := sizeofcmds r; flags := flags r;
     imported_libraries := imported_libraries r; exports_by_name := exports_by_name r;
     entryoff := entryoff r; unixthread_pc := unixthread_pc r;
     lc_data_in_code := lc_data_in_code r; lc_function_starts := lc_function_starts r;
     mod_init_func_pointers := mod_init_func_pointers r;
     mod_term_func_pointers := mod_term_func_pointers r; segments := segments r;
     memory := v; strtab := strtab r; symbols := symbols r;
     symbols_by_addr := symbols_by_addr r; rebase_blob := rebase_blob r;
     binding_blob := binding_blob r; weak_binding_blob := weak_binding_blob r;
     lazy_binding_blob := lazy_binding_blob r; export_blob := export_blob r;
     _entry := _entry r |}.

Definition set_strtab (v : list byte) (r : MachO) : MachO :=
  {| struct_byteorder := struct_byteorder r; arch_bits := arch_bits r;
     cputype := cputype r; cpusubtype := cpusubtype r; filetype := filetype r;
     pie := pie r; ncmds := ncmds r; sizeofcmds := sizeofcmds r; flags := flags r;
     imported_libraries := imported_libraries r; exports_by_name := exports_by_name r;
     entryoff := entryoff r; unixthread_pc := unixthread_pc r;
     lc_data_in_code := lc_data_in_code r; lc_function_starts := lc_function_starts r;
     mod_init_func_pointers := mod_init_func_pointers r;
     mod_term_func_pointers := mod_term_func_pointers r; segments := segments r;
     memory := memory r; strtab := v; symbols := symbols r;
     symbols_by_addr := symbols_by_addr r; rebase_blob := rebase_blob r;
     binding_blob := binding_blob r; weak_binding_blob := weak_binding_blob r;
     lazy_binding_blob := lazy_binding_blob r; export_blob := export_blob r;
     _entry := _entry r |}.

Definition set_symbols (v : list MachOSymbol) (r : MachO) : MachO :=
  {| struct_byteorder := struct_byteorder r; arch_bits := arch_bits r;
     cputype := cputype r; cpusubtype := cpusubtype r; filetype := filetype r;
     pie := pie r; ncmds := ncmds r; sizeofcmds := sizeofcmds r; flags := flags r;
     imported_libraries := imported_libraries r; exports_by_name := exports_by_name r;
     entryoff := entryoff r; unixthread_pc := unixthread_pc r;
     lc_data_in_code := lc_data_in_code r; lc_function_starts := lc_function_starts r;
     mod_init_func_pointers := mod_init_func_pointers r;
     mod_term_func_pointers := mod_term_func_pointers r; segments := segments r;
     memory := memory r; strtab := strtab r; symbols := v;
     symbols_by_addr := symbols_by_addr r; rebase_blob := rebase_blob r;
     binding_blob := binding_blob r; weak_binding_blob := weak_binding_blob r;
     lazy_binding_blob := lazy_binding_blob r; export_blob := export_blob r;
     _entry := _entry r |}.

Definition set_symbols_by_addr (v : gmap Z MachOSymbol) (r : MachO) : MachO :=
  {| struct_byteorder := struct_byteorder r; arch_bits := arch_bits r;
     cputype := cputype r; cpusubtype := cpusubtype r; filetype := filetype r;
     pie := pie r; ncmds := ncmds r; sizeofcmds := sizeofcmds r; flags := flags r;
     imported_libraries := imported_libraries r; exports_by_name := exports_by_name r;
     entryoff := entryoff r; unixthread_pc := unixthread_pc r;
     lc_data_in_code := lc_data_in_code r; lc_function_starts := lc_function_starts r;
     mod_init_func_pointers := mod_init_func_pointers r;
     mod_term_func_pointers := mod_term_func_pointers r; segments := segments r;
     memory := memory r; strtab := strtab r; symbols := symbols r; symbols_by_addr := v;
     rebase_blob := rebase_blob r; binding_blob := binding_blob r;
     weak_binding_blob := weak_binding_blob r; lazy_binding_blob := lazy_binding_blob r;
     export_blob := export_blob r; _entry := _entry r |}.

Definition set__entry (v : option Z) (r : MachO) : MachO :=
  {| struct_byteorder := struct_byteorder r; arch_bits := arch_bits r;
     cputype := cputype r; cpusubtype := cpusubtype r; filetype := filetype r;
     pie := pie r; ncmds := ncmds r; sizeofcmds := sizeofcmds r; flags := flags r;
     imported_libraries := imported_libraries r; exports_by_name := exports_by_name r;
     entryoff := entryoff r; unixthread_pc := unixthread_pc r;
     lc_data_in_code := lc_data_in_code r; lc_function_starts := lc_function_starts r;
     mod_init_func_pointers := mod_init_func_pointers r;
     mod_term_func_pointers := mod_term_func_pointers r; segments := segments r;
     memory := memory r; strtab := strtab r; symbols := symbols r;
     symbols_by_addr := symbols_by_addr r; rebase_blob := rebase_blob r;
     binding_blob := binding_blob r; weak_binding_blob := weak_binding_blob r;
     lazy_binding_blob := lazy_binding_blob r; export_blob := export_blob r; _entry := v |}.

Definition set_mach_header (cputype' cpusubtype' filetype' : Z) (pie' : bool)
    (ncmds' sizeofcmds' flags' : Z) (r : MachO) : MachO :=
  {| struct_byteorder := struct_byteorder r; arch_bits := arch_bits r; cputype := cputype';
     cpusubtype := cpusubtype'; filetype := filetype'; pie := pie'; ncmds := ncmds';
     sizeofcmds := sizeofcmds'; flags := flags';
     imported_libraries := imported_libraries r; exports_by_name := exports_by_name r;
     entryoff := entryoff r; unixthread_pc := unixthread_pc r;
     lc_data_in_code := lc_data_in_code r; lc_function_starts := lc_function_starts r;
     mod_init_func_pointers := mod_init_func_pointers r;
     mod_term_func_pointers := mod_term_func_pointers r; segments := segments r;
     memory := memory r; strtab := strtab r; symbols := symbols r;
     symbols_by_addr := symbols_by_addr r; rebase_blob := rebase_blob r;
     binding_blob := binding_blob r; weak_binding_blob := weak_binding_blob r;
     lazy_binding_blob := lazy_binding_blob r; export_blob := export_blob r;
     _entry := _entry r |}.

Definition set_dyld_blobs
    (rebase_blob' binding_blob' weak_binding_blob' lazy_binding_blob' export_blob' : option (list byte))
    (r : MachO) : MachO :=
  {| struct_byteorder := struct_byteorder r; arch_bits := arch_bits r;
     cputype := cputype r; cpusubtype := cpusubtype r; filetype := filetype r;
     pie := pie r; ncmds := ncmds r; sizeofcmds := sizeofcmds r; flags := flags r;
     imported_libraries := imported_libraries r; exports_by_name := exports_by_name r;
     entryoff := entryoff r; unixthread_pc := unixthread_pc r;
     lc_data_in_code := lc_data_in_code r; lc_function_starts := lc_function_starts r;
     mod_init_func_pointers := mod_init_func_pointers r;
     mod_term_func_pointers := mod_term_func_pointers r; segments := segments r;
     memory := memory r; strtab := strtab r; symbols := symbols r;
     symbols_by_addr := symbols_by_addr r; rebase_blob := rebase_blob';
     binding_blob := binding_blob'; weak_binding_blob := weak_binding_blob';
     lazy_binding_blob := lazy_binding_blob'; export_blob := export_blob';
     _entry := _entry r |}.

(** ** Collaborators declared outside this file

    [read_uleb] and [BindingHelper] come from [binding.py], the derived
    attributes of a symbol from [symbol.py], the size a new symbol starts
    with from the [Symbol] base class, [memory.read_bytes] from the host's
    memory store.  The loader is verified for every behaviour they may have,
    within their types: [read_uleb] returns an unsigned value and a count of
    bytes, and a binding pass only rewrites the two cross-reference sets of
    the symbols, so it is given as the new pair of sets for the symbol at
    each index. *)
Class Externals : Type := {
  binding_read_uleb : list byte -> Z -> res (N * N);
  is_common : MachOSymbol -> bool;
  is_import : MachOSymbol -> bool;
  library_ordinal : MachOSymbol -> option Z;
  symbol_size : MachO -> Z;
  read_bytes : list (Z * list byte) -> Z -> Z -> res (list byte);
  do_normal_bind : MachO -> option (list byte) -> res (nat -> MachOSymbol -> list Z * list Z);
  do_lazy_bind : MachO -> option (list byte) -> res (nat -> MachOSymbol -> list Z * list Z)
}.

(** Modelled from the spec: [symbol.py] is not among the sources; a stab
    (debugging) symbol is one with [n_type & 0xE0 != 0]. *)
Definition is_stab (sym : MachOSymbol) : bool := negb (Z.land (n_type sym) 0xe0 =? 0).

(** Modelled from the spec: [symbol.py] is not among the sources; the symbol
    type is derived from [n_type & 0x0e], and SECT is 14. *)
Definition sym_type (sym : MachOSymbol) : Z := Z.land (n_type sym) 0x0e.
Definition SYMBOL_TYPE_SECT : Z := 14.

(** Modelled from the spec: [section.py] is not among the sources; the type
    of a section is [flags & 0xFF]. *)
Definition sec_type (sec : MachOSection) : Z := Z.land (sec_flags sec) 0xff.

(** Modelled from the spec: [archinfo] is not among the sources; the image
    has 64 bits iff the 0x01000000 bit of [cputype] is set. *)
Definition arch_from_id_bits (cputype : Z) : Z :=
  if Z.land cputype 0x01000000 =? 0 then 32 else 64.

(** ** Python helpers *)

(** Truth value of an attribute that is [None] or an integer. *)
Definition truthy (o : option Z) : bool :=
  match o with
  | Some z => negb (z =? 0)
  | None => false
  end.

Definition is_not_None {A} (o : option A) : bool :=
  match o with
  | Some _ => true
  | None => false
  end.

(** [range(start, stop, step)] for a positive step. *)
Definition py_range (start stop step : Z) : list Z :=
  (fun k => start + step * Z.of_nat k) <$> seq 0 (Z.to_nat ((stop - start + step - 1) `div` step)).

(** [l[start:]] and [l[start:stop]] with Python's treatment of negative and
    oversized bounds. *)
Definition clamp_index (n i : Z) : Z :=
  if i <? 0 then Z.max (i + n) 0 else Z.min i n.

Definition py_slice {A} (l : list A) (start : Z) (stop : option Z) : list A :=
  let n := Z.of_nat (length l) in
  let lo := clamp_index n start in
  let hi := match stop with Some e => clamp_index n e | None => n end in
  take (Z.to_nat (hi - lo)) (drop (Z.to_nat lo) l).

(** A [for] loop whose body may raise. *)
Fixpoint for_each {A S} (body : A -> S -> res S) (l : list A) (s : S) : res S :=
  match l with
  | [] => Ok s
  | x :: rest => s' ← body x s; for_each body rest s'
  end.

(** [s.replace(NUL, empty)]: every NUL byte is removed. *)
Definition strip_nul (s : list byte) : list byte := filter (fun b => b ≠ NUL) s.

(** ** The object before parsing

    The attributes [__init__] sets to [None] and the header parser fills
    before any use hold a placeholder here. *)

Definition MachO_new : MachO :=
  {| struct_byteorder := Little; arch_bits := 0; cputype := 0; cpusubtype := 0;
     filetype := 0; pie := false; ncmds := 0; sizeofcmds := 0; flags := 0;
     imported_libraries := ["Self"%string]; exports_by_name := ∅;
     entryoff := None; unixthread_pc := None; lc_data_in_code := [];
     lc_function_starts := []; mod_init_func_pointers := [];
     mod_term_func_pointers := []; segments := []; memory := []; strtab := [];
     symbols := []; symbols_by_addr := ∅; rebase_blob := None; binding_blob := None;
     weak_binding_blob := None; lazy_binding_blob := None; export_blob := None;
     _entry := None |}.

Definition MH_MAGIC_64 : Z := 0xfeedfacf.
Definition MH_CIGAM_64 : Z := 0xcffaedfe.
Definition MH_MAGIC : Z := 0xfeedface.
Definition MH_CIGAM : Z := 0xcefaedfe.

Definition is_64bit (m : MachO) : bool := arch_bits m =? 64.

(** ** Segment lookup *)

Definition find_segment_by_name (m : MachO) (name : string) : option MachOSegment :=
  (fix loop (segs : list MachOSegment) : option MachOSegment :=
     match segs with
     | [] => None
     | s :: rest => if decide (seg_segname s = name) then Some s else loop rest
     end) (segments m).

Definition get_segment_by_name (m : MachO) (name : string) : option MachOSegment :=
  (fix loop (segs : list MachOSegment) : option MachOSegment :=
     match segs with
     | [] => None
     | seg :: rest => if decide (seg_segname seg = name) then Some seg else loop rest
     end) (segments m).

Definition __getitem__ (m : MachO) (item : string) : option MachOSegment :=
  get_segment_by_name m item.

(** ** Header *)

Definition _detect_byteorder (host_is_little : bool) (magic : Z) : res byteorder :=
  if host_is_little then
    if bool_decide (magic ∈ [MH_MAGIC_64; MH_MAGIC]) then Ok Little
    else if bool_decide (magic ∈ [MH_CIGAM; MH_CIGAM_64]) then Ok Big
    else Raise CLECompatibilityError
  else
    if bool_decide (magic ∈ [MH_MAGIC_64; MH_MAGIC]) then Ok Big
    else if bool_decide (magic ∈ [MH_CIGAM_64; MH_CIGAM]) then Ok Little
    else Raise CLECompatibilityError.

Definition _parse_mach_header (f : file) (m : MachO) : res MachO :=
  vs ← _unpack (struct_byteorder m) (replicate 7 fI) f 0 28;
  let m := set_mach_header (int_at vs 1) (int_at vs 2) (int_at vs 3)
             (negb (Z.land (int_at vs 6) 0x200000 =? 0))
             (int_at vs 4) (int_at vs 5) (int_at vs 6) m in
  if negb (negb (Z.land (flags m) 0x80 =? 0)) then Raise CLEInvalidBinaryError
  else Ok m.

Definition _detect_arch_ident (m : MachO) : option string :=
  if cputype m =? 0x100000c then Some "aarch"%string
  else if cputype m =? 0xc then Some "arm"%string
  else if cputype m =? 0x7 then Some "x86"%string
  else if cputype m =? 0x1000007 then Some "x64"%string
  else None.

(** ** Load-command handlers *)

Section Loader.
Context `{Externals}.

(** [read_uleb(blob, offset)]: the decoded value and the number of bytes
    consumed. *)
Definition read_uleb (blob : list byte) (offset : Z) : res (Z * Z) :=
  '(value, consumed) ← binding_read_uleb blob offset;
  Ok (Z.of_N value, Z.of_N consumed).

(** [MachO.get_string]: the loop runs at most once per byte of the table, so
    the fuel handed to it by [get_string] never runs out. *)
Fixpoint get_string_loop (fuel : nat) (tab : list byte) (start end_ : Z) : res (list byte) :=
  if end_ <? Z.of_nat (length tab) then
    match fuel with
    | O => Diverge
    | S fuel' =>
        c ← py_getitem tab end_;
        if decide (c = NUL) then Ok (py_slice tab start (Some end_))
        else get_string_loop fuel' tab start (end_ + 1)
    end
  else Ok (py_slice tab start None).

Definition get_string (m : MachO) (start : Z) : res (list byte) :=
  let end_ := start in
  if end_ >? Z.of_nat (length (strtab m)) then Raise ValueError
  else get_string_loop (Z.to_nat (Z.of_nat (length (strtab m)) - end_)) (strtab m) start end_.

(** [MachO.parse_lc_str]: one [_unpack("c", ...)] per character; the read
    that falls off the file gets an empty buffer and [struct.error]. *)
Fixpoint parse_lc_str_loop (rest : list byte) (limit : option Z) (ctr : Z) : res (list byte) :=
  match rest with
  | [] => Raise StructError
  | tmp :: rest' =>
      if bool_decide (tmp ≠ NUL)
         && match limit with None => true | Some lim => ctr <? lim end
      then s ← parse_lc_str_loop rest' limit (ctr + 1); Ok (tmp :: s)
      else Ok []
  end.

Definition parse_lc_str (f : file) (start : Z) (limit : option Z) : res (list byte) :=
  if start <? 0 then Raise IOError
  else parse_lc_str_loop (drop (Z.to_nat start) f) limit 0.

Definition _load_lc_data_in_code (f : file) (off : Z) (m : MachO) : res MachO :=
  vs ← _unpack (struct_byteorder m) (replicate 4 fI) f off 16;
  let dataoff := int_at vs 2 in
  let datasize := int_at vs 3 in
  for_each (fun i m =>
      blob ← _unpack (struct_byteorder m) [fI; fH; fH] f i 8;
      Ok (set_lc_data_in_code
            (lc_data_in_code m ++ [(int_at blob 0, int_at blob 1, int_at blob 2)]) m))
    (py_range dataoff datasize 8) m.

Definition _assert_unencrypted (f : file) (off : Z) (m : MachO) : res MachO :=
  vs ← _unpack (struct_byteorder m) (replicate 5 fI) f off 20;
  let cryptid := int_at vs 4 in
  if cryptid >? 0 then Raise CLEInvalidBinaryError else Ok m.

Definition _load_lc_main (f : file) (offset : Z) (m : MachO) : res MachO :=
  if is_not_None (entryoff m) || is_not_None (unixthread_pc m) then
    Raise CLEInvalidBinaryError
  else
    vs ← _unpack (struct_byteorder m) [fI; fI; fQ; fQ] f offset 24;
    Ok (set_entryoff (Some (int_at vs 2)) m).

Definition _load_lc_unixthread (f : file) (offset : Z) (m : MachO) : res MachO :=
  if is_not_None (entryoff m) || is_not_None (unixthread_pc m) then
    Raise CLEInvalidBinaryError
  else
    vs ← _unpack (struct_byteorder m) (replicate 4 fI) f offset 16;
    let flavor := int_at vs 2 in
    blob ←
      (if (flavor =? 1) && negb (is_64bit m) then
         _unpack (struct_byteorder m) (replicate 16 fI) f (offset + 16) 64
       else if (flavor =? 1) && is_64bit m || (flavor =? 6) then
         _unpack (struct_byteorder m) (replicate 33 fQ) f (offset + 16) 264
       else Raise CLECompatibilityError);
    pc ← py_getitem blob (-1);
    Ok (set_unixthread_pc (Some (match pc with VInt z => z | VStr _ => 0 end)) m).

Definition _load_dylib_info (f : file) (offset : Z) (m : MachO) : res MachO :=
  vs ← _unpack (struct_byteorder m) (replicate 6 fI) f offset 24;
  let name_offset := int_at vs 2 in
  lib_name ← parse_lc_str f (offset + name_offset) None;
  Ok (set_imported_libraries (imported_libraries m ++ [text lib_name]) m).

Definition _load_dyld_info (f : file) (offset : Z) (m : MachO) : res MachO :=
  vs ← _unpack (struct_byteorder m) (replicate 12 fI) f offset 48;
  rebase ← _read f (int_at vs 2) (int_at vs 3);
  binding ← _read f (int_at vs 4) (int_at vs 5);
  weak ← _read f (int_at vs 6) (int_at vs 7);
  lazy ← _read f (int_at vs 8) (int_at vs 9);
  export ← _read f (int_at vs 10) (int_at vs 11);
  Ok (set_dyld_blobs (Some rebase) (Some binding) (Some weak) (Some lazy) (Some export) m).

(** [MachOSymbol(self, name, None, offset, n_type, n_sect, n_desc, n_value)] *)
Definition MachOSymbol_new (m : MachO) (name : list byte)
    (offset n_type' n_sect' n_desc' n_value' : Z) : MachOSymbol :=
  {| sym_name := text name; sym_addr := None; sym_size := symbol_size m;
     symtab_offset := offset; n_type := n_type'; n_sect := n_sect'; n_desc := n_desc';
     n_value := n_value'; library_name := None; segment_name := None;
     section_name := None; _is_export := None; is_export := None;
     bind_xrefs := []; symbol_stubs := [] |}.

Definition _load_symtab (f : file) (offset : Z) (m : MachO) : res MachO :=
  vs ← _unpack (struct_byteorder m) (replicate 6 fI) f offset 24;
  let symoff := int_at vs 2 in
  let nsyms := int_at vs 3 in
  let stroff := int_at vs 4 in
  let strsize := int_at vs 5 in
  tab ← _read f stroff strsize;
  let m := set_strtab tab m in
  let '(packstr, structsize) :=
    if arch_bits m =? 64 then ([fI; fB; fB; fH; fQ], 16) else ([fI; fB; fB; fh; fI], 12) in
  let m := set_symbols [] m in
  for_each (fun i m =>
      let offset := i * structsize + symoff in
      e ← _unpack (struct_byteorder m) packstr f offset structsize;
      let n_strx := int_at e 0 in
      name ← (if negb (n_strx =? 0) then get_string m n_strx else Ok []);
      Ok (set_symbols
            (symbols m ++ [MachOSymbol_new m name offset (int_at e 1) (int_at e 2)
                             (int_at e 3) (int_at e 4)]) m))
    (py_range 0 nsyms 1) m.

(** The section records that follow a segment header. *)
Definition load_section (f : file) (packstr : list fmt) (section_start section_s_size : Z)
    (o : byteorder) (i : Z) (sections : list MachOSection) : res (list MachOSection) :=
  s ← _unpack o packstr f (i * section_s_size + section_start) section_s_size;
  let section_sectname := strip_nul (str_at s 0) in
  let section_segname := strip_nul (str_at s 1) in
  let section_vsize := int_at s 3 in
  Ok (sections ++
        [Build_MachOSection (int_at s 4) (int_at s 2) section_vsize section_vsize
           (text section_segname) (text section_sectname) (int_at s 5) (int_at s 6)
           (int_at s 7) (int_at s 8) (int_at s 9) (int_at s 10)]).

(** The header of an LC_SEGMENT or LC_SEGMENT_64 command:
    [(_, cmdsize, segname, vmaddr, vmsize, fileoff, filesize, maxprot,
    initprot, nsects, flags)]. *)
Definition unpack_segment_command (f : file) (offset : Z) (m : MachO) : res (list val) :=
  let is64 := arch_bits m =? 64 in
  if negb is64
  then _unpack (struct_byteorder m) ([fI; fI; fs 16] ++ replicate 8 fI) f offset 56
  else _unpack (struct_byteorder m) ([fI; fI; fs 16] ++ replicate 4 fQ ++ replicate 4 fI)
         f offset 72.

(** [for i in range(0, nsects)]: the sections appended to [seg.sections]. *)
Definition load_sections (f : file) (offset : Z) (m : MachO) (nsects : Z) :
    res (list MachOSection) :=
  let is64 := arch_bits m =? 64 in
  let segment_s_size := if negb is64 then 56 else 72 in
  let '(section_s_size, section_s_packstr) :=
    if negb is64 then (68, [fs 16; fs 16] ++ replicate 9 fI)
    else (80, [fs 16; fs 16; fQ; fQ] ++ replicate 6 fI ++ [fQ]) in
  let section_start := offset + segment_s_size in
  for_each
    (load_section f section_s_packstr section_start section_s_size (struct_byteorder m))
    (py_range 0 nsects 1) [].

Definition _load_segment (f : file) (offset : Z) (m : MachO) : res MachO :=
  vs ← unpack_segment_command f offset m;
  let segname := strip_nul (str_at vs 2) in
  let vmaddr := int_at vs 3 in
  let vmsize := int_at vs 4 in
  let fileoff := int_at vs 5 in
  let filesize := int_at vs 6 in
  let maxprot := int_at vs 7 in
  let initprot := int_at vs 8 in
  let nsects := int_at vs 9 in
  let flags' := int_at vs 10 in
  sections ← load_sections f offset m nsects;
  let seg := Build_MachOSegment fileoff vmaddr filesize vmsize (text segname) nsects
               sections flags' initprot maxprot in
  m ← (if decide (text segname = "__PAGEZERO"%string) then Ok m
       else
         blob ← _read f (seg_offset seg) (seg_filesize seg);
         let blob :=
           if seg_filesize seg <? seg_memsize seg
           then blob ++ replicate (Z.to_nat (seg_memsize seg - seg_filesize seg)) NUL
           else blob in
         Ok (set_memory (memory m ++ [(seg_vaddr seg, blob)]) m));
  Ok (set_segments (segments m ++ [seg]) m).

Fixpoint function_starts_loop (fuel : nat) (blob : list byte) (end_ i address : Z)
    (starts : list Z) : res (list Z) :=
  if i <? end_ then
    match fuel with
    | O => Diverge
    | S fuel' =>
        uleb ← read_uleb blob i;
        c ← py_getitem blob i;
        if decide (c = NUL) then Ok starts
        else
          let address := address + uleb.1 in
          function_starts_loop fuel' blob end_ (i + uleb.2) address (starts ++ [address])
    end
  else Ok starts.

(** The first segment with [offset == 0 and filesize != 0]. *)
Fixpoint function_starts_base (segs : list MachOSegment) : option Z :=
  match segs with
  | [] => None
  | seg :: rest =>
      if (seg_offset seg =? 0) && negb (seg_filesize seg =? 0) then Some (seg_vaddr seg)
      else function_starts_base rest
  end.

Definition _load_lc_function_starts (fuel : nat) (f : file) (off : Z) (m : MachO) : res MachO :=
  vs ← _unpack (struct_byteorder m) (replicate 4 fI) f off 16;
  let dataoff := int_at vs 2 in
  let datasize := int_at vs 3 in
  let i := 0 in
  let end_ := datasize in
  blob ← _read f dataoff datasize;
  let m := set_lc_function_starts [] m in
  match function_starts_base (segments m) with
  | None => Raise CLEInvalidBinaryError
  | Some address =>
      starts ← function_starts_loop fuel blob end_ i address (lc_function_starts m);
      Ok (set_lc_function_starts starts m)
  end.

(** ** The load-command loop of [MachO.__init__] *)

(** The [if]/[elif] chain on [cmd]; a command that matches no branch is
    skipped. *)
Definition dispatch (fuel : nat) (cmd : Z) (f : file) (offset : Z) (m : MachO) : res MachO :=
  if bool_decide (cmd ∈ [0x1; 0x19]) then _load_segment f offset m
  else if cmd =? 0x2 then _load_symtab f offset m
  else if bool_decide (cmd ∈ [0x22; 0x80000022]) then _load_dyld_info f offset m
  else if bool_decide (cmd ∈ [0xc; 0x8000001c; 0x80000018]) then _load_dylib_info f offset m
  else if cmd =? 0x80000028 then _load_lc_main f offset m
  else if cmd =? 0x5 then _load_lc_unixthread f offset m
  else if cmd =? 0x26 then _load_lc_function_starts fuel f offset m
  else if cmd =? 0x29 then _load_lc_data_in_code f offset m
  else if bool_decide (cmd ∈ [0x21; 0x2c]) then _assert_unencrypted f offset m
  else Ok m.

(** The state of the loop: [count], [offset] and the object. *)
Definition lc_state : Type := Z * Z * MachO.

(** [count < self.ncmds and (offset - lc_offset) < self.sizeofcmds] *)
Definition lc_continue (lc_offset : Z) (st : lc_state) : bool :=
  let '(count, offset, m) := st in
  (count <? ncmds m) && (offset - lc_offset <? sizeofcmds m).

(** One turn of the loop body. *)
Definition lc_body (fuel : nat) (f : file) (st : lc_state) : res lc_state :=
  let '(count, offset, m) := st in
  let count := count + 1 in
  vs ← _unpack (struct_byteorder m) [fI; fI] f offset 8;
  let cmd := int_at vs 0 in
  let size := int_at vs 1 in
  m ← dispatch fuel cmd f offset m;
  Ok (count, offset + size, m).

(** The [while] loop; [gas] bounds the number of turns. *)
Fixpoint lc_loop (gas fuel : nat) (f : file) (lc_offset : Z) (st : lc_state) : res lc_state :=
  if lc_continue lc_offset st then
    match gas with
    | O => Diverge
    | S gas' => st' ← lc_body fuel f st; lc_loop gas' fuel f lc_offset st'
    end
  else Ok st.

(** The assertion after the loop. *)
Definition lc_assert (lc_offset : Z) (st : lc_state) : res MachO :=
  let '(count, offset, m) := st in
  if (count <? ncmds m) || (offset - lc_offset <? sizeofcmds m)
  then Raise CLEInvalidBinaryError
  else Ok m.

(** The loop as [__init__] runs it: from [count = 0] and
    [offset = lc_offset]; [count] grows by one per turn and stays below
    [ncmds], so [ncmds] turns of gas are enough. *)
Definition load_commands (fuel : nat) (f : file) (lc_offset : Z) (m : MachO) : res lc_state :=
  lc_loop (Z.to_nat (ncmds m)) fuel f lc_offset (0, lc_offset, m).

(** [except IOError as e: raise CLEOperationError(e)] *)
Definition except_IOError {A} (r : res A) : res A :=
  match r with
  | Raise IOError => Raise CLEOperationError
  | _ => r
  end.

(** The [try] block of [__init__]: header, architecture, load commands. *)
Definition parse_file (fuel : nat) (host_is_little : bool) (f : file) : res MachO :=
  except_IOError
    (magic ← struct_unpack (if host_is_little then Little else Big) [fI] (take 4 f);
     bo ← _detect_byteorder host_is_little (int_at magic 0);
     let m := set_struct_byteorder bo MachO_new in
     m ← _parse_mach_header f m;
     match _detect_arch_ident m with
     | None => Raise CLECompatibilityError
     | Some _ =>
         let m := set_arch_bits (arch_from_id_bits (cputype m)) m in
         let lc_offset := (if arch_bits m =? 32 then 7 else 8) * 4 in
         st ← load_commands fuel f lc_offset m;
         lc_assert lc_offset st
     end).

(** ** Entry point *)

Definition _resolve_entry (m : MachO) : res MachO :=
  if truthy (entryoff m) then
    match find_segment_by_name m "__TEXT" with
    | None => Raise AttributeError
    | Some seg => Ok (set__entry (Some (seg_vaddr seg + default 0 (entryoff m))) m)
    end
  else if truthy (unixthread_pc m) then Ok (set__entry (unixthread_pc m) m)
  else Ok (set__entry (Some 0) m).

(** ** Exports trie *)

Definition FLAGS_REEXPORT : Z := 0x08.
Definition FLAGS_STUB_AND_RESOLVER : Z := 0x10.

(** [struct.unpack("B", blob_f.read(1))[0]] at position [pos] of the
    [StringIO]: at the end of the blob [read] returns the empty string and
    [unpack] raises.  Positions start at 0 and grow by the unsigned numbers
    [read_uleb] returns, so they are never negative. *)
Definition read_B (blob : list byte) (pos : Z) : res Z :=
  match blob !! Z.to_nat pos with
  | Some b => Ok (ord b)
  | None => Raise StructError
  end.

(** [char = blob_f.read(1); while char != '\x00': s += char; char = blob_f.read(1)]
    on the bytes from the current position: the string and the number of
    bytes consumed, terminator included.  Without a terminator [read] keeps
    returning the empty string, which never equals the terminator: the loop
    does not end ([None]). *)
Fixpoint read_cstr (rest : list byte) : option (list byte * Z) :=
  match rest with
  | [] => None
  | char :: rest' =>
      if decide (char = NUL) then Some ([], 1)
      else '(s, n) ← read_cstr rest'; Some (char :: s, n + 1)
  end.

Definition read_cstr_at (blob : list byte) (pos : Z) : res (list byte * Z) :=
  match read_cstr (drop (Z.to_nat pos) blob) with
  | Some (s, n) => Ok (s, pos + n)
  | None => Diverge
  end.

(** The start of the loop body: [blob_f.seek(index, SEEK_SET)], the byte
    [info_len] and, when it is above 127, the LEB128 number that starts with
    this byte; the value of [info_len] and the position reached. *)
Definition export_info_len (blob : list byte) (index : Z) : res (Z * Z) :=
  let pos := index in
  info_len ← read_B blob pos;
  let pos := pos + 1 in
  if info_len >? 127 then
    let pos := pos - 1 in
    tmp ← read_uleb blob pos;
    Ok (tmp.1, pos + tmp.2)
  else Ok (info_len, pos).

(** The body of the loop up to the read of [child_count]: the export
    recorded for the node, if any, and the position reached. *)
Definition export_node (segs : list MachOSegment) (blob : list byte) (index : Z)
    (sym_str : list byte) (exports : gmap string Export) : res (gmap string Export * Z) :=
  '(info_len, pos) ← export_info_len blob index;
  if info_len >? 0 then
    tmp ← read_uleb blob pos;
    let pos := pos + tmp.2 in
    let eflags := tmp.1 in
    if negb (Z.land eflags FLAGS_REEXPORT =? 0) then
      tmp ← read_uleb blob pos;
      let pos := pos + tmp.2 in
      let lib_ordinal := tmp.1 in
      '(lib_sym_name, pos) ← read_cstr_at blob pos;
      Ok (<[text sym_str := ExportReexport eflags lib_ordinal (text lib_sym_name)]> exports, pos)
    else if negb (Z.land eflags FLAGS_STUB_AND_RESOLVER =? 0) then
      tmp ← read_uleb blob pos;
      let pos := pos + tmp.2 in
      let stub_offset := tmp.1 in
      tmp ← read_uleb blob pos;
      let pos := pos + tmp.2 in
      let resolver_offset := tmp.1 in
      Ok (<[text sym_str := ExportStubAndResolver eflags stub_offset resolver_offset]> exports, pos)
    else
      tmp ← read_uleb blob pos;
      let pos := pos + tmp.2 in
      seg ← py_getitem segs 1;
      let symbol_offset := tmp.1 + seg_vaddr seg in
      Ok (<[text sym_str := ExportRegular eflags symbol_offset]> exports, pos)
  else Ok (exports, pos).

(** [for i in range(0, child_count)]: the children pushed on [nodes_to_do],
    whose last element is the head of the list. *)
Fixpoint export_children (n : nat) (blob : list byte) (pos : Z) (sym_str : list byte)
    (nodes_to_do : list (Z * list byte)) : res (list (Z * list byte)) :=
  match n with
  | O => Ok nodes_to_do
  | S n' =>
      '(edge, pos) ← read_cstr_at blob pos;
      let child_str := sym_str ++ edge in
      tmp ← read_uleb blob pos;
      let pos := pos + tmp.2 in
      let next_node := tmp.1 in
      export_children n' blob pos sym_str ((next_node, child_str) :: nodes_to_do)
  end.

(** What one turn of [while True] leaves behind. *)
Inductive trie_step : Type :=
  | TrieNext (exports : gmap string Export) (nodes_to_do : list (Z * list byte))
  | TrieDone (exports : gmap string Export)
  | TrieRaise (e : exn)
  | TrieDiverge.

(** One turn of the loop.  An [IndexError] from anywhere in the body (the
    [pop] from the empty list, [self.segments[1]], a reader) ends the walk;
    what was stored before it stays in [exports_by_name]. *)
Definition export_step (segs : list MachOSegment) (blob : list byte)
    (exports : gmap string Export) (nodes_to_do : list (Z * list byte)) : trie_step :=
  match nodes_to_do with
  | [] => TrieDone exports
  | (index, sym_str) :: nodes_to_do =>
      match export_node segs blob index sym_str exports with
      | Raise IndexError => TrieDone exports
      | Raise e => TrieRaise e
      | Diverge => TrieDiverge
      | Ok (exports, pos) =>
          match (child_count ← read_B blob pos;
                 export_children (Z.to_nat child_count) blob (pos + 1) sym_str nodes_to_do) with
          | Raise IndexError => TrieDone exports
          | Raise e => TrieRaise e
          | Diverge => TrieDiverge
          | Ok nodes_to_do => TrieNext exports nodes_to_do
          end
      end
  end.

Fixpoint export_loop (fuel : nat) (segs : list MachOSegment) (blob : list byte)
    (exports : gmap string Export) (nodes_to_do : list (Z * list byte)) :
    res (gmap string Export) :=
  match fuel with
  | O => Diverge
  | S fuel' =>
      match export_step segs blob exports nodes_to_do with
      | TrieNext exports nodes_to_do => export_loop fuel' segs blob exports nodes_to_do
      | TrieDone exports => Ok exports
      | TrieRaise e => Raise e
      | TrieDiverge => Diverge
      end
  end.

Definition _parse_exports (fuel : nat) (blob : option (list byte)) (m : MachO) : res MachO :=
  match blob with
  | None => Ok m
  | Some blob =>
      exports ← export_loop fuel (segments m) blob (exports_by_name m) [(0, [])];
      Ok (set_exports_by_name exports m)
  end.

(** ** Symbol resolution *)

Definition ext_symbol_start (m : MachO) : Z :=
  if arch_bits m =? 64 then 0xff00000000000000 else 0xff000000.

(** The body of [for sym in self.symbols], in the order of the source: the
    export mark, then for a symbol that is not a stab its attributes, then
    the address.

    [sym._is_export = sym.name in self.exports_by_name] *)
Definition mark_export (m : MachO) (sym : MachOSymbol) : MachOSymbol :=
  set__is_export (Some (bool_decide (is_Some (exports_by_name m !! sym_name sym)))) sym.

(** From [if sym.name in self.exports_by_name] to the end of the
    [if sym.sym_type == SYMBOL_TYPE_SECT: ... elif sym.is_import(): ...]. *)
Definition resolve_symbol_attrs (m : MachO) (section_tab : list (option MachOSection))
    (sym : MachOSymbol) : res MachOSymbol :=
  let sym :=
    set_is_export (Some (bool_decide (is_Some (exports_by_name m !! sym_name sym)))) sym in
  let sym := if is_common sym then set_sym_size (n_value sym) sym else sym in
  if sym_type sym =? SYMBOL_TYPE_SECT then
    sec ← py_getitem section_tab (n_sect sym);
    let sym :=
      match sec with
      | Some sec => set_section_names (Some (sec_segname sec)) (Some (sec_sectname sec)) sym
      | None => sym
      end in
    Ok (set_sym_addr (Some (n_value sym)) sym)
  else if is_import sym then
    match library_ordinal sym with
    | None => Raise TypeError
    | Some ordinal =>
        lib ← py_getitem (imported_libraries m) ordinal;
        Ok (set_library_name (Some lib) sym)
    end
  else Ok sym.

(** [if sym.addr is None: sym.addr = ext_symbol_end; ext_symbol_end += sym.size] *)
Definition assign_address (sym : MachOSymbol) (ext_symbol_end : Z) : MachOSymbol * Z :=
  match sym_addr sym with
  | None => (set_sym_addr (Some ext_symbol_end) sym, ext_symbol_end + sym_size sym)
  | Some _ => (sym, ext_symbol_end)
  end.

(** The whole body: the symbol as it is left and the new value of
    [ext_symbol_end]. *)
Definition resolve_symbol (m : MachO) (section_tab : list (option MachOSection))
    (sym : MachOSymbol) (ext_symbol_end : Z) : res (MachOSymbol * Z) :=
  let sym := mark_export m sym in
  if is_stab sym then Ok (sym, ext_symbol_end)
  else
    sym ← resolve_symbol_attrs m section_tab sym;
    Ok (assign_address sym ext_symbol_end).

Fixpoint resolve_symbols_loop (m : MachO) (section_tab : list (option MachOSection))
    (syms : list MachOSymbol) (ext_symbol_end : Z) : res (list MachOSymbol * Z) :=
  match syms with
  | [] => Ok ([], ext_symbol_end)
  | sym :: rest =>
      '(sym', ext_symbol_end) ← resolve_symbol m section_tab sym ext_symbol_end;
      '(rest', ext_symbol_end) ← resolve_symbols_loop m section_tab rest ext_symbol_end;
      Ok (sym' :: rest', ext_symbol_end)
  end.

(** [section_tab = [None]] extended by the sections of every segment. *)
Definition section_tab (m : MachO) : list (option MachOSection) :=
  None :: (Some <$> concat (seg_sections <$> segments m)).

(** The effect of a binding pass on the symbols. *)
Definition apply_bind (eff : nat -> MachOSymbol -> list Z * list Z) (m : MachO) : MachO :=
  set_symbols (imap (fun i sym => set_xrefs (eff i sym).1 (eff i sym).2 sym) (symbols m)) m.

(** The last loop: [symbols_by_addr[sym.addr] = sym] for the symbols that are
    not stabs and have an address. *)
Definition index_symbols (syms : list MachOSymbol) (by_addr : gmap Z MachOSymbol) :
    gmap Z MachOSymbol :=
  foldl (fun acc sym =>
           if negb (is_stab sym) then
             match sym_addr sym with
             | Some a => <[a := sym]> acc
             | None => acc
             end
           else acc) by_addr syms.

Definition _resolve_symbols (fuel : nat) (m : MachO) : res MachO :=
  m ← _parse_exports fuel (export_blob m) m;
  let tab := section_tab m in
  let start := ext_symbol_start m in
  '(syms, ext_symbol_end) ← resolve_symbols_loop m tab (symbols m) start;
  let m := set_symbols syms m in
  let m := set_memory (memory m ++ [(start, replicate (Z.to_nat (ext_symbol_end - start)) NUL)]) m in
  eff ← do_normal_bind m (binding_blob m);
  let m := apply_bind eff m in
  eff ← do_lazy_bind m (lazy_binding_blob m);
  let m := apply_bind eff m in
  Ok (set_symbols_by_addr (index_symbols (symbols m) (symbols_by_addr m)) m).

(** ** Module init and term pointers *)

Definition parse_mod_funcs_internal (m : MachO) (s : MachOSection) (target : list Z) :
    res (list Z) :=
  let size := if is_64bit m then 8 else 4 in
  let fmt' := if is_64bit m then fQ else fI in
  for_each (fun i target =>
      bs ← read_bytes (memory m) i size;
      vs ← _unpack_with_byteorder (struct_byteorder m) [fmt'] bs;
      Ok (target ++ [int_at vs 0]))
    (py_range (sec_vaddr s) (sec_vaddr s + sec_memsize s) size) target.

Definition _parse_mod_funcs (m : MachO) : res MachO :=
  for_each (fun sec m =>
      if sec_type sec =? 0x9 then
        t ← parse_mod_funcs_internal m sec (mod_init_func_pointers m);
        Ok (set_mod_init_func_pointers t m)
      else if sec_type sec =? 0xa then
        t ← parse_mod_funcs_internal m sec (mod_term_func_pointers m);
        Ok (set_mod_term_func_pointers t m)
      else Ok m)
    (concat (seg_sections <$> segments m)) m.

(** ** [MachO.__init__] *)

Definition MachO_init (fuel : nat) (host_is_little : bool) (binary : file) : res MachO :=
  m ← parse_file fuel host_is_little binary;
  m ← _resolve_entry m;
  m ← _resolve_symbols fuel m;
  _parse_mod_funcs m.

End Loader.

(** ** Reference behaviour and sample inputs *)

(** The bytes of a list up to its first terminator. *)
Fixpoint until_nul (l : list byte) : list byte :=
  match l with
  | [] => []
  | b :: rest => if decide (b = NUL) then [] else b :: until_nul rest
  end.

(** Modelled from the spec: [binding.read_uleb] is not among the sources; the
    unsigned LEB128 decode returning the value and the number of bytes
    consumed, the continuation bit being the high bit of each byte. *)
Fixpoint uleb128 (rest : list byte) : Z * Z :=
  match rest with
  | [] => (0, 0)
  | b :: rest' =>
      if Z.land (ord b) 0x80 =? 0 then (ord b, 1)
      else
        let '(v, n) := uleb128 rest' in
        (Z.lor (Z.land (ord b) 0x7f) (Z.shiftl v 7), n + 1)
  end.

(** A memory store that answers from the first backer holding the address. *)
Fixpoint first_backer (mem : list (Z * list byte)) (addr n : Z) : res (list byte) :=
  match mem with
  | [] => Raise ValueError
  | (start, bs) :: rest =>
      if (start <=? addr) && (addr <? start + Z.of_nat (length bs))
      then Ok (take (Z.to_nat n) (drop (Z.to_nat (addr - start)) bs))
      else first_backer rest addr n
  end.

(** One choice of collaborators, to run the loader on examples: LEB128 as
    above, undefined symbols with a value are common and the others imports
    whose ordinal is the high byte of [n_desc], symbols start with the size
    of a pointer, and binding leaves the cross references as they are. *)
Definition sample_externals : Externals :=
  {| binding_read_uleb blob i :=
       let '(v, n) := uleb128 (drop (Z.to_nat i) blob) in Ok (Z.to_N v, Z.to_N n);
     is_common sym := (sym_type sym =? 0) && negb (n_value sym =? 0);
     is_import sym := (sym_type sym =? 0) && (n_value sym =? 0);
     library_ordinal sym := Some (Z.land (Z.shiftr (n_desc sym) 8) 0xff);
     symbol_size m := arch_bits m `div` 8;
     read_bytes := first_backer;
     do_normal_bind _ _ := Ok (fun _ sym => (bind_xrefs sym, symbol_stubs sym));
     do_lazy_bind _ _ := Ok (fun _ sym => (bind_xrefs sym, symbol_stubs sym)) |}.

(** Little-endian encoders for building files. *)
Definition byte_of_Z (z : Z) : byte := default x00 (Byte.of_N (Z.to_N (z `mod` 256))).

Fixpoint le_bytes (n : nat) (z : Z) : list byte :=
  match n with
  | O => []
  | S n' => byte_of_Z z :: le_bytes n' (Z.shiftr z 8)
  end.

Definition u16 : Z -> list byte := le_bytes 2.
Definition u32 : Z -> list byte := le_bytes 4.
Definition u64 : Z -> list byte := le_bytes 8.

Definition bytes_of (s : string) : list byte := list_byte_of_string s.

(** A name in a 16-byte field. *)
Definition name16 (s : string) : list byte := take 16 (bytes_of s ++ replicate 16 NUL).

(** [mach_header_64] of an arm64 executable. *)
Definition sample_header_64 (ncmds' sizeofcmds' flags' : Z) : list byte :=
  u32 0xfeedfacf ++ u32 0x100000c ++ u32 0 ++ u32 2 ++ u32 ncmds' ++ u32 sizeofcmds'
    ++ u32 flags' ++ u32 0.

(** [mach_header] of a 32-bit arm executable. *)
Definition sample_header_32 (ncmds' sizeofcmds' flags' : Z) : list byte :=
  u32 0xfeedface ++ u32 0xc ++ u32 0 ++ u32 2 ++ u32 ncmds' ++ u32 sizeofcmds' ++ u32 flags'.

(** [segment_command_64] without sections. *)
Definition sample_segment_64 (name : string) (vmaddr vmsize fileoff filesize : Z) : list byte :=
  u32 0x19 ++ u32 72 ++ name16 name ++ u64 vmaddr ++ u64 vmsize ++ u64 fileoff
    ++ u64 filesize ++ u32 7 ++ u32 5 ++ u32 0 ++ u32 0.

(** [entry_point_command] (LC_MAIN). *)
Definition sample_lc_main (entryoff' : Z) : list byte :=
  u32 0x80000028 ++ u32 24 ++ u64 entryoff' ++ u64 0.

(** [thread_command] (LC_UNIXTHREAD) with the 64-bit ARM thread state and
    the given program counter. *)
Definition sample_lc_unixthread (pc : Z) : list byte :=
  u32 0x5 ++ u32 280 ++ u32 6 ++ u32 66 ++ concat (replicate 32 (u64 0)) ++ u64 pc.

(** [linkedit_data_command] (LC_DATA_IN_CODE). *)
Definition sample_lc_data_in_code (dataoff datasize : Z) : list byte :=
  u32 0x29 ++ u32 16 ++ u32 dataoff ++ u32 datasize.

(** An executable with a [__TEXT] segment at 0x100000000 and an LC_MAIN
    whose [entryoff] is 0. *)
Definition sample_main_at_zero : file :=
  sample_header_64 2 96 0x200085
    ++ sample_segment_64 "__TEXT" 0x100000000 0x80 0 0x80
    ++ sample_lc_main 0.

(** An executable with one LC_DATA_IN_CODE command announcing two records
    of 8 bytes at file offset 48. *)
Definition sample_data_in_code : file :=
  sample_header_64 1 16 0x200085
    ++ sample_lc_data_in_code 48 16
    ++ (u32 0x10 ++ u16 4 ++ u16 1) ++ (u32 0x20 ++ u16 8 ++ u16 2).

(** A 32-bit ARM executable whose flags lack MH_TWOLEVEL. *)
Definition sample_not_twolevel : file := sample_header_32 0 0 0x200005.

(** An executable whose load commands are an LC_MAIN followed by an
    LC_UNIXTHREAD. *)
Definition sample_main_then_thread : file :=
  sample_header_64 2 304 0x200085 ++ sample_lc_main 0x1000 ++ sample_lc_unixthread 0x2000.

(** An executable whose only load command is an LC_UNIXTHREAD. *)
Definition sample_thread_only : file :=
  sample_header_64 1 280 0x200085 ++ sample_lc_unixthread 0x2000.

(** The object after the header of the 64-bit samples has been parsed. *)
Definition sample_after_header (ncmds' sizeofcmds' : Z) : MachO :=
  set_arch_bits 64
    (set_mach_header 0x100000c 0 2 true ncmds' sizeofcmds' 0x200085
       (set_struct_byteorder Little MachO_new)).

(** [mach_header_64] of an x86-64 executable. *)
Definition sample_header_x64 (ncmds' sizeofcmds' flags' : Z) : list byte :=
  u32 0xfeedfacf ++ u32 0x1000007 ++ u32 3 ++ u32 2 ++ u32 ncmds' ++ u32 sizeofcmds'
    ++ u32 flags' ++ u32 0.

(** LC_UNIXTHREAD with the x86-64 thread state: flavor 4, 42 words, [rip]
    the 17th of 21 registers. *)
Definition sample_lc_unixthread_x86_64 (rip : Z) : list byte :=
  u32 0x5 ++ u32 184 ++ u32 4 ++ u32 42 ++ concat (replicate 16 (u64 0)) ++ u64 rip
    ++ concat (replicate 4 (u64 0)).

(** An x86-64 executable whose only load command is that LC_UNIXTHREAD. *)
Definition sample_x86_thread_only : file :=
  sample_header_x64 1 184 0x200085 ++ sample_lc_unixthread_x86_64 0x2000.

(** The same followed by an LC_MAIN. *)
Definition sample_x86_thread_then_main : file :=
  sample_header_x64 2 208 0x200085 ++ sample_lc_unixthread_x86_64 0x2000
    ++ sample_lc_main 0x1000.

(** An executable whose [__DATA] segment announces 200 bytes at file offset
    0, in memory and in the file, while the file has 104 bytes. *)
Definition sample_truncated_segment : file :=
  sample_header_64 1 72 0x200085 ++ sample_segment_64 "__DATA" 0x1000 200 0 200.

(** An executable whose [__DATA] segment has 8 bytes in the file and 4 in
    memory. *)
Definition sample_filesize_above_vmsize : file :=
  sample_header_64 1 72 0x200085 ++ sample_segment_64 "__DATA" 0x1000 4 0 8.

(** An executable with a [__PAGEZERO] and a [__TEXT] segment. *)
Definition sample_two_segments : file :=
  sample_header_64 2 144 0x200085
    ++ sample_segment_64 "__PAGEZERO" 0 0x100000000 0 0
    ++ sample_segment_64 "__TEXT" 0x100000000 0x100 0 0xb0.

(** An exports trie whose root has the single child [_main], a regular
    export at offset 0x1000: the root at 0 (no export, one edge to the node
    at 9) and the node at 9 (three bytes of export data, no child). *)
Definition sample_trie : list byte :=
  [x00; x01] ++ bytes_of "_main" ++ [x00; x09] ++ [x03; x00; x80; x20; x00].

Definition sample_pagezero : MachOSegment :=
  Build_MachOSegment 0 0 0 0x100000000 "__PAGEZERO" 0 [] 0 0 0.

Definition sample_text : MachOSegment :=
  Build_MachOSegment 0 0x100000000 0x100 0x100 "__TEXT" 0 [] 0 5 7.

Definition sample_symbol (name : string) (n_type' n_sect' n_desc' n_value' : Z) : MachOSymbol :=
  {| sym_name := name; sym_addr := None; sym_size := 8; symtab_offset := 0;
     n_type := n_type'; n_sect := n_sect'; n_desc := n_desc'; n_value := n_value';
     library_name := None; segment_name := None; section_name := None;
     _is_export := None; is_export := None; bind_xrefs := []; symbol_stubs := [] |}.

(** A parsed 64-bit image with the import [_foo] of library 1, the symbol
    [_bar] of section 1, a stab and the import [_baz]. *)
Definition sample_with_symbols : MachO :=
  set_symbols
    [ sample_symbol "_foo" 0x01 0 0x0100 0;
      sample_symbol "_bar" 0x0f 1 0 0x100001234;
      sample_symbol "debug" 0x64 0 0 0;
      sample_symbol "_baz" 0x01 0 0x0100 0 ]
    (set_imported_libraries ["Self"%string; "libSystem"%string]
       (set_segments
          [ sample_pagezero;
            Build_MachOSegment 0 0x100000000 0x100 0x100 "__TEXT" 1
              [Build_MachOSection 0 0x100001000 0x100 0x100 "__TEXT" "__text" 0 0 0 0 0 0]
              0 5 7 ]
          (sample_after_header 0 0))).

(** A string table with the names [_foo] and [_bar], the second one without
    a terminator. *)
Definition sample_strtab : list byte := [x00] ++ bytes_of "_foo" ++ [x00] ++ bytes_of "_bar".

(** [section_64] *)
Definition sample_section_64 (sectname segname : string) (addr size offset flags' : Z) :
    list byte :=
  name16 sectname ++ name16 segname ++ u64 addr ++ u64 size ++ u32 offset ++ u32 0
    ++ u32 0 ++ u32 0 ++ u32 flags' ++ u32 0 ++ u32 0 ++ u32 0.

(** [segment_command_64] followed by one section. *)
Definition sample_segment_64_with (name : string) (vmaddr vmsize fileoff filesize : Z)
    (section : list byte) : list byte :=
  u32 0x19 ++ u32 152 ++ name16 name ++ u64 vmaddr ++ u64 vmsize ++ u64 fileoff
    ++ u64 filesize ++ u32 7 ++ u32 5 ++ u32 1 ++ u32 0 ++ section.

(** [dylib_command] (LC_LOAD_DYLIB) naming [libSystem]. *)
Definition sample_lc_load_dylib : list byte :=
  u32 0xc ++ u32 40 ++ u32 24 ++ u32 0 ++ u32 0 ++ u32 0 ++ name16 "libSystem".

(** [symtab_command] (LC_SYMTAB). *)
Definition sample_lc_symtab (symoff nsyms stroff strsize : Z) : list byte :=
  u32 0x2 ++ u32 24 ++ u32 symoff ++ u32 nsyms ++ u32 stroff ++ u32 strsize.

(** [nlist_64] *)
Definition sample_nlist_64 (n_strx n_type' n_sect' n_desc' n_value' : Z) : list byte :=
  u32 n_strx ++ [byte_of_Z n_type'; byte_of_Z n_sect'] ++ u16 n_desc' ++ u64 n_value'.

(** Scenario 1 of the specification: [__PAGEZERO], [__TEXT] at 0x100000000
    with one section, LC_MAIN with [entryoff = 0x1000], no symbols. *)
Definition scenario_1 : file :=
  sample_header_64 3 248 0x200080
    ++ sample_segment_64 "__PAGEZERO" 0 0x100000000 0 0
    ++ sample_segment_64_with "__TEXT" 0x100000000 0x200 0 280
         (sample_section_64 "__text" "__TEXT" 0x100001000 0x10 0x100 0x80000400)
    ++ sample_lc_main 0x1000.

(** Scenario 5 of the specification: the undefined symbol [_foo] of library
    ordinal 1, the symbol [_bar] of section 1 at 0x100001234, and an
    LC_LOAD_DYLIB naming [libSystem]. *)
Definition scenario_5 : file :=
  sample_header_64 4 288 0x200080
    ++ sample_segment_64 "__PAGEZERO" 0 0x100000000 0 0
    ++ sample_segment_64_with "__TEXT" 0x100000000 0x200 0 363
         (sample_section_64 "__text" "__TEXT" 0x100001000 0x10 0x100 0x80000400)
    ++ sample_lc_load_dylib
    ++ sample_lc_symtab 320 2 352 11
    ++ sample_nlist_64 1 0x01 0 0x0100 0
    ++ sample_nlist_64 6 0x0f 1 0 0x100001234
    ++ [x00] ++ bytes_of "_foo" ++ [x00] ++ bytes_of "_bar" ++ [x00].

(** Scenario 6 of the specification: an exports trie with the single entry
    [_bar], a re-export of [_baz] from library 2. *)
Definition scenario_6_trie : list byte :=
  [x00; x01] ++ bytes_of "_bar" ++ [x00; x08]
    ++ [x07; x08; x02] ++ bytes_of "_baz" ++ [x00; x00].

(** ** Notions used to state the properties *)

(** The attributes that steer the load-command loop and the choice of the
    entry point. *)
Record same_control (m m' : MachO) : Prop := {
  same_byteorder : struct_byteorder m' = struct_byteorder m;
  same_bits : arch_bits m' = arch_bits m;
  same_ncmds : ncmds m' = ncmds m;
  same_sizeofcmds : sizeofcmds m' = sizeofcmds m
}.

Definition same_entry (m m' : MachO) : Prop :=
  entryoff m' = entryoff m /\ unixthread_pc m' = unixthread_pc m.

(** [entryoff] or [unixthread_pc] is no longer [None]. *)
Definition entry_seen (m : MachO) : bool :=
  is_not_None (entryoff m) || is_not_None (unixthread_pc m).

Definition LC_MAIN : Z := 0x80000028.
Definition LC_UNIXTHREAD : Z := 0x5.

(** One turn of the load-command loop: the condition holds and the body
    returns. *)
Definition lc_turn `{Externals} (fuel : nat) (f : file) (lc_offset : Z) (st st' : lc_state) : Prop :=
  lc_continue lc_offset st = true /\ lc_body fuel f st = Ok st'.

(** The command word the loop body reads in a state. *)
Definition lc_cmd (f : file) (st : lc_state) : res Z :=
  vs ← _unpack (struct_byteorder st.2) [fI; fI] f st.1.2 8;
  Ok (int_at vs 0).

Definition is_entry_cmd (cmd : Z) : Prop := cmd = LC_MAIN \/ cmd = LC_UNIXTHREAD.

(** Turns the loop can still take: [ncmds - count]. *)
Definition lc_remaining (st : lc_state) : nat := Z.to_nat (ncmds st.2 - st.1.1).

(** A symbol the resolution loop finds without an address: not a stab, not
    of type SECT, and with [addr] still [None]. *)
Definition needs_synthetic (sym : MachOSymbol) : bool :=
  negb (is_stab sym) && negb (sym_type sym =? SYMBOL_TYPE_SECT)
    && negb (is_not_None (sym_addr sym)).

(** The bytes handed out to the symbols of [syms] that needed an address,
    [syms'] being the same symbols after resolution. *)
Fixpoint synthetic_span (syms syms' : list MachOSymbol) : Z :=
  match syms, syms' with
  | s :: rest, s' :: rest' =>
      (if needs_synthetic s then sym_size s' else 0) + synthetic_span rest rest'
  | _, _ => 0
  end.

(** Sizes as the loader gets them: the size a symbol starts with and the
    unsigned [n_value] are not negative. *)
Definition sizes_nonneg (syms : list MachOSymbol) : Prop :=
  Forall (fun s => 0 <= sym_size s /\ 0 <= n_value s) syms.

(** ** Queries on the parsed image *)

(** [MachO.is_thumb_interworking]: the truth value of
    [(not s.is_64bit) and address & 1]. *)
Definition is_thumb_interworking (m : MachO) (address : Z) : bool :=
  negb (is_64bit m) && negb (Z.land address 1 =? 0).

(** [MachO.decode_thumb_interworking] *)
Definition decode_thumb_interworking (m : MachO) (address : Z) : Z :=
  if is_thumb_interworking m address then Z.land address 0xFFFFFFFE else address.

(** [MachO.get_symbol_by_address_fuzzy]: the first symbol that has the
    address, or has it among its [bind_xrefs] or [symbol_stubs]; falling off
    the loop returns [None]. *)
Definition get_symbol_by_address_fuzzy (m : MachO) (address : Z) : option MachOSymbol :=
  (fix loop (syms : list MachOSymbol) : option MachOSymbol :=
     match syms with
     | [] => None
     | sym :: rest =>
         if bool_decide (Some address = sym_addr sym)
            || bool_decide (address ∈ bind_xrefs sym)
            || bool_decide (address ∈ symbol_stubs sym)
         then Some sym
         else loop rest
     end) (symbols m).

(** [a in b] on Python strings: [a] occurs in [b]. *)
Fixpoint py_in_str (a b : string) : bool :=
  String.prefix a b
  || match b with
     | EmptyString => false
     | String _ b' => py_in_str a b'
     end.

(** [MachO.get_symbol] *)
Definition get_symbol (m : MachO) (name : string) (include_stab fuzzy : bool) :
    list MachOSymbol :=
  foldl (fun result sym =>
           if is_stab sym && negb include_stab then result
           else if fuzzy then
             if py_in_str name (sym_name sym) then result ++ [sym] else result
           else
             if decide (name = sym_name sym) then result ++ [sym] else result)
    [] (symbols m).

(** ** Notions used to state the further properties *)

(** The test of [get_symbol_by_address_fuzzy] on one symbol. *)
Definition at_address (address : Z) (sym : MachOSymbol) : Prop :=
  sym_addr sym = Some address \/ address ∈ bind_xrefs sym \/ address ∈ symbol_stubs sym.

(** The symbols [get_symbol] selects. *)
Definition symbol_selected (name : string) (include_stab fuzzy : bool) (sym : MachOSymbol) :
    Prop :=
  (is_stab sym = true -> include_stab = true) /\
  if fuzzy then exists before after, sym_name sym = (before ++ name ++ after)%string
  else name = sym_name sym.

(** The same selection as a test. *)
Definition symbol_test (name : string) (include_stab fuzzy : bool) (sym : MachOSymbol) : bool :=
  negb (is_stab sym && negb include_stab)
  && if fuzzy then py_in_str name (sym_name sym) else bool_decide (name = sym_name sym).

(** A segment whose [nsect] is the number of its sections. *)
Definition sections_counted (seg : MachOSegment) : Prop :=
  Z.of_nat (length (seg_sections seg)) = seg_nsect seg.

(** What processing one load command may do to the object [m]: nothing, or
    one of the updates below, each on the attributes of one kind of
    command. *)
Inductive lc_effect (m : MachO) : MachO -> Prop :=
  | effect_none : lc_effect m m
  | effect_pagezero seg :
      seg_segname seg = "__PAGEZERO"%string -> sections_counted seg ->
      lc_effect m (set_segments (segments m ++ [seg]) m)
  | effect_segment seg blob :
      seg_segname seg <> "__PAGEZERO"%string -> sections_counted seg ->
      lc_effect m
        (set_segments (segments m ++ [seg])
           (set_memory (memory m ++ [(seg_vaddr seg, blob)]) m))
  | effect_symtab tab syms :
      Forall (fun s => sym_addr s = None) syms ->
      lc_effect m (set_symbols syms (set_strtab tab m))
  | effect_dyld_info rebase binding weak lazy export :
      lc_effect m
        (set_dyld_blobs (Some rebase) (Some binding) (Some weak) (Some lazy) (Some export) m)
  | effect_dylib name :
      lc_effect m (set_imported_libraries (imported_libraries m ++ [name]) m)
  | effect_main e :
      entryoff m = None -> unixthread_pc m = None ->
      lc_effect m (set_entryoff (Some e) m)
  | effect_unixthread pc :
      entryoff m = None -> unixthread_pc m = None ->
      lc_effect m (set_unixthread_pc (Some pc) m)
  | effect_function_starts starts :
      lc_effect m (set_lc_function_starts starts m)
  | effect_data_in_code records :
      lc_effect m (set_lc_data_in_code (lc_data_in_code m ++ records) m).

(** The object when the mach header has been read in byte order [bo] as the
    seven words [vs], before the first load command. *)
Definition header_object (bo : byteorder) (vs : list val) : MachO :=
  set_arch_bits (arch_from_id_bits (int_at vs 1))
    (set_mach_header (int_at vs 1) (int_at vs 2) (int_at vs 3)
       (negb (Z.land (int_at vs 6) 0x200000 =? 0))
       (int_at vs 4) (int_at vs 5) (int_at vs 6)
       (set_struct_byteorder bo MachO_new)).

(** Where the load commands start: after 7 or 8 header words. *)
Definition lc_offset_of (m : MachO) : Z := (if arch_bits m =? 32 then 7 else 8) * 4.

(** The attributes [_parse_mach_header] and the architecture detection set. *)
Definition header_of (m : MachO) : byteorder * Z * Z * Z * Z * bool * Z * Z * Z :=
  (struct_byteorder m, arch_bits m, cputype m, cpusubtype m, filetype m, pie m,
   ncmds m, sizeofcmds m, flags m).

(** The backers stand for the segments that are not [__PAGEZERO], in order. *)
Definition backers_of_segments (m : MachO) : Prop :=
  (memory m).*1
  = seg_vaddr <$> filter (fun seg => seg_segname seg <> "__PAGEZERO"%string) (segments m).

(** The attributes the load commands fill, with the header. *)
Definition parsed_part (m : MachO) :=
  (header_of m, segments m, imported_libraries m, entryoff m, unixthread_pc m, strtab m,
   (rebase_blob m, binding_blob m, weak_binding_blob m, lazy_binding_blob m, export_blob m),
   lc_function_starts m, lc_data_in_code m).

(** A symbol the last loop of [_resolve_symbols] files under [a]. *)
Definition indexed_at (a : Z) (sym : MachOSymbol) : Prop :=
  is_stab sym = false /\ sym_addr sym = Some a.

#[global] Instance indexed_at_dec (a : Z) (sym : MachOSymbol) : Decision (indexed_at a sym) :=
  and_dec _ _.

(** The layout of one [nlist] entry and its size:
    [packstr, structsize] of [_load_symtab]. *)
Definition nlist_packstr (m : MachO) : list fmt * Z :=
  if arch_bits m =? 64 then ([fI; fB; fB; fH; fQ], 16) else ([fI; fB; fB; fh; fI], 12).

(** The symbol at [offset] is the [nlist] entry there, named from the
    string table of [m]. *)
Definition symbol_of_nlist (f : file) (m : MachO) (offset : Z) (sym : MachOSymbol) : Prop :=
  symtab_offset sym = offset /\
  exists e,
    _unpack (struct_byteorder m) (nlist_packstr m).1 f offset (nlist_packstr m).2 = Ok e /\
    n_type sym = int_at e 1 /\ n_sect sym = int_at e 2 /\ n_desc sym = int_at e 3 /\
    n_value sym = int_at e 4 /\ sym_addr sym = None /\
    if int_at e 0 =? 0 then sym_name sym = text []
    else exists name, get_string m (int_at e 0) = Ok name /\ sym_name sym = text name.

(** The steps of [range(s.vaddr, s.vaddr + s.memsize, size)]. *)
Definition pointer_count (m : MachO) (sec : MachOSection) : nat :=
  length (py_range (sec_vaddr sec) (sec_vaddr sec + sec_memsize sec)
            (if is_64bit m then 8 else 4)).

(** The pointers the sections of type [type] among [secs] hold. *)
Definition pointers_in (m : MachO) (type : Z) (secs : list MachOSection) : nat :=
  sum_list (pointer_count m <$> filter (fun sec => sec_type sec = type) secs).

(** ** Further sample inputs *)

(** An image with the two sample segments and one export recorded. *)
Definition sample_exported : MachO :=
  set_exports_by_name {["_old"%string := ExportRegular 0 0x100000010]}
    (set_segments [sample_pagezero; sample_text] (sample_after_header 0 0)).

(** A 64-bit image whose [__DATA] segment has a section of type 0x9 with two
    pointers, backed at 0x2000. *)
Definition sample_mod_init : MachO :=
  set_memory [(0x2000, u64 0x100001000 ++ u64 0x100001040)]
    (set_segments
       [Build_MachOSegment 0 0x2000 16 16 "__DATA" 1
          [Build_MachOSection 0 0x2000 16 16 "__DATA" "__mod_init_func" 3 0 0 0x9 0 0]
          0 3 3]
       (sample_after_header 0 0)).

(** * Properties *)

Lemma bind_Ok {A B} (k : A -> res B) (r : res A) (b : B) :
  r ≫= k = Ok b -> exists a, r = Ok a /\ k a = Ok b.
Proof. destruct r; simpl; intros H; try discriminate. eauto. Qed.

(** ** Segment lookup by name *)

Lemma find_segment_by_name_first (m : MachO) (name : string) :
  match find_segment_by_name m name with
  | Some s =>
      exists before after, segments m = before ++ s :: after /\ seg_segname s = name /\
        Forall (fun s' => seg_segname s' <> name) before
  | None => Forall (fun s' => seg_segname s' <> name) (segments m)
  end.
Proof.
  unfold find_segment_by_name. induction (segments m) as [|s segs IH].
  - constructor.
  - destruct (decide (seg_segname s = name)) as [Heq|Hne].
    + exists [], segs. repeat split; [exact Heq | constructor].
    + match type of IH with
      | match ?found with _ => _ end => destruct found as [s'|]
      end.
      * destruct IH as (before & after & -> & Hname & Hbefore).
        exists (s :: before), after. repeat split; [exact Hname | by constructor].
      * by constructor.
Qed.

(** C9: indexing the image by a name gives what [find_segment_by_name]
    gives for that name, which is the first segment in file order with that
    [segname], or [None] when no segment has it. *)
Theorem getitem_is_find_segment_by_name (m : MachO) (name : string) :
  __getitem__ m name = find_segment_by_name m name /\
  match __getitem__ m name with
  | Some s =>
      exists before after, segments m = before ++ s :: after /\ seg_segname s = name /\
        Forall (fun s' => seg_segname s' <> name) before
  | None => Forall (fun s' => seg_segname s' <> name) (segments m)
  end.
Proof.
  assert (Heq : __getitem__ m name = find_segment_by_name m name).
  { unfold __getitem__, get_segment_by_name, find_segment_by_name.
    induction (segments m) as [|s segs IH]; [done|].
    destruct (decide (seg_segname s = name)); [done | exact IH]. }
  split; [exact Heq|]. rewrite Heq. apply find_segment_by_name_first.
Qed.

(** ** The string table *)

Lemma until_nul_split (l : list byte) :
  (NUL ∉ until_nul l) /\
  (l = until_nul l \/ exists rest, l = until_nul l ++ NUL :: rest).
Proof.
  induction l as [|b l [IHn IH]]; simpl.
  - split; [apply not_elem_of_nil | by left].
  - destruct (decide (b = NUL)) as [->|Hb].
    + split; [apply not_elem_of_nil | right; by exists l].
    + split.
      * rewrite elem_of_cons. intros [Heq|Hin]; [by apply Hb | by apply IHn].
      * destruct IH as [IH|[rest IH]]; [left | right; exists rest]; simpl; by f_equal.
Qed.

Lemma py_slice_to (tab : list byte) (start e : Z) :
  0 <= start <= e -> e <= Z.of_nat (length tab) ->
  py_slice tab start (Some e) = take (Z.to_nat (e - start)) (drop (Z.to_nat start) tab).
Proof.
  intros Hs He. unfold py_slice, clamp_index.
  destruct (Z.ltb_spec start 0); [lia|]. destruct (Z.ltb_spec e 0); [lia|].
  by rewrite !Z.min_l by lia.
Qed.

Lemma py_slice_from (tab : list byte) (start : Z) :
  0 <= start <= Z.of_nat (length tab) ->
  py_slice tab start None = drop (Z.to_nat start) tab.
Proof.
  intros Hs. unfold py_slice, clamp_index.
  destruct (Z.ltb_spec start 0); [lia|]. rewrite Z.min_l by lia.
  apply take_ge. rewrite length_drop. lia.
Qed.

Lemma py_getitem_lookup {A} (l : list A) (i : Z) :
  0 <= i < Z.of_nat (length l) ->
  exists x, l !! Z.to_nat i = Some x /\ py_getitem l i = Ok x.
Proof.
  intros Hi. destruct (lookup_lt_is_Some_2 l (Z.to_nat i)) as [x Hx]; [lia|].
  exists x. split; [exact Hx|]. unfold py_getitem.
  destruct (Z.ltb_spec i 0); [lia|].
  destruct (Z.leb_spec 0 i); [|lia].
  destruct (Z.ltb_spec i (Z.of_nat (length l))); [|lia].
  simpl. by rewrite Hx.
Qed.

Lemma get_string_loop_spec (fuel : nat) (tab : list byte) (start e : Z) :
  0 <= start <= e -> e <= Z.of_nat (length tab) ->
  (length tab - Z.to_nat e <= fuel)%nat ->
  get_string_loop fuel tab start e
  = Ok (take (Z.to_nat (e - start)) (drop (Z.to_nat start) tab)
          ++ until_nul (drop (Z.to_nat e) tab)).
Proof.
  revert e. induction fuel as [|fuel IH]; intros e Hs He Hfuel.
  - simpl. destruct (Z.ltb_spec e (Z.of_nat (length tab))); [lia|].
    rewrite py_slice_from by lia.
    rewrite (drop_ge tab (Z.to_nat e)) by lia. simpl. rewrite app_nil_r.
    f_equal. symmetry. apply take_ge. rewrite length_drop. lia.
  - simpl. destruct (Z.ltb_spec e (Z.of_nat (length tab))) as [Hlt|Hge].
    + destruct (py_getitem_lookup tab e) as (c & Hc & ->); [lia|]. simpl.
      rewrite (drop_S _ _ _ Hc). simpl.
      destruct (decide (c = NUL)) as [->|Hne].
      * rewrite py_slice_to by lia. by rewrite app_nil_r.
      * rewrite IH by lia.
        replace (Z.to_nat (e + 1)) with (S (Z.to_nat e)) by lia.
        replace (Z.to_nat (e + 1 - start)) with (S (Z.to_nat (e - start))) by lia.
        assert (Hc' : drop (Z.to_nat start) tab !! Z.to_nat (e - start) = Some c).
        { rewrite lookup_drop. rewrite <- Hc. f_equal. lia. }
        rewrite (take_S_r _ _ _ Hc'). by rewrite <- app_assoc.
    + rewrite py_slice_from by lia.
      rewrite (drop_ge tab (Z.to_nat e)) by lia. simpl. rewrite app_nil_r.
      f_equal. symmetry. apply take_ge. rewrite length_drop. lia.
Qed.

Lemma get_string_until_nul (m : MachO) (start : Z) :
  0 <= start <= Z.of_nat (length (strtab m)) ->
  get_string m start = Ok (until_nul (drop (Z.to_nat start) (strtab m))).
Proof.
  intros Hs. unfold get_string.
  destruct (Z.gtb_spec start (Z.of_nat (length (strtab m)))); [lia|].
  rewrite get_string_loop_spec by lia.
  by replace (Z.to_nat (start - start)) with 0%nat by lia.
Qed.

(** C10: for an offset [start] into the string table, [get_string] raises
    when [start] is strictly greater than the length of the table;
    otherwise it returns the bytes from [start] up to, and without, the
    first NUL byte, and all the remaining bytes when no NUL byte follows. *)
Theorem get_string_spec (m : MachO) (start : Z) :
  0 <= start ->
  (Z.of_nat (length (strtab m)) < start -> get_string m start = Raise ValueError) /\
  (start <= Z.of_nat (length (strtab m)) ->
   exists s, get_string m start = Ok s /\ (NUL ∉ s) /\
     (drop (Z.to_nat start) (strtab m) = s \/
      exists rest, drop (Z.to_nat start) (strtab m) = s ++ NUL :: rest)).
Proof.
  intros H0. split.
  - intros Hgt. unfold get_string.
    by destruct (Z.gtb_spec start (Z.of_nat (length (strtab m)))); [|lia].
  - intros Hle. exists (until_nul (drop (Z.to_nat start) (strtab m))).
    split; [apply get_string_until_nul; lia|].
    apply until_nul_split.
Qed.

(** ** Entry point *)

(** C4 (the code departs from the claim): in [sample_main_at_zero] LC_MAIN
    records [entryoff = 0] and [__TEXT] is mapped at 0x100000000, yet the
    test [if self.entryoff] takes the recorded 0 for an absent value and the
    entry point is left at 0, not at 0x100000000 + 0. *)
Theorem resolve_entry_entryoff_zero :
  exists m, MachO_init (H := sample_externals) 16 true sample_main_at_zero = Ok m /\
    entryoff m = Some 0 /\
    seg_vaddr <$> find_segment_by_name m "__TEXT" = Some 0x100000000 /\
    _entry m = Some 0.
Proof. eexists. split; [vm_compute; reflexivity|]. repeat split. Qed.

(** ** Data in code *)

(** C6 (the code departs from the claim): [sample_data_in_code] announces
    [datasize = 16] bytes of records at [dataoff = 48], that is two records;
    the loop runs over [range(dataoff, datasize, 8)], which is empty here,
    and nothing is appended. *)
Theorem data_in_code_range_is_empty :
  _unpack Little [fI; fH; fH] sample_data_in_code 48 8 = Ok [VInt 0x10; VInt 4; VInt 1] /\
  _unpack Little [fI; fH; fH] sample_data_in_code 56 8 = Ok [VInt 0x20; VInt 8; VInt 2] /\
  py_range 48 16 8 = [] /\
  exists m, MachO_init (H := sample_externals) 16 true sample_data_in_code = Ok m /\
    lc_data_in_code m = [].
Proof.
  repeat split; try reflexivity. eexists. split; [vm_compute; reflexivity | reflexivity].
Qed.

(** ** Mach header *)

(** C7 fails as stated: [sample_not_twolevel] has a recognised magic and
    flags without bit 0x80, and the parse ends with the invalid-binary
    error, not with the compatibility error. *)
Lemma non_twolevel_not_compatibility :
  Z.land 0x200005 0x80 = 0 /\
  MachO_init (H := sample_externals) 16 true sample_not_twolevel = Raise CLEInvalidBinaryError /\
  MachO_init (H := sample_externals) 16 true sample_not_twolevel <> Raise CLECompatibilityError.
Proof. split; [reflexivity|]. split; [vm_compute; reflexivity | vm_compute; discriminate]. Qed.

Section Properties.
Context `{Externals}.

(** C7, amended: when the magic is recognised and the seven words of the
    header can be read, flags without bit 0x80 make the parse end with the
    invalid-binary error. *)
Theorem non_twolevel_is_invalid_binary (fuel : nat) (host_is_little : bool) (f : file)
    (magic vs : list val) (bo : byteorder) :
  struct_unpack (if host_is_little then Little else Big) [fI] (take 4 f) = Ok magic ->
  _detect_byteorder host_is_little (int_at magic 0) = Ok bo ->
  _unpack bo (replicate 7 fI) f 0 28 = Ok vs ->
  Z.land (int_at vs 6) 0x80 = 0 ->
  MachO_init fuel host_is_little f = Raise CLEInvalidBinaryError.
Proof.
  intros Hmagic Hbo Hvs Hflags.
  unfold MachO_init, parse_file. rewrite Hmagic. cbn [mbind res_bind]. rewrite Hbo.
  cbn [mbind res_bind]. unfold _parse_mach_header.
  change (struct_byteorder (set_struct_byteorder bo MachO_new)) with bo.
  rewrite Hvs. cbn [mbind res_bind flags set_mach_header]. by rewrite Hflags.
Qed.

End Properties.

Lemma non_twolevel_is_invalid_binary_witness :
  MachO_init (H := sample_externals) 16 true sample_not_twolevel = Raise CLEInvalidBinaryError.
Proof.
  apply (non_twolevel_is_invalid_binary (H := sample_externals) 16 true sample_not_twolevel
           [VInt 0xfeedface]
           [VInt 0xfeedface; VInt 0xc; VInt 0; VInt 2; VInt 0; VInt 0; VInt 0x200005]
           Little); reflexivity.
Defined.

(** ** What the handlers leave untouched *)

(** Inversion of a computation that returned. *)
Ltac res_inv :=
  repeat match goal with
  | H : Ok _ = Ok _ |- _ => injection H as H; try subst
  | H : Raise _ = Ok _ |- _ => discriminate H
  | H : Diverge = Ok _ |- _ => discriminate H
  | H : mbind _ _ = Ok _ |- _ => apply bind_Ok in H as (? & ? & H)
  | H : (if ?c then _ else _) = Ok _ |- _ => destruct c eqn:?
  | H : match ?x with _ => _ end = Ok _ |- _ => destruct x eqn:?
  end.

Lemma for_each_preserves {A S} (P : S -> Prop) (body : A -> S -> res S) (l : list A) (s s' : S) :
  (forall x s1 s2, P s1 -> body x s1 = Ok s2 -> P s2) ->
  P s -> for_each body l s = Ok s' -> P s'.
Proof.
  intros Hbody. revert s. induction l as [|x l IH]; simpl; intros s Hs Hrun.
  - by injection Hrun as <-.
  - apply bind_Ok in Hrun as (s1 & Hx & Hrun). eauto.
Qed.

Section Frames.
Context `{Externals}.

Lemma same_control_refl (m : MachO) : same_control m m.
Proof. by split. Qed.

Lemma load_segment_frame f off m m' :
  _load_segment f off m = Ok m' -> same_control m m' /\ same_entry m m'.
Proof. unfold _load_segment. intros Hrun. res_inv; by repeat split. Qed.

Lemma load_symtab_frame f off m m' :
  _load_symtab f off m = Ok m' -> same_control m m' /\ same_entry m m'.
Proof.
  unfold _load_symtab. intros Hrun. res_inv.
  all: revert Hrun;
    apply (for_each_preserves (fun s => same_control m s /\ same_entry m s));
    [ intros i s1 s2 [[] []] Hbody; res_inv; by repeat split | by repeat split ].
Qed.

Lemma load_dyld_info_frame f off m m' :
  _load_dyld_info f off m = Ok m' -> same_control m m' /\ same_entry m m'.
Proof. unfold _load_dyld_info. intros Hrun. res_inv; by repeat split. Qed.

Lemma load_dylib_info_frame f off m m' :
  _load_dylib_info f off m = Ok m' -> same_control m m' /\ same_entry m m'.
Proof. unfold _load_dylib_info. intros Hrun. res_inv; by repeat split. Qed.

Lemma load_lc_function_starts_frame fuel f off m m' :
  _load_lc_function_starts fuel f off m = Ok m' -> same_control m m' /\ same_entry m m'.
Proof. unfold _load_lc_function_starts. intros Hrun. res_inv; by repeat split. Qed.

Lemma load_lc_data_in_code_frame f off m m' :
  _load_lc_data_in_code f off m = Ok m' -> same_control m m' /\ same_entry m m'.
Proof.
  unfold _load_lc_data_in_code. intros Hrun. res_inv.
  revert Hrun.
  apply (for_each_preserves (fun s => same_control m s /\ same_entry m s));
    [ intros i s1 s2 [[] []] Hbody; res_inv; by repeat split | by repeat split ].
Qed.

Lemma assert_unencrypted_frame f off m m' :
  _assert_unencrypted f off m = Ok m' -> m' = m.
Proof. unfold _assert_unencrypted. intros Hrun. by res_inv. Qed.

(** An entry-point command is accepted only while neither attribute is set,
    and sets one of them. *)
Lemma load_lc_main_Ok f off m m' :
  _load_lc_main f off m = Ok m' ->
  entry_seen m = false /\ same_control m m' /\ is_not_None (entryoff m') = true /\
  unixthread_pc m' = unixthread_pc m.
Proof. unfold _load_lc_main, entry_seen. intros Hrun. res_inv; by repeat split. Qed.

Lemma load_lc_unixthread_Ok f off m m' :
  _load_lc_unixthread f off m = Ok m' ->
  entry_seen m = false /\ same_control m m' /\ is_not_None (unixthread_pc m') = true /\
  entryoff m' = entryoff m.
Proof. unfold _load_lc_unixthread, entry_seen. intros Hrun. res_inv; by repeat split. Qed.

Lemma dispatch_frame fuel cmd f off m m' :
  dispatch fuel cmd f off m = Ok m' ->
  same_control m m' /\ (entry_seen m = true -> entry_seen m' = true).
Proof.
  unfold dispatch. intros Hrun.
  repeat match type of Hrun with
         | (if ?c then _ else _) = _ => destruct c eqn:?
         end.
  - apply load_segment_frame in Hrun as [? [He Hu]]. unfold entry_seen. by rewrite He, Hu.
  - apply load_symtab_frame in Hrun as [? [He Hu]]. unfold entry_seen. by rewrite He, Hu.
  - apply load_dyld_info_frame in Hrun as [? [He Hu]]. unfold entry_seen. by rewrite He, Hu.
  - apply load_dylib_info_frame in Hrun as [? [He Hu]]. unfold entry_seen. by rewrite He, Hu.
  - apply load_lc_main_Ok in Hrun as (Hno & ? & ? & ?). split; [done|]. congruence.
  - apply load_lc_unixthread_Ok in Hrun as (Hno & ? & ? & ?). split; [done|]. congruence.
  - apply load_lc_function_starts_frame in Hrun as [? [He Hu]]. unfold entry_seen.
    by rewrite He, Hu.
  - apply load_lc_data_in_code_frame in Hrun as [? [He Hu]]. unfold entry_seen.
    by rewrite He, Hu.
  - apply assert_unencrypted_frame in Hrun as ->. by split; [apply same_control_refl|].
  - injection Hrun as <-. by split; [apply same_control_refl|].
Qed.

End Frames.

(** ** The load-command loop *)

Section LoadCommands.
Context `{Externals}.
Variables (fuel : nat) (f : file) (lc_offset : Z).

Local Abbreviation turn := (lc_turn fuel f lc_offset).

Lemma lc_body_frame count offset m count' offset' m' :
  lc_body fuel f (count, offset, m) = Ok (count', offset', m') ->
  count' = count + 1 /\ same_control m m' /\ (entry_seen m = true -> entry_seen m' = true).
Proof.
  unfold lc_body. intros Hrun. res_inv.
  match goal with Hd : dispatch _ _ _ _ _ = Ok _ |- _ => apply dispatch_frame in Hd as [? ?] end.
  done.
Qed.

Lemma lc_turn_remaining st st' :
  turn st st' -> lc_remaining st = S (lc_remaining st').
Proof.
  destruct st as [[count offset] m], st' as [[count' offset'] m'].
  intros [Hcont Hbody]. apply lc_body_frame in Hbody as (-> & [] & _).
  unfold lc_continue in Hcont. apply andb_prop in Hcont as [Hc _].
  apply Z.ltb_lt in Hc. unfold lc_remaining. simpl. lia.
Qed.

(** Reachable states keep the header and have counted the turns. *)
Lemma lc_turns_frame st st' :
  rtc turn st st' ->
  same_control st.2 st'.2 /\ st.1.1 <= st'.1.1 /\
  (st.1.1 <= ncmds st.2 -> st'.1.1 <= ncmds st.2) /\
  (entry_seen st.2 = true -> entry_seen st'.2 = true).
Proof.
  induction 1 as [st|st1 st2 st3 Hturn _ IH].
  - repeat split; [lia | done | done].
  - destruct st1 as [[c1 o1] m1], st2 as [[c2 o2] m2].
    destruct Hturn as [Hcont Hbody]. apply lc_body_frame in Hbody as (-> & Hsame & Hseen).
    unfold lc_continue in Hcont. apply andb_prop in Hcont as [Hc _]. apply Z.ltb_lt in Hc.
    destruct IH as (Hsame' & Hle & Hbound & Hseen'). simpl in *.
    destruct Hsame as [? ? Hn ?]. rewrite Hn in Hbound.
    repeat split; try (destruct Hsame'; congruence); try lia; auto.
Qed.

(** With gas for the turns that remain, the loop follows the turns. *)
Lemma lc_loop_unfold gas st :
  (lc_remaining st <= gas)%nat ->
  lc_loop gas fuel f lc_offset st =
    if lc_continue lc_offset st then
      match lc_body fuel f st with
      | Ok st' => lc_loop (pred gas) fuel f lc_offset st'
      | Raise e => Raise e
      | Diverge => Diverge
      end
    else Ok st.
Proof.
  intros Hgas. destruct gas as [|gas]; simpl.
  - destruct (lc_continue lc_offset st) eqn:Hcont; [|done].
    destruct st as [[count offset] m]. unfold lc_continue in Hcont.
    apply andb_prop in Hcont as [Hc _]. apply Z.ltb_lt in Hc.
    unfold lc_remaining in Hgas. simpl in Hgas. lia.
  - destruct (lc_continue lc_offset st); [|done]. by destruct (lc_body fuel f st).
Qed.

Lemma lc_loop_outcome gas st :
  (lc_remaining st <= gas)%nat ->
  match lc_loop gas fuel f lc_offset st with
  | Ok st' => rtc turn st st' /\ lc_continue lc_offset st' = false
  | Raise e =>
      exists st1, rtc turn st st1 /\ lc_continue lc_offset st1 = true /\
        lc_body fuel f st1 = Raise e
  | Diverge =>
      exists st1, rtc turn st st1 /\ lc_continue lc_offset st1 = true /\
        lc_body fuel f st1 = Diverge
  end.
Proof.
  revert st. induction gas as [|gas IH]; intros st Hgas; rewrite lc_loop_unfold by done.
  - destruct (lc_continue lc_offset st) eqn:Hcont; [|by split].
    destruct st as [[count offset] m]. unfold lc_continue in Hcont.
    apply andb_prop in Hcont as [Hc _]. apply Z.ltb_lt in Hc.
    unfold lc_remaining in Hgas. simpl in Hgas. lia.
  - destruct (lc_continue lc_offset st) eqn:Hcont; [|by split].
    destruct (lc_body fuel f st) as [st'|e|] eqn:Hbody.
    + assert (Hturn : turn st st') by done.
      pose proof (lc_turn_remaining _ _ Hturn) as Hrem. simpl.
      specialize (IH st' ltac:(lia)).
      destruct (lc_loop gas fuel f lc_offset st') as [st''|e|].
      * destruct IH. split; [by eapply rtc_l|done].
      * destruct IH as (st1 & ? & ? & ?). exists st1. split; [by eapply rtc_l|done].
      * destruct IH as (st1 & ? & ? & ?). exists st1. split; [by eapply rtc_l|done].
    + exists st. by repeat split.
    + exists st. by repeat split.
Qed.

Lemma lc_loop_reach gas st st1 :
  rtc turn st st1 -> (lc_remaining st <= gas)%nat ->
  exists gas1, (lc_remaining st1 <= gas1)%nat /\
    lc_loop gas fuel f lc_offset st = lc_loop gas1 fuel f lc_offset st1.
Proof.
  intros Hrtc. revert gas. induction Hrtc as [st|st st2 st3 Hturn _ IH]; intros gas Hgas.
  - by exists gas.
  - pose proof (lc_turn_remaining _ _ Hturn) as Hrem.
    destruct (IH (pred gas) ltac:(lia)) as (gas1 & Hgas1 & Heq).
    exists gas1. split; [done|]. rewrite lc_loop_unfold by done.
    destruct Hturn as [-> ->]. exact Heq.
Qed.

Lemma load_commands_gas m : (lc_remaining (0%Z, lc_offset, m) <= Z.to_nat (ncmds m))%nat.
Proof. unfold lc_remaining. simpl. lia. Qed.

(** C3: the loop of [__init__] returns exactly in the states the turns
    reach where the command count has reached [ncmds] or the span from
    [lc_offset] has reached [sizeofcmds]; there the assertion raises the
    invalid-binary error if and only if the count is below [ncmds] or the
    span below [sizeofcmds]; and the loop itself always ends: when the parse
    does not return, a handler did not. *)
Theorem load_commands_exit (m : MachO) :
  0 <= ncmds m ->
  (forall st, load_commands fuel f lc_offset m = Ok st <->
     rtc turn (0, lc_offset, m) st /\ lc_continue lc_offset st = false) /\
  (forall count offset m', rtc turn (0, lc_offset, m) (count, offset, m') ->
     (lc_continue lc_offset (count, offset, m') = false <->
        count = ncmds m \/ sizeofcmds m <= offset - lc_offset) /\
     (lc_assert lc_offset (count, offset, m') = Raise CLEInvalidBinaryError <->
        count < ncmds m \/ offset - lc_offset < sizeofcmds m) /\
     (~ (count < ncmds m \/ offset - lc_offset < sizeofcmds m) ->
        lc_assert lc_offset (count, offset, m') = Ok m')) /\
  (load_commands fuel f lc_offset m = Diverge ->
     exists st, rtc turn (0, lc_offset, m) st /\ lc_continue lc_offset st = true /\
       lc_body fuel f st = Diverge).
Proof.
  intros Hn. split; [|split].
  - intros st. split.
    + intros Hrun. pose proof (lc_loop_outcome _ _ (load_commands_gas m)) as Hout.
      unfold load_commands in Hrun. by rewrite Hrun in Hout.
    + intros [Hrtc Hexit].
      destruct (lc_loop_reach _ _ _ Hrtc (load_commands_gas m)) as (gas1 & Hgas1 & Heq).
      unfold load_commands. rewrite Heq, lc_loop_unfold by done. by rewrite Hexit.
  - intros count offset m' Hrtc.
    destruct (lc_turns_frame _ _ Hrtc) as ([_ _ Hnc Hsz] & _ & Hbound & _).
    simpl in *. specialize (Hbound Hn).
    unfold lc_continue, lc_assert. rewrite Hnc, Hsz.
    destruct (Z.ltb_spec count (ncmds m)), (Z.ltb_spec (offset - lc_offset) (sizeofcmds m));
      simpl; repeat split; try done; try lia; intros; try lia; try tauto.
    all: exfalso; intuition lia.
  - intros Hrun. pose proof (lc_loop_outcome _ _ (load_commands_gas m)) as Hout.
    unfold load_commands in Hrun. by rewrite Hrun in Hout.
Qed.

End LoadCommands.

(** ** Entry-point commands *)

Section EntryCommands.
Context `{Externals}.
Variables (fuel : nat) (f : file) (lc_offset : Z).

Local Abbreviation turn := (lc_turn fuel f lc_offset).

Lemma dispatch_LC_MAIN off m : dispatch fuel LC_MAIN f off m = _load_lc_main f off m.
Proof. reflexivity. Qed.

Lemma dispatch_LC_UNIXTHREAD off m :
  dispatch fuel LC_UNIXTHREAD f off m = _load_lc_unixthread f off m.
Proof. reflexivity. Qed.

Lemma unpack_fields_length o fs data : length (unpack_fields o fs data) = length fs.
Proof. revert data. induction fs as [|c fs IH]; intros data; simpl; [done|]. by rewrite IH. Qed.

Lemma unpack_length o fs file' off size vs :
  _unpack o fs file' off size = Ok vs -> length vs = length fs.
Proof.
  unfold _unpack, _unpack_with_byteorder, struct_unpack. intros Hrun. res_inv.
  all: apply unpack_fields_length.
Qed.

(** A state that has seen an entry-point command rejects the next one. *)
Lemma entry_cmd_rejected st cmd :
  lc_cmd f st = Ok cmd -> is_entry_cmd cmd -> entry_seen st.2 = true ->
  lc_body fuel f st = Raise CLEInvalidBinaryError.
Proof.
  destruct st as [[count offset] m]. unfold lc_cmd, lc_body. simpl.
  intros Hcmd Hentry Hseen. apply bind_Ok in Hcmd as (vs & -> & Hcmd).
  injection Hcmd as <-. cbn [mbind res_bind].
  destruct Hentry as [-> | ->].
  - rewrite dispatch_LC_MAIN. unfold _load_lc_main.
    unfold entry_seen in Hseen. by rewrite Hseen.
  - rewrite dispatch_LC_UNIXTHREAD. unfold _load_lc_unixthread.
    unfold entry_seen in Hseen. by rewrite Hseen.
Qed.

(** A turn that processed an entry-point command has set an attribute. *)
Lemma entry_cmd_seen st st' cmd :
  turn st st' -> lc_cmd f st = Ok cmd -> is_entry_cmd cmd -> entry_seen st'.2 = true.
Proof.
  destruct st as [[count offset] m], st' as [[count' offset'] m'].
  unfold lc_turn, lc_cmd, lc_body. simpl. intros [_ Hbody] Hcmd Hentry.
  apply bind_Ok in Hcmd as (vs & Hvs & Hcmd). injection Hcmd as <-.
  rewrite Hvs in Hbody. cbn [mbind res_bind] in Hbody.
  apply bind_Ok in Hbody as (m1 & Hd & Hbody). injection Hbody as _ _ <-.
  unfold entry_seen. destruct Hentry as [Hc | Hc]; rewrite Hc in Hd.
  - rewrite dispatch_LC_MAIN in Hd. apply load_lc_main_Ok in Hd as (_ & _ & -> & _). done.
  - rewrite dispatch_LC_UNIXTHREAD in Hd.
    apply load_lc_unixthread_Ok in Hd as (_ & _ & -> & _). apply orb_true_r.
Qed.

(** C5, amended: when the loop has processed an LC_MAIN or LC_UNIXTHREAD
    command and later comes to another command of these two kinds, the parse
    ends with the invalid-binary error, whichever of the two came first; and
    on an object that has seen neither, an LC_MAIN whose fields can be read
    is accepted, as is an LC_UNIXTHREAD whose thread flavor is 1, or 6. *)
Theorem one_entry_point_command (m : MachO) :
  (forall st1 st2 st3 cmd1 cmd3,
     rtc turn (0, lc_offset, m) st1 ->
     turn st1 st2 -> lc_cmd f st1 = Ok cmd1 -> is_entry_cmd cmd1 ->
     rtc turn st2 st3 ->
     lc_continue lc_offset st3 = true -> lc_cmd f st3 = Ok cmd3 -> is_entry_cmd cmd3 ->
     load_commands fuel f lc_offset m = Raise CLEInvalidBinaryError) /\
  (forall off vs,
     entry_seen m = false ->
     _unpack (struct_byteorder m) [fI; fI; fQ; fQ] f off 24 = Ok vs ->
     _load_lc_main f off m = Ok (set_entryoff (Some (int_at vs 2)) m)) /\
  (forall off vs blob,
     entry_seen m = false ->
     _unpack (struct_byteorder m) (replicate 4 fI) f off 16 = Ok vs ->
     (int_at vs 2 = 1 /\ is_64bit m = false /\
        _unpack (struct_byteorder m) (replicate 16 fI) f (off + 16) 64 = Ok blob) \/
     ((int_at vs 2 = 1 /\ is_64bit m = true \/ int_at vs 2 = 6) /\
        _unpack (struct_byteorder m) (replicate 33 fQ) f (off + 16) 264 = Ok blob) ->
     exists pc, _load_lc_unixthread f off m = Ok (set_unixthread_pc (Some pc) m)).
Proof.
  split; [|split].
  - intros st1 st2 st3 cmd1 cmd3 Hreach Hturn Hcmd1 Hentry1 Hrtc Hcont Hcmd3 Hentry3.
    pose proof (entry_cmd_seen _ _ _ Hturn Hcmd1 Hentry1) as Hseen.
    destruct (lc_turns_frame fuel f lc_offset _ _ Hrtc) as (_ & _ & _ & Hkeep).
    pose proof (entry_cmd_rejected _ _ Hcmd3 Hentry3 (Hkeep Hseen)) as Hbody.
    assert (Hall : rtc turn (0, lc_offset, m) st3).
    { eapply rtc_trans; [exact Hreach|]. by eapply rtc_l. }
    destruct (lc_loop_reach fuel f lc_offset _ _ _ Hall (load_commands_gas lc_offset m))
      as (gas1 & Hgas1 & Heq).
    unfold load_commands. rewrite Heq, lc_loop_unfold by done. by rewrite Hcont, Hbody.
  - intros off vs Hseen Hvs. unfold _load_lc_main.
    unfold entry_seen in Hseen. rewrite Hseen, Hvs. done.
  - intros off vs blob Hseen Hvs Hstate. unfold _load_lc_unixthread.
    unfold entry_seen in Hseen. rewrite Hseen, Hvs. cbn [mbind res_bind].
    assert (Hlast : exists pc, py_getitem blob (-1) = Ok pc /\ length blob <> 0%nat).
    { destruct Hstate as [(_ & _ & Hb) | (_ & Hb)]; apply unpack_length in Hb;
        rewrite length_replicate in Hb;
        (destruct (py_getitem_lookup blob (Z.of_nat (length blob) - 1)) as (pc & Hl & _);
           [lia|]); exists pc; (split; [|lia]);
        unfold py_getitem; simpl;
        (destruct (Z.leb_spec 0 (-1 + Z.of_nat (length blob))); [|lia]);
        (destruct (Z.ltb_spec (-1 + Z.of_nat (length blob)) (Z.of_nat (length blob))); [|lia]);
        simpl; replace (-1 + Z.of_nat (length blob)) with (Z.of_nat (length blob) - 1) by lia;
        by rewrite Hl. }
    destruct Hlast as (pc & Hpc & _).
    destruct Hstate as [(Hfl & H64 & Hb) | (Hfl & Hb)].
    + rewrite Hfl, H64. cbn [Z.eqb Pos.eqb andb orb negb]. rewrite Hb.
      cbn [mbind res_bind]. rewrite Hpc. cbn [mbind res_bind]. eauto.
    + destruct Hfl as [[Hfl H64] | Hfl]; rewrite Hfl; [rewrite H64|];
        cbn [Z.eqb Pos.eqb andb orb negb]; rewrite Hb; cbn [mbind res_bind];
        rewrite Hpc; cbn [mbind res_bind]; eauto.
Qed.

End EntryCommands.

(** C5 fails as stated: the thread state of an x86-64 LC_UNIXTHREAD has
    flavor 4; [sample_x86_thread_only], which has this command alone, is
    rejected, and [sample_x86_thread_then_main], which has it followed by an
    LC_MAIN, is rejected with the compatibility error of the first command,
    not with the invalid-binary error. *)
Lemma unixthread_flavor_not_supported :
  MachO_init (H := sample_externals) 16 true sample_x86_thread_only
    = Raise CLECompatibilityError /\
  lc_cmd sample_x86_thread_then_main (0, 32, set_struct_byteorder Little MachO_new)
    = Ok LC_UNIXTHREAD /\
  lc_cmd sample_x86_thread_then_main (1, 32 + 184, set_struct_byteorder Little MachO_new)
    = Ok LC_MAIN /\
  MachO_init (H := sample_externals) 16 true sample_x86_thread_then_main
    = Raise CLECompatibilityError /\
  MachO_init (H := sample_externals) 16 true sample_x86_thread_then_main
    <> Raise CLEInvalidBinaryError.
Proof. repeat split; try (vm_compute; reflexivity). vm_compute. discriminate. Qed.

(** ** Segments and their backers *)

Lemma ord_nonneg b : 0 <= ord b.
Proof. unfold ord. lia. Qed.

Lemma le_uint_nonneg bs : 0 <= le_uint bs.
Proof.
  induction bs as [|b bs IH]; simpl; [lia|].
  apply Z.lor_nonneg. split; [apply ord_nonneg | by apply Z.shiftl_nonneg].
Qed.

Lemma uint_nonneg o bs : 0 <= uint o bs.
Proof. destruct o; apply le_uint_nonneg. Qed.

Lemma int_at_unpack_fields_nonneg o fs data i :
  fs !! i <> Some fh -> 0 <= int_at (unpack_fields o fs data) i.
Proof.
  revert data i. induction fs as [|c fs IH]; intros data i Hc; [by destruct i|].
  destruct i as [|i].
  - unfold int_at. simpl. destruct c; simpl; try apply uint_nonneg; try lia. by destruct Hc.
  - apply (IH (drop (fmt_size c) data) i Hc).
Qed.

(** What [struct.unpack] decodes with an unsigned format is not negative. *)
Lemma unpack_int_nonneg o fs file' off size vs i :
  _unpack o fs file' off size = Ok vs -> fs !! i <> Some fh -> 0 <= int_at vs i.
Proof.
  unfold _unpack, _unpack_with_byteorder, struct_unpack. intros Hrun Hc. res_inv.
  all: by apply int_at_unpack_fields_nonneg.
Qed.

Lemma read_in_file (f : file) (off size : Z) (bs : list byte) :
  _read f off size = Ok bs -> 0 <= off -> 0 <= size ->
  off + size <= Z.of_nat (length f) ->
  bs = take (Z.to_nat size) (drop (Z.to_nat off) f) /\ length bs = Z.to_nat size.
Proof.
  unfold _read. intros Hrun Hoff Hsize Hfit.
  destruct (Z.ltb_spec off 0); [lia|]. destruct (Z.ltb_spec size 0); [lia|].
  injection Hrun as <-. split; [done|]. rewrite length_take, length_drop. lia.
Qed.

(** The segment bytes padded to the size in memory. *)
Lemma padded_blob (blob : list byte) (filesize memsize : Z) :
  length blob = Z.to_nat filesize -> 0 <= filesize <= memsize ->
  let padded :=
    if filesize <? memsize then blob ++ replicate (Z.to_nat (memsize - filesize)) NUL
    else blob in
  Z.of_nat (length padded) = memsize /\
  take (Z.to_nat filesize) padded = blob /\
  drop (Z.to_nat filesize) padded = replicate (Z.to_nat (memsize - filesize)) NUL.
Proof.
  intros Hlen Hle. simpl. destruct (Z.ltb_spec filesize memsize) as [Hlt|Hge].
  - rewrite length_app, length_replicate, Hlen.
    rewrite take_app_length' by done. rewrite drop_app_length' by done.
    repeat split. lia.
  - replace (Z.to_nat (memsize - filesize)) with 0%nat by lia. simpl.
    rewrite take_ge, drop_ge by lia. repeat split. lia.
Qed.

Section Segments.
Context `{Externals}.

(** C2, amended: when the command and its section records can be read,
    [_load_segment] returns and has appended the segment built from the
    command; a segment named [__PAGEZERO] gets no backer; any other segment
    whose [filesize] is at most its [vmsize] and whose [filesize] bytes at
    [fileoff] are in the file gets a backer at [vmaddr] of length [vmsize],
    made of these bytes followed by zero bytes. *)
Theorem load_segment_backer (f : file) (offset : Z) (m : MachO) (vs : list val)
    (sections : list MachOSection) :
  unpack_segment_command f offset m = Ok vs ->
  load_sections f offset m (int_at vs 9) = Ok sections ->
  let segname := text (strip_nul (str_at vs 2)) in
  let vmaddr := int_at vs 3 in
  let vmsize := int_at vs 4 in
  let fileoff := int_at vs 5 in
  let filesize := int_at vs 6 in
  let seg := Build_MachOSegment fileoff vmaddr filesize vmsize segname (int_at vs 9)
               sections (int_at vs 10) (int_at vs 8) (int_at vs 7) in
  exists m', _load_segment f offset m = Ok m' /\
    segments m' = segments m ++ [seg] /\
    (segname = "__PAGEZERO"%string -> memory m' = memory m) /\
    (segname <> "__PAGEZERO"%string ->
     filesize <= vmsize ->
     fileoff + filesize <= Z.of_nat (length f) ->
     exists blob, memory m' = memory m ++ [(vmaddr, blob)] /\
       Z.of_nat (length blob) = vmsize /\
       take (Z.to_nat filesize) blob
         = take (Z.to_nat filesize) (drop (Z.to_nat fileoff) f) /\
       drop (Z.to_nat filesize) blob = replicate (Z.to_nat (vmsize - filesize)) NUL).
Proof.
  intros Hvs Hsections. cbv zeta.
  assert (Hoff : 0 <= int_at vs 5 /\ 0 <= int_at vs 6).
  { unfold unpack_segment_command in Hvs. destruct (negb (arch_bits m =? 64));
      split; eapply unpack_int_nonneg; try exact Hvs; done. }
  destruct Hoff as [Hoff Hsize].
  unfold _load_segment. rewrite Hvs. cbn [mbind res_bind]. rewrite Hsections.
  cbn [mbind res_bind seg_offset seg_filesize seg_memsize seg_vaddr].
  destruct (decide (text (strip_nul (str_at vs 2)) = "__PAGEZERO"%string)) as [Heq|Hne].
  - eexists. split; [reflexivity|]. split; [reflexivity|]. split; [done | by intros []].
  - assert (Hread : exists blob, _read f (int_at vs 5) (int_at vs 6) = Ok blob).
    { unfold _read. destruct (Z.ltb_spec (int_at vs 5) 0); [lia|].
      destruct (Z.ltb_spec (int_at vs 6) 0); [lia|]. eauto. }
    destruct Hread as [blob Hread]. rewrite Hread. cbn [mbind res_bind].
    eexists. split; [reflexivity|]. split; [reflexivity|]. split; [by intros ?|].
    intros _ Hle Hfit.
    destruct (read_in_file _ _ _ _ Hread Hoff Hsize Hfit) as [Hblob Hlen].
    eexists. split; [reflexivity|].
    destruct (padded_blob blob (int_at vs 6) (int_at vs 4) Hlen ltac:(lia)) as (? & Htake & ?).
    repeat split; [done | by rewrite Htake | done].
Qed.

End Segments.

(** C2 fails as stated: in [sample_truncated_segment] the file ends before
    the 200 bytes of the segment and the backer has the 104 bytes that were
    read; in [sample_filesize_above_vmsize] the backer has the 8 bytes of
    the file, not the 4 of [vmsize]. *)
Lemma segment_backer_length_not_vmsize :
  (exists m seg blob,
     parse_file (H := sample_externals) 16 true sample_truncated_segment = Ok m /\
     segments m = [seg] /\ seg_segname seg = "__DATA"%string /\
     seg_filesize seg <= seg_memsize seg /\
     memory m = [(seg_vaddr seg, blob)] /\
     seg_memsize seg = 200 /\ length blob = 104%nat) /\
  (exists m seg blob,
     parse_file (H := sample_externals) 16 true sample_filesize_above_vmsize = Ok m /\
     segments m = [seg] /\ seg_segname seg = "__DATA"%string /\
     memory m = [(seg_vaddr seg, blob)] /\
     seg_memsize seg = 4 /\ length blob = 8%nat).
Proof.
  split.
  - do 3 eexists. split; [vm_compute; reflexivity|].
    repeat split; try reflexivity; vm_compute; discriminate.
  - do 3 eexists. split; [vm_compute; reflexivity|]. repeat split; reflexivity.
Qed.

(** ** Exports trie *)

Lemma py_getitem_Some {A} (l : list A) (i : nat) (x : A) :
  l !! i = Some x -> py_getitem l (Z.of_nat i) = Ok x.
Proof.
  intros Hx. destruct (py_getitem_lookup l (Z.of_nat i)) as (y & Hy & ->).
  - apply lookup_lt_Some in Hx. lia.
  - rewrite Nat2Z.id in Hy. congruence.
Qed.

Section Exports.
Context `{Externals}.

(** C8: at a node with export data whose flags have neither bit 0x08 nor bit
    0x10, the body of the walk stores under the name of the node the pair of
    the flags and of the LEB128 number that follows them plus the [vaddr] of
    [segments[1]]; this is what [exports_by_name] holds for the name when
    the turn of the loop is over. *)
Theorem export_regular_recorded (segs : list MachOSegment) (blob : list byte) (index : Z)
    (sym_str : list byte) (exports : gmap string Export) (nodes_to_do : list (Z * list byte))
    (info_len pos eflags n1 symbol_offset n2 : Z) (seg : MachOSegment) :
  export_info_len blob index = Ok (info_len, pos) ->
  0 < info_len ->
  read_uleb blob pos = Ok (eflags, n1) ->
  Z.land eflags 0x08 = 0 ->
  Z.land eflags 0x10 = 0 ->
  read_uleb blob (pos + n1) = Ok (symbol_offset, n2) ->
  segs !! 1%nat = Some seg ->
  export_node segs blob index sym_str exports
    = Ok (<[text sym_str := ExportRegular eflags (symbol_offset + seg_vaddr seg)]> exports,
          pos + n1 + n2) /\
  forall exports',
    (exists nodes', export_step segs blob exports ((index, sym_str) :: nodes_to_do)
                    = TrieNext exports' nodes') \/
    export_step segs blob exports ((index, sym_str) :: nodes_to_do) = TrieDone exports' ->
    exports' !! text sym_str = Some (ExportRegular eflags (symbol_offset + seg_vaddr seg)).
Proof.
  intros Hinfo Hlen Hflags H08 H10 Hoff Hseg.
  assert (Hnode : export_node segs blob index sym_str exports
    = Ok (<[text sym_str := ExportRegular eflags (symbol_offset + seg_vaddr seg)]> exports,
          pos + n1 + n2)).
  { unfold export_node. rewrite Hinfo. cbn [mbind res_bind].
    destruct (Z.gtb_spec info_len 0); [|lia].
    rewrite Hflags. cbn [mbind res_bind fst snd].
    unfold FLAGS_REEXPORT, FLAGS_STUB_AND_RESOLVER. rewrite H08, H10.
    cbn [Z.eqb negb]. rewrite Hoff. cbn [mbind res_bind fst snd].
    pose proof (py_getitem_Some segs 1 seg Hseg) as Hget.
    change (Z.of_nat 1) with 1 in Hget. by rewrite Hget. }
  split; [exact Hnode|].
  intros exports' Hstep. unfold export_step in Hstep. rewrite Hnode in Hstep.
  destruct (read_B blob (pos + n1 + n2) ≫= _) as [nodes'|e|].
  - destruct Hstep as [[nodes'' Heq]|Heq]; [|discriminate].
    injection Heq as <- _. apply lookup_insert_eq.
  - destruct e; destruct Hstep as [[nodes'' Heq]|Heq]; try discriminate.
    injection Heq as <-. apply lookup_insert_eq.
  - destruct Hstep as [[nodes'' Heq]|Heq]; discriminate.
Qed.

End Exports.

Lemma export_regular_recorded_witness :
  0 < 3 /\
  export_node (H := sample_externals) [sample_pagezero; sample_text] sample_trie 9
      (bytes_of "_main") ∅
    = Ok (<[text (bytes_of "_main") := ExportRegular 0 (0x1000 + seg_vaddr sample_text)]> ∅,
          10 + 1 + 2) /\
  export_loop (H := sample_externals) 8 [sample_pagezero; sample_text] sample_trie ∅ [(0, [])]
    ≫= (fun exports => Ok (exports !! "_main"%string))
    = Ok (Some (ExportRegular 0 0x100001000)).
Proof.
  split; [lia|]. split; [|vm_compute; reflexivity].
  apply (export_regular_recorded (H := sample_externals) [sample_pagezero; sample_text]
           sample_trie 9 (bytes_of "_main") ∅ [] 3 10 0 1 0x1000 2 sample_text);
    try reflexivity; lia.
Defined.

(** ** Symbol resolution *)

Section Symbols.
Context `{Externals}.

(** The attributes step keeps the type and the value of the symbol, sets
    the size to [n_value] or leaves it, and gives an address to the symbols
    of type SECT only. *)
Lemma resolve_symbol_attrs_Ok m tab sym sym' :
  resolve_symbol_attrs m tab sym = Ok sym' ->
  n_type sym' = n_type sym /\
  (sym_size sym' = sym_size sym \/ sym_size sym' = n_value sym) /\
  sym_addr sym' =
    (if sym_type sym =? SYMBOL_TYPE_SECT then Some (n_value sym) else sym_addr sym).
Proof.
  unfold resolve_symbol_attrs. cbv zeta.
  destruct (is_common _); unfold sym_type;
    cbn [n_type n_value n_sect sym_addr sym_size set_is_export set_sym_size];
    destruct (Z.land (n_type sym) 14 =? SYMBOL_TYPE_SECT); intros Hrun.
  all: try (apply bind_Ok in Hrun as ([sec|] & _ & Hrun); injection Hrun as <-;
            simpl; by auto).
  all: destruct (is_import _);
    [ destruct (library_ordinal _); [|discriminate];
      apply bind_Ok in Hrun as (lib & _ & Hrun) |];
    injection Hrun as <-; simpl; by auto.
Qed.

Lemma resolve_symbol_Ok m tab sym e sym' e' :
  resolve_symbol m tab sym e = Ok (sym', e') ->
  is_stab sym' = is_stab sym /\
  (sym_size sym' = sym_size sym \/ sym_size sym' = n_value sym) /\
  (is_stab sym = false -> sym_addr sym' <> None) /\
  (if needs_synthetic sym then sym_addr sym' = Some e /\ e' = e + sym_size sym' else e' = e).
Proof.
  unfold resolve_symbol, needs_synthetic. cbv zeta.
  change (is_stab (mark_export m sym)) with (is_stab sym).
  destruct (is_stab sym) eqn:Hstab; intros Hrun.
  - injection Hrun as <- <-. by repeat split; auto.
  - apply bind_Ok in Hrun as (s1 & Hattrs & Hrun).
    apply resolve_symbol_attrs_Ok in Hattrs as (Htype & Hsize & Haddr).
    change (sym_type (mark_export m sym)) with (sym_type sym) in Haddr.
    cbn [n_type n_value sym_addr sym_size mark_export set__is_export] in Htype, Hsize, Haddr.
    unfold assign_address in Hrun. cbn [negb andb].
    assert (Hstab1 : is_stab s1 = false) by (unfold is_stab in *; by rewrite Htype).
    destruct (sym_type sym =? SYMBOL_TYPE_SECT); cbn [negb andb].
    + rewrite Haddr in Hrun. injection Hrun as <- <-. rewrite Haddr. by repeat split; auto.
    + rewrite Haddr in Hrun. destruct (sym_addr sym) as [a|]; injection Hrun as <- <-; simpl.
      * rewrite Haddr. unfold is_stab in *. by repeat split; auto.
      * unfold is_stab in *. by repeat split; auto.
Qed.

Lemma resolve_symbols_loop_spec m tab syms e syms' e' :
  resolve_symbols_loop m tab syms e = Ok (syms', e') ->
  length syms' = length syms /\
  e' = e + synthetic_span syms syms' /\
  (forall i s s', syms !! i = Some s -> syms' !! i = Some s' ->
     is_stab s' = is_stab s /\
     (sym_size s' = sym_size s \/ sym_size s' = n_value s) /\
     (is_stab s = false -> sym_addr s' <> None) /\
     (needs_synthetic s = true ->
      sym_addr s' = Some (e + synthetic_span (take i syms) (take i syms')))).
Proof.
  revert e syms' e'. induction syms as [|sym syms IH]; intros e syms' e' Hrun; simpl in Hrun.
  - injection Hrun as <- <-. simpl. split; [done|]. split; [lia|].
    intros i s s' Hs. by rewrite lookup_nil in Hs.
  - apply bind_Ok in Hrun as ([s1 e1] & Hhead & Hrun).
    apply bind_Ok in Hrun as ([rest' e2] & Htail & Hrun). injection Hrun as <- <-.
    apply resolve_symbol_Ok in Hhead as (Hstab & Hsize & Haddr & Hsynth).
    apply IH in Htail as (Hlen & He2 & Hrest). simpl.
    split; [by rewrite Hlen|]. split.
    + destruct (needs_synthetic sym); [destruct Hsynth as [_ ->] | subst e1]; lia.
    + intros [|i] s s' Hs Hs'; simpl in Hs, Hs'.
      * injection Hs as <-. injection Hs' as <-. simpl. repeat split; try done.
        intros Hn. rewrite Hn in Hsynth. destruct Hsynth as [-> _]. f_equal. lia.
      * destruct (Hrest i s s' Hs Hs') as (? & ? & ? & Hx). repeat split; try done.
        intros Hn. rewrite (Hx Hn). simpl. f_equal.
        destruct (needs_synthetic sym); [destruct Hsynth as [_ ->] | subst e1]; lia.
Qed.

(** The symbols [_load_symtab] builds have the sizes the resolution theorem
    asks for, when new symbols start with a size that is not negative. *)
Lemma load_symtab_sizes f off m m' :
  (forall m0, 0 <= symbol_size m0) ->
  _load_symtab f off m = Ok m' -> sizes_nonneg (symbols m').
Proof.
  intros Hsize. unfold _load_symtab. intros Hrun. res_inv.
  match goal with
  | Hfmt : (if ?c then _ else _) = (_, _) |- _ => destruct c; injection Hfmt as <- <-
  end.
  all: revert Hrun; apply (for_each_preserves (fun s => sizes_nonneg (symbols s)));
    [ intros i s1 s2 Hs1 Hbody; apply bind_Ok in Hbody as (e & He & Hbody);
      apply bind_Ok in Hbody as (name & _ & Hbody); injection Hbody as <-;
      apply Forall_app; split; [exact Hs1|]; apply Forall_singleton; split; simpl;
      [ apply Hsize | eapply unpack_int_nonneg; [exact He | done] ]
    | constructor ].
Qed.

End Symbols.

Lemma synthetic_span_nonneg syms syms' :
  Forall (fun s' => 0 <= sym_size s') syms' -> 0 <= synthetic_span syms syms'.
Proof.
  intros Hall. revert syms. induction Hall as [|s' syms' Hs' _ IH]; intros [|s syms]; simpl;
    try lia.
  specialize (IH syms). destruct (needs_synthetic s); lia.
Qed.

(** Between two symbols that needed an address lies the size of the first. *)
Lemma synthetic_span_step syms syms' i j a a' :
  Forall (fun s' => 0 <= sym_size s') syms' ->
  (i < j)%nat -> syms !! i = Some a -> syms' !! i = Some a' -> needs_synthetic a = true ->
  synthetic_span (take i syms) (take i syms') + sym_size a'
    <= synthetic_span (take j syms) (take j syms').
Proof.
  intros Hall. revert syms i j.
  induction Hall as [|s' syms' Hs' Hall IH]; intros [|s syms] [|i] [|j] Hij Ha Ha' Hn;
    simpl in *; try done; try lia.
  - injection Ha as ->. injection Ha' as ->. rewrite Hn.
    pose proof (synthetic_span_nonneg (take j syms) (take j syms')
                  (Forall_take _ _ _ Hall)). lia.
  - specialize (IH syms i j ltac:(lia) Ha Ha' Hn). lia.
Qed.

Lemma imap_fmap_keeps {B} (g : MachOSymbol -> B) (f : nat -> MachOSymbol -> MachOSymbol)
    (l : list MachOSymbol) :
  (forall i s, g (f i s) = g s) -> g <$> imap f l = g <$> l.
Proof.
  revert f. induction l as [|x l IH]; intros f Hf; simpl; [done|].
  rewrite Hf. f_equal. apply IH. intros i s. apply Hf.
Qed.

Lemma synthetic_span_sizes syms l1 l2 :
  sym_size <$> l1 = sym_size <$> l2 -> synthetic_span syms l1 = synthetic_span syms l2.
Proof.
  revert l1 l2. induction syms as [|s syms IH]; intros [|a l1] [|b l2] Heq; simpl in *;
    try done.
  injection Heq as -> Heq. by rewrite (IH l1 l2 Heq).
Qed.

Lemma lookup_fmap_eq {B} (g : MachOSymbol -> B) (l1 l2 : list MachOSymbol) i a :
  g <$> l1 = g <$> l2 -> l1 !! i = Some a -> exists b, l2 !! i = Some b /\ g b = g a.
Proof.
  intros Heq Ha.
  assert (Hg : (g <$> l2) !! i = Some (g a)) by (rewrite <- Heq, list_lookup_fmap; by rewrite Ha).
  rewrite list_lookup_fmap in Hg. destruct (l2 !! i) as [b|]; [|done].
  injection Hg as Hg. by exists b.
Qed.

Section Resolution.
Context `{Externals}.

Lemma parse_exports_frame fuel blob m m1 :
  _parse_exports fuel blob m = Ok m1 ->
  symbols m1 = symbols m /\ memory m1 = memory m /\ arch_bits m1 = arch_bits m.
Proof. unfold _parse_exports. intros Hrun. res_inv; by repeat split. Qed.

(** C1: after [_resolve_symbols] has returned, every symbol that is not a
    stab has an address; the symbols that lacked one got theirs from a
    cursor that starts at 0xff00000000000000 (64 bits) or 0xff000000 and
    advances by the size of each such symbol, so that of two of them the
    later lies at or above the end of the earlier, and each lies, with its
    size, in the range of the backer installed for them.  Sizes are those
    the loader meets: not negative. *)
Theorem resolve_symbols_addresses (fuel : nat) (m m' : MachO) :
  sizes_nonneg (symbols m) ->
  _resolve_symbols fuel m = Ok m' ->
  ext_symbol_start m = (if arch_bits m =? 64 then 0xff00000000000000 else 0xff000000) /\
  exists ext_symbol_end,
    ext_symbol_start m <= ext_symbol_end /\
    memory m' = memory m ++
      [(ext_symbol_start m,
        replicate (Z.to_nat (ext_symbol_end - ext_symbol_start m)) NUL)] /\
    length (symbols m') = length (symbols m) /\
    (forall i s', symbols m' !! i = Some s' -> is_stab s' = false -> sym_addr s' <> None) /\
    (forall i a a',
       symbols m !! i = Some a -> symbols m' !! i = Some a' -> needs_synthetic a = true ->
       exists x, sym_addr a' = Some x /\
         x = ext_symbol_start m
             + synthetic_span (take i (symbols m)) (take i (symbols m')) /\
         ext_symbol_start m <= x /\ x + sym_size a' <= ext_symbol_end) /\
    (forall i j a b a' b',
       (i < j)%nat ->
       symbols m !! i = Some a -> symbols m !! j = Some b ->
       needs_synthetic a = true -> needs_synthetic b = true ->
       symbols m' !! i = Some a' -> symbols m' !! j = Some b' ->
       exists x y, sym_addr a' = Some x /\ sym_addr b' = Some y /\ x + sym_size a' <= y).
Proof.
  intros Hsizes Hrun. split; [done|]. unfold _resolve_symbols in Hrun.
  apply bind_Ok in Hrun as (m1 & Hexp & Hrun).
  apply parse_exports_frame in Hexp as (Hsyms1 & Hmem1 & Hbits1).
  apply bind_Ok in Hrun as ([syms' e'] & Hloop & Hrun).
  apply bind_Ok in Hrun as (eff1 & _ & Hrun).
  apply bind_Ok in Hrun as (eff2 & _ & Hrun). injection Hrun as <-.
  assert (Hstart : ext_symbol_start m1 = ext_symbol_start m)
    by (unfold ext_symbol_start; by rewrite Hbits1).
  rewrite Hstart, Hsyms1 in Hloop. rewrite Hstart.
  apply resolve_symbols_loop_spec in Hloop as (Hlen & He' & Hloop).
  set (final := symbols (set_symbols_by_addr _ _)).
  assert (Hkeep : forall {B} (g : MachOSymbol -> B),
             (forall x y s, g (set_xrefs x y s) = g s) -> g <$> final = g <$> syms').
  { intros B g Hg. unfold final. cbn [symbols set_symbols_by_addr apply_bind set_symbols
      set_memory]. rewrite !imap_fmap_keeps; [done | |]; intros; apply Hg. }
  pose proof (Hkeep _ sym_size ltac:(done)) as Hsize.
  pose proof (Hkeep _ sym_addr ltac:(done)) as Haddr.
  pose proof (Hkeep _ n_type ltac:(done)) as Htype.
  assert (Hnonneg : Forall (fun s' => 0 <= sym_size s') syms').
  { apply Forall_lookup. intros i s' Hs'.
    destruct (lookup_lt_is_Some_2 (symbols m) i) as [s Hs];
      [rewrite <- Hlen; by eapply lookup_lt_Some|].
    destruct (Hloop i s s' Hs Hs') as (_ & Hsz & _).
    destruct (proj1 (Forall_lookup _ _) Hsizes i s Hs) as [? ?].
    destruct Hsz as [-> | ->]; lia. }
  assert (Hfinal : forall i a', final !! i = Some a' ->
            exists s', syms' !! i = Some s' /\ sym_size s' = sym_size a' /\
              sym_addr s' = sym_addr a' /\ is_stab s' = is_stab a').
  { intros i a' Ha'.
    destruct (lookup_fmap_eq _ _ _ _ _ Hsize Ha') as (s1 & Hs1 & Hz).
    destruct (lookup_fmap_eq _ _ _ _ _ Haddr Ha') as (s2 & Hs2 & Ha).
    destruct (lookup_fmap_eq _ _ _ _ _ Htype Ha') as (s3 & Hs3 & Ht).
    exists s1. rewrite Hs1 in Hs2, Hs3. injection Hs2 as <-. injection Hs3 as <-.
    unfold is_stab. by rewrite Ht. }
  assert (Hspan : forall i, synthetic_span (take i (symbols m)) (take i final)
                            = synthetic_span (take i (symbols m)) (take i syms')).
  { intros i. apply synthetic_span_sizes. by rewrite !fmap_take, Hsize. }
  pose proof (synthetic_span_nonneg (symbols m) syms' Hnonneg) as Htotal.
  exists e'. split; [lia|]. split.
  { cbn [memory set_symbols_by_addr apply_bind set_symbols set_memory]. by rewrite Hmem1. }
  split.
  { rewrite <- Hlen. apply (f_equal length) in Hsize. by rewrite !length_fmap in Hsize. }
  split; [|split].
  - intros i a' Ha' Hstab. destruct (Hfinal i a' Ha') as (s' & Hs' & _ & <- & Hst).
    destruct (lookup_lt_is_Some_2 (symbols m) i) as [s Hs];
      [rewrite <- Hlen; by eapply lookup_lt_Some|].
    destruct (Hloop i s s' Hs Hs') as (Hst' & _ & Hsome & _).
    apply Hsome. congruence.
  - intros i a a' Ha Ha' Hneed. destruct (Hfinal i a' Ha') as (s' & Hs' & Hz & <- & _).
    destruct (Hloop i a s' Ha Hs') as (_ & _ & _ & Hx). rewrite (Hx Hneed), Hspan.
    eexists. split; [reflexivity|]. split; [done|].
    pose proof (synthetic_span_nonneg (take i (symbols m)) (take i syms')
                  (Forall_take _ _ _ Hnonneg)).
    split; [lia|]. rewrite <- Hz.
    pose proof (synthetic_span_step (symbols m) syms' i (length (symbols m)) a s' Hnonneg
                  ltac:(by eapply lookup_lt_Some) Ha Hs' Hneed) as Hstep.
    rewrite (take_ge (symbols m) (length (symbols m))) in Hstep by lia.
    rewrite (take_ge syms' (length (symbols m))) in Hstep by lia. lia.
  - intros i j a b a' b' Hij Ha Hb Hna Hnb Ha' Hb'.
    destruct (Hfinal i a' Ha') as (sa & Hsa & Hza & <- & _).
    destruct (Hfinal j b' Hb') as (sb & Hsb & _ & <- & _).
    destruct (Hloop i a sa Ha Hsa) as (_ & _ & _ & Hx).
    destruct (Hloop j b sb Hb Hsb) as (_ & _ & _ & Hy).
    rewrite (Hx Hna), (Hy Hnb). do 2 eexists. split; [reflexivity|]. split; [reflexivity|].
    rewrite <- Hza.
    pose proof (synthetic_span_step (symbols m) syms' i j a sa Hnonneg Hij Ha Hsa Hna). lia.
Qed.

End Resolution.

(** ** The theorems at work on the samples *)

Lemma get_string_spec_witness :
  0 <= 11 /\
  get_string (set_strtab sample_strtab MachO_new) 11 = Raise ValueError /\
  get_string (set_strtab sample_strtab MachO_new) 1 = Ok (bytes_of "_foo") /\
  get_string (set_strtab sample_strtab MachO_new) 6 = Ok (bytes_of "_bar").
Proof.
  split; [lia|]. split; [|split; reflexivity].
  destruct (get_string_spec (set_strtab sample_strtab MachO_new) 11) as [Hraise _]; [lia|].
  apply Hraise. vm_compute. reflexivity.
Defined.

Lemma load_commands_exit_witness :
  0 <= ncmds (sample_after_header 2 96) /\
  exists st,
    load_commands (H := sample_externals) 16 sample_main_at_zero 32 (sample_after_header 2 96)
      = Ok st /\
    rtc (lc_turn (H := sample_externals) 16 sample_main_at_zero 32)
      (0, 32, sample_after_header 2 96) st /\
    lc_continue 32 st = false /\ st.1.1 = 2 /\ lc_assert 32 st = Ok st.2.
Proof.
  split; [vm_compute; discriminate|].
  destruct (load_commands_exit (H := sample_externals) 16 sample_main_at_zero 32
              (sample_after_header 2 96)) as (Hexit & _ & _); [vm_compute; discriminate|].
  eexists. split; [vm_compute; reflexivity|].
  match goal with
  | |- rtc _ _ ?st /\ _ =>
      destruct (proj1 (Hexit st)) as [Hrtc Hcont]; [vm_compute; reflexivity|]
  end.
  split; [exact Hrtc|]. split; [exact Hcont|]. split; vm_compute; reflexivity.
Defined.

Lemma one_entry_point_command_witness :
  load_commands (H := sample_externals) 16 sample_main_then_thread 32
    (sample_after_header 2 304) = Raise CLEInvalidBinaryError /\
  (exists m', _load_lc_main sample_main_at_zero 104 (sample_after_header 2 96) = Ok m') /\
  (exists m', _load_lc_unixthread sample_thread_only 32 (sample_after_header 1 280) = Ok m').
Proof.
  split; [|split].
  - destruct (one_entry_point_command (H := sample_externals) 16 sample_main_then_thread 32
                (sample_after_header 2 304)) as (Hreject & _ & _).
    apply (Hreject (0, 32, sample_after_header 2 304)
             (1, 56, set_entryoff (Some 0x1000) (sample_after_header 2 304))
             (1, 56, set_entryoff (Some 0x1000) (sample_after_header 2 304))
             LC_MAIN LC_UNIXTHREAD).
    + apply rtc_refl.
    + split; vm_compute; reflexivity.
    + vm_compute; reflexivity.
    + left; reflexivity.
    + apply rtc_refl.
    + vm_compute; reflexivity.
    + vm_compute; reflexivity.
    + right; reflexivity.
  - destruct (one_entry_point_command (H := sample_externals) 16 sample_main_at_zero 32
                (sample_after_header 2 96)) as (_ & Hmain & _).
    eexists. apply (Hmain 104); [reflexivity | vm_compute; reflexivity].
  - destruct (one_entry_point_command (H := sample_externals) 16 sample_thread_only 32
                (sample_after_header 1 280)) as (_ & _ & Hthread).
    destruct (Hthread 32 [VInt 0x5; VInt 280; VInt 6; VInt 66]
                (replicate 32 (VInt 0) ++ [VInt 0x2000])) as [pc Hpc].
    + reflexivity.
    + vm_compute; reflexivity.
    + right. split; [right; reflexivity | vm_compute; reflexivity].
    + eexists. exact Hpc.
Defined.

Lemma load_segment_backer_witness :
  exists m',
    _load_segment sample_two_segments 104 (sample_after_header 2 144) = Ok m' /\
    seg_segname <$> segments m' = ["__TEXT"%string] /\
    exists blob,
      memory m' = [(0x100000000, blob)] /\ Z.of_nat (length blob) = 0x100 /\
      take 0xb0 blob = sample_two_segments /\
      drop 0xb0 blob = replicate 0x50 NUL.
Proof.
  destruct (load_segment_backer sample_two_segments 104 (sample_after_header 2 144)
              [VInt 0x19; VInt 72; VStr (name16 "__TEXT"); VInt 0x100000000; VInt 0x100;
               VInt 0; VInt 0xb0; VInt 7; VInt 5; VInt 0; VInt 0] [])
    as (m' & Hrun & Hsegs & _ & Hbacker); [vm_compute; reflexivity | reflexivity |].
  exists m'. split; [exact Hrun|]. split; [by rewrite Hsegs|].
  destruct Hbacker as (blob & Hmem & Hlen & Htake & Hdrop);
    [vm_compute; discriminate | vm_compute; discriminate | vm_compute; discriminate |].
  exists blob. split; [exact Hmem|]. split; [exact Hlen|]. split; [exact Htake | exact Hdrop].
Defined.

Lemma resolve_symbols_addresses_witness :
  sizes_nonneg (symbols sample_with_symbols) /\
  exists m',
    _resolve_symbols (H := sample_externals) 4 sample_with_symbols = Ok m' /\
    sym_addr <$> symbols m'
      = [Some 0xff00000000000000; Some 0x100001234; None; Some 0xff00000000000008] /\
    exists a' b' x y,
      symbols m' !! 0%nat = Some a' /\ symbols m' !! 3%nat = Some b' /\
      sym_addr a' = Some x /\ sym_addr b' = Some y /\ x + sym_size a' <= y.
Proof.
  assert (Hsizes : sizes_nonneg (symbols sample_with_symbols)).
  { repeat constructor; vm_compute; discriminate. }
  split; [exact Hsizes|].
  eexists. split; [vm_compute; reflexivity|]. split; [reflexivity|].
  match goal with
  | |- exists a' b' x y, symbols ?m' !! _ = _ /\ _ =>
      destruct (resolve_symbols_addresses (H := sample_externals) 4 sample_with_symbols m'
                  Hsizes) as (_ & ext_end & _ & _ & _ & _ & _ & Hpair);
        [vm_compute; reflexivity|]
  end.
  do 2 eexists.
  destruct (Hpair 0%nat 3%nat _ _ _ _ ltac:(lia) eq_refl eq_refl eq_refl eq_refl
              eq_refl eq_refl) as (x & y & Hx & Hy & Hxy).
  exists x, y. split; [reflexivity|]. split; [reflexivity|]. split; [exact Hx|].
  split; [exact Hy | exact Hxy].
Defined.

(** ** The scenarios of the specification, run on the embedding *)

Example scenario_1_parsed :
  exists m, MachO_init (H := sample_externals) 16 true scenario_1 = Ok m /\
    arch_bits m = 64 /\ struct_byteorder m = Little /\ _detect_arch_ident m = Some "aarch"%string /\
    pie m = true /\ _entry m = Some 0x100001000 /\
    seg_segname <$> segments m = ["__PAGEZERO"%string; "__TEXT"%string] /\
    (length <$> (seg_sections <$> segments m)) = [0%nat; 1%nat] /\
    (fun b => (b.1, length b.2)) <$> memory m
      = [(0x100000000, 0x200%nat); (0xff00000000000000, 0%nat)].
Proof. eexists. split; [vm_compute; reflexivity|]. repeat split. Qed.

Example scenario_2_two_entry_points :
  MachO_init (H := sample_externals) 16 true sample_main_then_thread
    = Raise CLEInvalidBinaryError.
Proof. vm_compute. reflexivity. Qed.

Example scenario_5_symbols :
  exists m, MachO_init (H := sample_externals) 16 true scenario_5 = Ok m /\
    imported_libraries m = ["Self"%string; "libSystem"%string] /\
    (fun s => (sym_name s, sym_addr s, library_name s, section_name s)) <$> symbols m
      = [("_foo"%string, Some 0xff00000000000000, Some "libSystem"%string, None);
         ("_bar"%string, Some 0x100001234, None, Some "__text"%string)] /\
    last (memory m) = Some (0xff00000000000000, replicate 8 NUL).
Proof. eexists. split; [vm_compute; reflexivity|]. repeat split. Qed.

Example scenario_6_reexport :
  export_loop (H := sample_externals) 8 [] scenario_6_trie ∅ [(0, [])]
    ≫= (fun exports => Ok (exports !! "_bar"%string))
  = Ok (Some (ExportReexport 8 2 "_baz")).
Proof. vm_compute. reflexivity. Qed.

(** * Further properties of the loader *)

(** ** THUMB interworking addresses *)

(** X1: what [decode_thumb_interworking] returns is never an interworking
    address, so decoding twice is decoding once; on a 64-bit image every
    address is returned as it is; and an interworking address of a 32-bit
    image loses its lowest bit and every bit from bit 32 up, the bits in
    between being kept. *)
Theorem decode_thumb_interworking_spec (m : MachO) (address : Z) :
  is_thumb_interworking m (decode_thumb_interworking m address) = false /\
  decode_thumb_interworking m (decode_thumb_interworking m address)
    = decode_thumb_interworking m address /\
  (is_64bit m = true -> decode_thumb_interworking m address = address) /\
  (is_thumb_interworking m address = true ->
   forall i, 0 <= i ->
     Z.testbit (decode_thumb_interworking m address) i
       = if (i =? 0) || (32 <=? i) then false else Z.testbit address i).
Proof.
  assert (Hclear : Z.land (Z.land address 0xFFFFFFFE) 1 = 0).
  { rewrite <- Z.land_assoc. change (Z.land 0xFFFFFFFE 1) with 0. apply Z.land_0_r. }
  assert (Hnot : is_thumb_interworking m (decode_thumb_interworking m address) = false).
  { unfold decode_thumb_interworking.
    destruct (is_thumb_interworking m address) eqn:Hthumb; [|exact Hthumb].
    unfold is_thumb_interworking. rewrite Hclear. apply andb_false_r. }
  split; [exact Hnot|]. split.
  { unfold decode_thumb_interworking at 1. by rewrite Hnot. }
  split.
  { intros H64. unfold decode_thumb_interworking, is_thumb_interworking. by rewrite H64. }
  intros Hthumb i Hi. unfold decode_thumb_interworking. rewrite Hthumb.
  rewrite Z.land_spec.
  destruct (Z.eqb_spec i 0) as [->|Hi0]; [apply andb_false_r|].
  destruct (Z.leb_spec 32 i) as [Hhigh|Hlow]; simpl.
  - replace (Z.testbit 0xFFFFFFFE i) with false; [apply andb_false_r|].
    symmetry. apply (Z.bits_above_log2 0xFFFFFFFE i); [done|].
    change (Z.log2 0xFFFFFFFE) with 31. lia.
  - replace (Z.testbit 0xFFFFFFFE i) with true; [apply andb_true_r|].
    assert (Hcases : i = 1 \/ i = 2 \/ i = 3 \/ i = 4 \/ i = 5 \/ i = 6 \/ i = 7 \/ i = 8 \/
      i = 9 \/ i = 10 \/ i = 11 \/ i = 12 \/ i = 13 \/ i = 14 \/ i = 15 \/ i = 16 \/
      i = 17 \/ i = 18 \/ i = 19 \/ i = 20 \/ i = 21 \/ i = 22 \/ i = 23 \/ i = 24 \/
      i = 25 \/ i = 26 \/ i = 27 \/ i = 28 \/ i = 29 \/ i = 30 \/ i = 31) by lia.
    repeat destruct Hcases as [->|Hcases]; try reflexivity. by subst.
Qed.

(** ** Entry point *)

(** X2: [_resolve_entry] fails in one case only, a non-zero [entryoff]
    without a segment named [__TEXT], where it raises [AttributeError];
    otherwise it returns, has set the entry point and has changed nothing
    else. *)
Theorem resolve_entry_outcome (m : MachO) :
  match _resolve_entry m with
  | Ok m' => exists e, m' = set__entry (Some e) m
  | Raise e =>
      e = AttributeError /\ truthy (entryoff m) = true /\
      find_segment_by_name m "__TEXT" = None
  | Diverge => False
  end /\
  (truthy (entryoff m) = true -> find_segment_by_name m "__TEXT" = None ->
   _resolve_entry m = Raise AttributeError).
Proof.
  unfold _resolve_entry. destruct (truthy (entryoff m)) eqn:Hoff.
  - destruct (find_segment_by_name m "__TEXT") as [seg|]; split; eauto; done.
  - split; [|done]. destruct (truthy (unixthread_pc m)) eqn:Hpc; [|eauto].
    destruct (unixthread_pc m) as [pc|]; [eauto | done].
Qed.

(** ** Looking symbols up *)

(** X3: [get_symbol_by_address_fuzzy] returns the first symbol, in the order
    of the symbol table, that has the address or has it among its
    [bind_xrefs] or [symbol_stubs], and [None] exactly when no symbol
    does. *)
Theorem get_symbol_by_address_fuzzy_first (m : MachO) (address : Z) :
  match get_symbol_by_address_fuzzy m address with
  | Some sym =>
      exists before after, symbols m = before ++ sym :: after /\
        at_address address sym /\ Forall (fun s => ~ at_address address s) before
  | None => Forall (fun s => ~ at_address address s) (symbols m)
  end.
Proof.
  unfold get_symbol_by_address_fuzzy. induction (symbols m) as [|sym syms IH].
  - constructor.
  - assert (Htest : bool_decide (Some address = sym_addr sym)
                    || bool_decide (address ∈ bind_xrefs sym)
                    || bool_decide (address ∈ symbol_stubs sym) = true
                    <-> at_address address sym).
    { unfold at_address. rewrite !orb_true_iff, !bool_decide_eq_true.
      split; [intros [[?|?]|?] | intros [?|[?|?]]]; auto. }
    destruct (_ || _ || _) eqn:Hsym.
    + exists [], syms. split; [done|]. split; [by apply Htest | constructor].
    + assert (Hno : ~ at_address address sym) by (intros Hat; apply Htest in Hat; done).
      match type of IH with
      | match ?found with _ => _ end => destruct found as [s'|]
      end.
      * destruct IH as (before & after & -> & Hat & Hbefore).
        exists (sym :: before), after. split; [done|]. split; [done | by constructor].
      * by constructor.
Qed.

Lemma string_prefix_app (a b : string) :
  String.prefix a b = true <-> exists after, b = (a ++ after)%string.
Proof.
  revert b. induction a as [|c a IH]; intros b.
  - split; [intros _; exists b; reflexivity | intros _; by destruct b].
  - destruct b as [|d b].
    + split; [discriminate | intros [after Heq]; discriminate Heq].
    + change (String.prefix (String c a) (String d b))
        with (if ascii_dec c d then String.prefix a b else false).
      destruct (ascii_dec c d) as [->|Hne].
      * rewrite IH. split; intros [after Heq]; exists after.
        -- change (String d a ++ after)%string with (String d (a ++ after)%string).
           by rewrite Heq.
        -- change (String d a ++ after)%string with (String d (a ++ after)%string) in Heq.
           by injection Heq.
      * split; [discriminate|]. intros [after Heq].
        change (String c a ++ after)%string with (String c (a ++ after)%string) in Heq.
        injection Heq as -> _. by destruct Hne.
Qed.

(** [py_in_str] is the occurrence of one string in another. *)
Lemma py_in_str_occurs (a b : string) :
  py_in_str a b = true <-> exists before after, b = (before ++ a ++ after)%string.
Proof.
  induction b as [|d b IH].
  - change (py_in_str a "") with (String.prefix a "" || false).
    rewrite orb_false_r, string_prefix_app. split.
    + intros [after Heq]. by exists EmptyString, after.
    + intros (before & after & Heq). exists after.
      destruct before; [exact Heq | discriminate Heq].
  - change (py_in_str a (String d b)) with (String.prefix a (String d b) || py_in_str a b).
    rewrite orb_true_iff, string_prefix_app, IH. split.
    + intros [[after Heq]|(before & after & Heq)].
      * by exists EmptyString, after.
      * exists (String d before), after.
        change (String d before ++ a ++ after)%string
          with (String d (before ++ a ++ after)%string). by rewrite Heq.
    + intros (before & after & Heq). destruct before as [|c before].
      * left. by exists after.
      * change (String c before ++ a ++ after)%string
          with (String c (before ++ a ++ after)%string) in Heq.
        injection Heq as -> ->. right. by exists before, after.
Qed.

Lemma symbol_test_selected name include_stab fuzzy sym :
  symbol_test name include_stab fuzzy sym = true <-> symbol_selected name include_stab fuzzy sym.
Proof.
  unfold symbol_test, symbol_selected. rewrite andb_true_iff.
  assert (Hname : (if fuzzy then py_in_str name (sym_name sym)
                   else bool_decide (name = sym_name sym)) = true
                  <-> if fuzzy
                      then exists before after, sym_name sym = (before ++ name ++ after)%string
                      else name = sym_name sym).
  { destruct fuzzy; [apply py_in_str_occurs | apply bool_decide_eq_true]. }
  rewrite Hname. split; intros [Hstab Hsel]; (split; [|exact Hsel]).
  - intros Hs. rewrite Hs in Hstab. by destruct include_stab.
  - destruct (is_stab sym); [|done]. by rewrite Hstab.
Qed.

Lemma get_symbol_loop (name : string) (include_stab fuzzy : bool)
    (l acc : list MachOSymbol) :
  foldl (fun result sym =>
           if is_stab sym && negb include_stab then result
           else if fuzzy then
             if py_in_str name (sym_name sym) then result ++ [sym] else result
           else
             if decide (name = sym_name sym) then result ++ [sym] else result)
    acc l
  = acc ++ filter (fun sym => symbol_test name include_stab fuzzy sym = true) l.
Proof.
  revert acc. induction l as [|sym l IH]; intros acc; simpl.
  - by rewrite app_nil_r.
  - rewrite IH, filter_cons.
    destruct (decide (symbol_test name include_stab fuzzy sym = true)) as [Ht|Ht];
      unfold symbol_test in Ht;
      destruct (is_stab sym && negb include_stab); simpl in Ht; try done;
      destruct fuzzy.
    + destruct (py_in_str name (sym_name sym)); [|done]. by rewrite <- app_assoc.
    + destruct (decide (name = sym_name sym)) as [Heq|Hne].
      * by rewrite <- app_assoc.
      * by rewrite bool_decide_eq_false_2 in Ht.
    + by destruct (py_in_str name (sym_name sym)).
    + destruct (decide (name = sym_name sym)) as [Heq|Hne]; [|done].
      by rewrite bool_decide_eq_true_2 in Ht.
Qed.

Lemma get_symbol_filter (m : MachO) (name : string) (include_stab fuzzy : bool) :
  get_symbol m name include_stab fuzzy
  = filter (fun sym => symbol_test name include_stab fuzzy sym = true) (symbols m).
Proof. unfold get_symbol. by rewrite get_symbol_loop. Qed.

Lemma filter_sublist_impl {A} (P Q : A -> Prop) `{!forall x, Decision (P x)}
    `{!forall x, Decision (Q x)} (l : list A) :
  (forall x, P x -> Q x) -> filter P l `sublist_of` filter Q l.
Proof.
  intros Himpl. induction l as [|x l IH]; [done|]. rewrite !filter_cons.
  destruct (decide (P x)) as [HP|HP].
  - rewrite decide_True by auto. by constructor.
  - destruct (decide (Q x)); [by constructor | done].
Qed.

(** X4: [get_symbol] returns, in the order of the symbol table, exactly the
    symbols whose name is the given one, or contains it when [fuzzy] is
    set, stabs being left out unless [include_stab] is set; so an exact
    lookup never returns a symbol the fuzzy lookup misses, and leaving stabs
    out never adds a symbol. *)
Theorem get_symbol_selects (m : MachO) (name : string) (include_stab fuzzy : bool) :
  (forall sym, sym ∈ get_symbol m name include_stab fuzzy <->
     sym ∈ symbols m /\ symbol_selected name include_stab fuzzy sym) /\
  get_symbol m name include_stab fuzzy `sublist_of` symbols m /\
  get_symbol m name include_stab false `sublist_of` get_symbol m name include_stab true /\
  get_symbol m name false fuzzy `sublist_of` get_symbol m name true fuzzy.
Proof.
  rewrite !get_symbol_filter. split; [|split; [|split]].
  - intros sym. rewrite list_elem_of_filter, symbol_test_selected. tauto.
  - apply sublist_filter.
  - apply filter_sublist_impl. intros sym. rewrite !symbol_test_selected.
    unfold symbol_selected. intros [Hstab Heq]. split; [done|].
    exists EmptyString, EmptyString. rewrite <- Heq.
    change ("" ++ name ++ "")%string with (name ++ "")%string.
    clear. induction name as [|c name IH]; [done|].
    change (String c name ++ "")%string with (String c (name ++ "")%string).
    by rewrite <- IH.
  - apply filter_sublist_impl. intros sym. rewrite !symbol_test_selected.
    intros [Hstab Hname]. split; [done | exact Hname].
Qed.

(** ** Library names *)

Lemma parse_lc_str_loop_spec (rest : list byte) (ctr : Z) :
  match parse_lc_str_loop rest None ctr with
  | Ok s => s = until_nul rest /\ exists after, rest = s ++ NUL :: after
  | Raise e => e = StructError /\ NUL ∉ rest
  | Diverge => False
  end.
Proof.
  revert ctr. induction rest as [|c rest IH]; intros ctr; simpl.
  - split; [done | apply not_elem_of_nil].
  - destruct (decide (c = NUL)) as [->|Hc].
    + rewrite bool_decide_eq_false_2 by (by intros []). simpl. split; [done|]. by exists rest.
    + rewrite bool_decide_eq_true_2 by done. simpl.
      specialize (IH (ctr + 1)). destruct (parse_lc_str_loop rest None (ctr + 1)) as [s|e|].
      * simpl. destruct IH as [-> [after Hafter]]. split; [done|].
        exists after. by rewrite Hafter at 1.
      * simpl. destruct IH as [-> Hno]. split; [done|].
        rewrite elem_of_cons. intros [Heq|Hin]; [by apply Hc | by apply Hno].
      * done.
Qed.

(** X5: called without a limit, [parse_lc_str] returns the bytes from
    [start] up to the first NUL byte, and unlike [get_string] it does not
    accept a name that runs to the end of the file: it then raises
    [struct.error]. *)
Theorem parse_lc_str_spec (f : file) (start : Z) :
  0 <= start ->
  match parse_lc_str f start None with
  | Ok s =>
      s = until_nul (drop (Z.to_nat start) f) /\
      exists after, drop (Z.to_nat start) f = s ++ NUL :: after
  | Raise e => e = StructError /\ NUL ∉ drop (Z.to_nat start) f
  | Diverge => False
  end.
Proof.
  intros Hstart. unfold parse_lc_str. destruct (Z.ltb_spec start 0); [lia|].
  apply parse_lc_str_loop_spec.
Qed.

(** X6: an LC_LOAD_DYLIB command that is accepted appends one name to
    [imported_libraries], the NUL-terminated string found [name_offset]
    bytes after the start of the command, and changes nothing else: the
    libraries loaded before keep their ordinals and the new one gets the
    next. *)
Theorem load_dylib_info_appends (f : file) (offset : Z) (m m' : MachO) :
  _load_dylib_info f offset m = Ok m' ->
  exists vs name after,
    _unpack (struct_byteorder m) (replicate 6 fI) f offset 24 = Ok vs /\
    drop (Z.to_nat (offset + int_at vs 2)) f = name ++ NUL :: after /\
    (NUL ∉ name) /\
    m' = set_imported_libraries (imported_libraries m ++ [text name]) m /\
    imported_libraries m' !! length (imported_libraries m) = Some (text name) /\
    (forall i lib, imported_libraries m !! i = Some lib -> imported_libraries m' !! i = Some lib).
Proof.
  unfold _load_dylib_info. intros Hrun.
  apply bind_Ok in Hrun as (vs & Hvs & Hrun).
  apply bind_Ok in Hrun as (name & Hname & Hrun). injection Hrun as <-.
  exists vs, name.
  assert (Hstart : 0 <= offset + int_at vs 2).
  { unfold parse_lc_str in Hname. destruct (Z.ltb_spec (offset + int_at vs 2) 0); [done | lia]. }
  pose proof (parse_lc_str_loop_spec (drop (Z.to_nat (offset + int_at vs 2)) f) 0) as Hspec.
  unfold parse_lc_str in Hname. destruct (Z.ltb_spec (offset + int_at vs 2) 0); [lia|].
  rewrite Hname in Hspec. destruct Hspec as [Heq [after Hafter]].
  exists after. split; [done|]. split; [done|]. split.
  { rewrite Heq. apply until_nul_split. }
  split; [done|]. simpl. split.
  - by rewrite lookup_app_r, Nat.sub_diag by lia.
  - intros i lib Hlib. by apply lookup_app_l_Some.
Qed.

(** ** Exports trie: errors and what the walk keeps *)

Section ExportsWalk.
Context `{Externals}.

Lemma export_node_keeps segs blob index sym_str exports exports' pos :
  export_node segs blob index sym_str exports = Ok (exports', pos) ->
  exports' = exports \/ exists e, exports' = <[text sym_str := e]> exports.
Proof.
  unfold export_node. intros Hrun.
  apply bind_Ok in Hrun as ([info_len p] & _ & Hrun).
  destruct (info_len >? 0); [|injection Hrun as <- _; by left].
  apply bind_Ok in Hrun as (tmp & _ & Hrun).
  destruct (negb (Z.land tmp.1 FLAGS_REEXPORT =? 0)).
  { apply bind_Ok in Hrun as (tmp2 & _ & Hrun).
    apply bind_Ok in Hrun as ([name p2] & _ & Hrun). injection Hrun as <- _. eauto. }
  destruct (negb (Z.land tmp.1 FLAGS_STUB_AND_RESOLVER =? 0)).
  { apply bind_Ok in Hrun as (tmp2 & _ & Hrun).
    apply bind_Ok in Hrun as (tmp3 & _ & Hrun). injection Hrun as <- _. eauto. }
  apply bind_Ok in Hrun as (tmp2 & _ & Hrun).
  apply bind_Ok in Hrun as (seg & _ & Hrun). injection Hrun as <- _. eauto.
Qed.

Lemma export_step_keeps segs blob exports nodes :
  match export_step segs blob exports nodes with
  | TrieNext exports' _ | TrieDone exports' => dom exports ⊆ dom exports'
  | _ => True
  end.
Proof.
  unfold export_step. destruct nodes as [|[index sym_str] nodes]; [done|].
  destruct (export_node segs blob index sym_str exports) as [[exports' pos]|e|] eqn:Hnode.
  - assert (Hdom : dom exports ⊆ dom exports').
    { apply export_node_keeps in Hnode as [->|[e ->]]; [done|].
      rewrite dom_insert_L. set_solver. }
    destruct (read_B blob pos ≫= _) as [nodes'|e|]; [done | by destruct e | done].
  - by destruct e.
  - done.
Qed.

Lemma export_loop_keeps fuel segs blob exports nodes exports' :
  export_loop fuel segs blob exports nodes = Ok exports' -> dom exports ⊆ dom exports'.
Proof.
  revert exports nodes. induction fuel as [|fuel IH]; intros exports nodes Hloop;
    [discriminate|].
  simpl in Hloop. pose proof (export_step_keeps segs blob exports nodes) as Hstep.
  destruct (export_step segs blob exports nodes) as [ex1 nodes1|ex1|e|]; try discriminate.
  - apply IH in Hloop. set_solver.
  - by injection Hloop as <-.
Qed.

(** X7: the walk of the exports trie only adds or overwrites entries of
    [exports_by_name]: every name recorded before the walk is still recorded
    when it returns; it leaves the symbols and the segments alone, and
    without an export blob it changes nothing at all. *)
Theorem parse_exports_keeps_names (fuel : nat) (blob : option (list byte)) (m m' : MachO) :
  _parse_exports fuel blob m = Ok m' ->
  dom (exports_by_name m) ⊆ dom (exports_by_name m') /\
  symbols m' = symbols m /\ segments m' = segments m /\
  (blob = None -> m' = m).
Proof.
  unfold _parse_exports. destruct blob as [blob|]; intros Hrun.
  - apply bind_Ok in Hrun as (exports' & Hloop & Hrun). injection Hrun as <-.
    apply export_loop_keeps in Hloop. by repeat split.
  - injection Hrun as <-. by repeat split.
Qed.

(** X8: a node whose offset is at or after the end of the export blob makes
    the walk fail with [struct.error], which the [except IndexError] of the
    walk does not catch; in particular an empty export blob, as an
    LC_DYLD_INFO command with [export_size = 0] leaves one, makes symbol
    resolution raise instead of finding no exports. *)
Theorem export_blob_too_short (fuel : nat) (m : MachO) (blob : list byte) (index : Z)
    (sym_str : list byte) (exports : gmap string Export) (nodes_to_do : list (Z * list byte)) :
  (Z.of_nat (length blob) <= index ->
   export_step (segments m) blob exports ((index, sym_str) :: nodes_to_do)
     = TrieRaise StructError) /\
  (export_blob m = Some [] -> _resolve_symbols (S fuel) m = Raise StructError).
Proof.
  assert (Hstep : forall segs,
    Z.of_nat (length blob) <= index ->
    export_step segs blob exports ((index, sym_str) :: nodes_to_do) = TrieRaise StructError).
  { intros segs Hlen. unfold export_step, export_node, export_info_len, read_B.
    by rewrite lookup_ge_None_2 by lia. }
  split; [apply Hstep|].
  intros Hblob. unfold _resolve_symbols, _parse_exports. rewrite Hblob. reflexivity.
Qed.

End ExportsWalk.

(** ** Byte order *)

Lemma ord_bounded b : 0 <= ord b < 256.
Proof. unfold ord. pose proof (Byte.to_N_bounded b). lia. Qed.

Lemma lor_shiftl_8 (a b : Z) :
  0 <= a < 256 -> 0 <= b -> Z.lor a (Z.shiftl b 8) = a + 256 * b.
Proof.
  intros Ha Hb.
  assert (Hdisjoint : Z.land a (Z.shiftl b 8) = 0).
  { apply Z.bits_inj'. intros n Hn. rewrite Z.land_spec, Z.bits_0.
    destruct (Z.lt_ge_cases n 8) as [Hlt|Hge].
    - rewrite (Z.shiftl_spec_low b 8 n) by lia. apply andb_false_r.
    - destruct (Z.eq_dec a 0) as [->|Hne]; [by rewrite Z.bits_0|].
      rewrite (Z.bits_above_log2 a n); [done | lia |].
      assert (Z.log2 a < 8) by (apply Z.log2_lt_pow2; lia). lia. }
  rewrite <- Z.lxor_lor by done. rewrite <- Z.add_nocarry_lxor by done.
  rewrite Z.shiftl_mul_pow2 by lia. change (2 ^ 8) with 256. lia.
Qed.

Lemma le_uint_cons b rest : le_uint (b :: rest) = ord b + 256 * le_uint rest.
Proof. simpl. apply lor_shiftl_8; [apply ord_bounded | apply le_uint_nonneg]. Qed.

Lemma le_uint_bounded bs : 0 <= le_uint bs < 256 ^ Z.of_nat (length bs).
Proof.
  induction bs as [|b bs IH]; [simpl; lia|].
  rewrite le_uint_cons. pose proof (ord_bounded b).
  replace (Z.of_nat (length (b :: bs))) with (1 + Z.of_nat (length bs)) by (simpl; lia).
  rewrite Z.pow_add_r by lia. change (256 ^ 1) with 256. nia.
Qed.

(** The two readings of four bytes. *)
Lemma uint_four (b0 b1 b2 b3 : byte) :
  uint Little [b0; b1; b2; b3]
    = ord b0 + 256 * ord b1 + 65536 * ord b2 + 16777216 * ord b3 /\
  uint Big [b0; b1; b2; b3]
    = ord b3 + 256 * ord b2 + 65536 * ord b1 + 16777216 * ord b0.
Proof.
  unfold uint. change (rev [b0; b1; b2; b3]) with [b3; b2; b1; b0].
  rewrite !le_uint_cons. simpl le_uint. lia.
Qed.

(** X9: the byte order found from the magic does not depend on the byte
    order of the host that runs the loader, and it is the order in which the
    first four bytes of the file read as MH_MAGIC or MH_MAGIC_64; the magic
    is refused on one host exactly when it is on the other. *)
Theorem detect_byteorder_of_file (bs : list byte) :
  length bs = 4%nat ->
  _detect_byteorder true (uint Little bs) = _detect_byteorder false (uint Big bs) /\
  forall host_is_little bo,
    _detect_byteorder host_is_little (uint (if host_is_little then Little else Big) bs) = Ok bo ->
    uint bo bs = MH_MAGIC \/ uint bo bs = MH_MAGIC_64.
Proof.
  intros Hlen. destruct bs as [|b0 [|b1 [|b2 [|b3 [|? ?]]]]]; try discriminate.
  destruct (uint_four b0 b1 b2 b3) as [Hl Hb].
  pose proof (ord_bounded b0). pose proof (ord_bounded b1).
  pose proof (ord_bounded b2). pose proof (ord_bounded b3).
  set (l := uint Little [b0; b1; b2; b3]) in *.
  set (b := uint Big [b0; b1; b2; b3]) in *.
  assert (Hswap : (l = MH_MAGIC <-> b = MH_CIGAM) /\ (l = MH_MAGIC_64 <-> b = MH_CIGAM_64) /\
                  (l = MH_CIGAM <-> b = MH_MAGIC) /\ (l = MH_CIGAM_64 <-> b = MH_MAGIC_64)).
  { unfold MH_MAGIC, MH_CIGAM, MH_MAGIC_64, MH_CIGAM_64. repeat split; intros; lia. }
  destruct Hswap as (Hs1 & Hs2 & Hs3 & Hs4).
  assert (Hin : forall x y z : Z, x ∈ [y; z] <-> x = y \/ x = z).
  { intros x y z. rewrite !elem_of_cons, elem_of_nil. tauto. }
  assert (HA : bool_decide (l ∈ [MH_MAGIC_64; MH_MAGIC])
               = bool_decide (b ∈ [MH_CIGAM_64; MH_CIGAM])).
  { apply bool_decide_ext. rewrite !Hin. tauto. }
  assert (HB : bool_decide (l ∈ [MH_CIGAM; MH_CIGAM_64])
               = bool_decide (b ∈ [MH_MAGIC_64; MH_MAGIC])).
  { apply bool_decide_ext. rewrite !Hin. tauto. }
  assert (Hnot : ~ (b ∈ [MH_CIGAM_64; MH_CIGAM] /\ b ∈ [MH_MAGIC_64; MH_MAGIC])).
  { rewrite !Hin. unfold MH_MAGIC, MH_CIGAM, MH_MAGIC_64, MH_CIGAM_64. lia. }
  split.
  - unfold _detect_byteorder. rewrite HA, HB.
    destruct (bool_decide (b ∈ [MH_CIGAM_64; MH_CIGAM])) eqn:Hc;
      destruct (bool_decide (b ∈ [MH_MAGIC_64; MH_MAGIC])) eqn:Hm; try reflexivity.
    apply bool_decide_eq_true in Hc, Hm. by destruct Hnot.
  - intros host bo. unfold _detect_byteorder. destruct host.
    + fold l. destruct (bool_decide (l ∈ [MH_MAGIC_64; MH_MAGIC])) eqn:Hlm.
      * intros [= <-]. fold l. apply bool_decide_eq_true, Hin in Hlm. tauto.
      * destruct (bool_decide (l ∈ [MH_CIGAM; MH_CIGAM_64])) eqn:Hlc; [|discriminate].
        intros [= <-]. fold b. apply bool_decide_eq_true, Hin in Hlc. tauto.
    + fold b. destruct (bool_decide (b ∈ [MH_MAGIC_64; MH_MAGIC])) eqn:Hbm.
      * intros [= <-]. fold b. apply bool_decide_eq_true, Hin in Hbm. tauto.
      * destruct (bool_decide (b ∈ [MH_CIGAM_64; MH_CIGAM])) eqn:Hbc; [|discriminate].
        intros [= <-]. fold l. apply bool_decide_eq_true, Hin in Hbc. tauto.
Qed.

(** ** Function starts *)

Section FunctionStarts.
Context `{Externals}.

Lemma read_uleb_nonneg blob pos tmp :
  read_uleb blob pos = Ok tmp -> 0 <= tmp.1 /\ 0 <= tmp.2.
Proof.
  unfold read_uleb. intros Hrun. apply bind_Ok in Hrun as ([value consumed] & _ & Hrun).
  injection Hrun as <-. simpl. lia.
Qed.

Lemma function_starts_loop_sorted fuel blob end_ i address starts starts' :
  function_starts_loop fuel blob end_ i address starts = Ok starts' ->
  StronglySorted Z.le starts -> Forall (fun x => x <= address) starts ->
  StronglySorted Z.le starts' /\
  exists added, starts' = starts ++ added /\ Forall (fun x => address <= x) added.
Proof.
  revert i address starts. induction fuel as [|fuel IH]; intros i address starts Hrun Hsorted Hle;
    simpl in Hrun.
  - destruct (i <? end_); [discriminate|]. injection Hrun as <-.
    split; [done|]. exists []. by rewrite app_nil_r.
  - destruct (i <? end_).
    + apply bind_Ok in Hrun as (uleb & Huleb & Hrun).
      apply bind_Ok in Hrun as (c & _ & Hrun).
      destruct (decide (c = NUL)).
      * injection Hrun as <-. split; [done|]. exists []. by rewrite app_nil_r.
      * apply read_uleb_nonneg in Huleb as [Hdelta _].
        apply IH in Hrun as (Hsorted' & added & -> & Hadded).
        -- split; [done|]. exists ((address + uleb.1) :: added).
           split; [by rewrite <- app_assoc|]. constructor; [lia|].
           eapply Forall_impl; [exact Hadded|]. simpl. intros x Hx. lia.
        -- apply StronglySorted_app. split; [|split; [done | repeat constructor]].
           intros x y Hx Hy. apply list_elem_of_singleton in Hy as ->.
           pose proof (proj1 (Forall_forall _ _) Hle x Hx). simpl in *. lia.
        -- apply Forall_app. split; [|by repeat constructor].
           eapply Forall_impl; [exact Hle|]. simpl. intros x Hx. lia.
    + injection Hrun as <-. split; [done|]. exists []. by rewrite app_nil_r.
Qed.

(** X10: an LC_FUNCTION_STARTS command that is accepted replaces
    [lc_function_starts] by a list in ascending order none of whose
    addresses lies below the base address, the [vaddr] of the first segment
    that starts at file offset 0 with a non-empty file part, and changes
    nothing else; when there is no such segment and the command can be
    read, it is rejected with the invalid-binary error. *)
Theorem load_lc_function_starts_sorted (fuel : nat) (f : file) (off : Z) (m : MachO) :
  (forall m', _load_lc_function_starts fuel f off m = Ok m' ->
     exists base, function_starts_base (segments m) = Some base /\
       m' = set_lc_function_starts (lc_function_starts m') m /\
       StronglySorted Z.le (lc_function_starts m') /\
       Forall (fun a => base <= a) (lc_function_starts m')) /\
  (forall vs blob,
     _unpack (struct_byteorder m) (replicate 4 fI) f off 16 = Ok vs ->
     _read f (int_at vs 2) (int_at vs 3) = Ok blob ->
     function_starts_base (segments m) = None ->
     _load_lc_function_starts fuel f off m = Raise CLEInvalidBinaryError).
Proof.
  split.
  - unfold _load_lc_function_starts. intros m' Hrun.
    apply bind_Ok in Hrun as (vs & _ & Hrun). apply bind_Ok in Hrun as (blob & _ & Hrun).
    cbn [segments set_lc_function_starts lc_function_starts] in Hrun.
    destruct (function_starts_base (segments m)) as [base|]; [|discriminate].
    apply bind_Ok in Hrun as (starts & Hloop & Hrun). injection Hrun as <-.
    exists base. split; [done|]. split; [done|]. simpl.
    apply function_starts_loop_sorted in Hloop as (Hsorted & added & -> & Hadded);
      [by split | constructor | constructor].
  - intros vs blob Hvs Hblob Hbase. unfold _load_lc_function_starts.
    rewrite Hvs. cbn [mbind res_bind]. rewrite Hblob. cbn [mbind res_bind segments
      set_lc_function_starts]. by rewrite Hbase.
Qed.

End FunctionStarts.

(** ** What a load command changes *)

Lemma for_each_length {A B} (body : A -> list B -> res (list B)) (l : list A)
    (acc result : list B) :
  (forall x acc1 acc2, body x acc1 = Ok acc2 -> length acc2 = S (length acc1)) ->
  for_each body l acc = Ok result -> length result = (length acc + length l)%nat.
Proof.
  intros Hbody. revert acc. induction l as [|x l IH]; intros acc Hrun; simpl in Hrun.
  - injection Hrun as <-. simpl. lia.
  - apply bind_Ok in Hrun as (acc1 & Hx & Hrun). apply IH in Hrun.
    apply Hbody in Hx. simpl. lia.
Qed.

Lemma py_range_count (n : Z) : length (py_range 0 n 1) = Z.to_nat n.
Proof.
  unfold py_range. rewrite length_fmap, length_seq. f_equal.
  replace (n - 0 + 1 - 1) with n by lia. apply Z.div_1_r.
Qed.

Lemma load_sections_length f offset m nsects sections :
  load_sections f offset m nsects = Ok sections -> length sections = Z.to_nat nsects.
Proof.
  unfold load_sections. destruct (negb (arch_bits m =? 64)); intros Hrun.
  all: apply for_each_length in Hrun; [by rewrite Hrun, py_range_count|].
  all: intros i acc1 acc2 Hbody; unfold load_section in Hbody;
    apply bind_Ok in Hbody as (s & _ & Hbody); injection Hbody as <-;
    rewrite length_app; simpl; lia.
Qed.

Section Effects.
Context `{Externals}.

Lemma load_segment_effect f offset m m' :
  _load_segment f offset m = Ok m' -> lc_effect m m'.
Proof.
  unfold _load_segment. intros Hrun.
  apply bind_Ok in Hrun as (vs & Hvs & Hrun).
  apply bind_Ok in Hrun as (sections & Hsections & Hrun).
  apply bind_Ok in Hrun as (m1 & Hmem & Hrun). injection Hrun as <-.
  assert (Hcount : sections_counted
            (Build_MachOSegment (int_at vs 5) (int_at vs 3) (int_at vs 6) (int_at vs 4)
               (text (strip_nul (str_at vs 2))) (int_at vs 9) sections (int_at vs 10)
               (int_at vs 8) (int_at vs 7))).
  { unfold sections_counted. simpl. rewrite (load_sections_length _ _ _ _ _ Hsections).
    assert (0 <= int_at vs 9); [|lia].
    unfold unpack_segment_command in Hvs. destruct (negb (arch_bits m =? 64));
      eapply unpack_int_nonneg; try exact Hvs; done. }
  destruct (decide (text (strip_nul (str_at vs 2)) = "__PAGEZERO"%string)) as [Heq|Hne].
  - injection Hmem as <-. by apply effect_pagezero.
  - apply bind_Ok in Hmem as (blob & _ & Hmem). injection Hmem as <-.
    match goal with
    | |- lc_effect m (set_segments (_ ++ [?seg]) (set_memory (_ ++ [(_, ?b)]) m)) =>
        exact (effect_segment m seg b Hne Hcount)
    end.
Qed.

Lemma load_symtab_effect f offset m m' :
  _load_symtab f offset m = Ok m' -> lc_effect m m'.
Proof.
  unfold _load_symtab. intros Hrun.
  apply bind_Ok in Hrun as (vs & _ & Hrun). apply bind_Ok in Hrun as (tab & _ & Hrun).
  destruct (if arch_bits (set_strtab tab m) =? 64 then _ else _) as [packstr structsize].
  eapply (for_each_preserves
            (fun s => exists syms, Forall (fun x => sym_addr x = None) syms /\
                        s = set_symbols syms (set_strtab tab m))) in Hrun.
  - destruct Hrun as (syms & Hnone & ->). by apply effect_symtab.
  - intros i s1 s2 (syms & Hnone & ->) Hbody.
    apply bind_Ok in Hbody as (e & _ & Hbody). apply bind_Ok in Hbody as (name & _ & Hbody).
    injection Hbody as <-. eexists. split; [|reflexivity].
    apply Forall_app. split; [exact Hnone | by repeat constructor].
  - exists []. by split.
Qed.

Lemma load_lc_data_in_code_effect f off m m' :
  _load_lc_data_in_code f off m = Ok m' -> lc_effect m m'.
Proof.
  unfold _load_lc_data_in_code. intros Hrun. apply bind_Ok in Hrun as (vs & _ & Hrun).
  eapply (for_each_preserves
            (fun s => s = m \/
               exists records, s = set_lc_data_in_code (lc_data_in_code m ++ records) m))
    in Hrun.
  - destruct Hrun as [->|[records ->]]; [apply effect_none | apply effect_data_in_code].
  - intros i s1 s2 Hs1 Hbody. apply bind_Ok in Hbody as (blob & _ & Hbody).
    injection Hbody as <-. right. destruct Hs1 as [->|[records ->]].
    + by eexists.
    + eexists. cbn [lc_data_in_code set_lc_data_in_code]. rewrite <- app_assoc. reflexivity.
  - by left.
Qed.

Lemma load_lc_function_starts_effect fuel f off m m' :
  _load_lc_function_starts fuel f off m = Ok m' -> lc_effect m m'.
Proof.
  unfold _load_lc_function_starts. intros Hrun. res_inv.
  match goal with
  | |- lc_effect m (set_lc_function_starts ?starts _) =>
      exact (effect_function_starts m starts)
  end.
Qed.

Lemma load_lc_main_effect f off m m' : _load_lc_main f off m = Ok m' -> lc_effect m m'.
Proof.
  unfold _load_lc_main. intros Hrun.
  destruct (entryoff m) eqn:He; [discriminate|]. destruct (unixthread_pc m) eqn:Hpc;
    [discriminate|].
  simpl in Hrun. res_inv. by apply effect_main.
Qed.

Lemma load_lc_unixthread_effect f off m m' :
  _load_lc_unixthread f off m = Ok m' -> lc_effect m m'.
Proof.
  unfold _load_lc_unixthread. intros Hrun.
  destruct (entryoff m) eqn:He; [discriminate|]. destruct (unixthread_pc m) eqn:Hpc;
    [discriminate|].
  simpl in Hrun. res_inv; by apply effect_unixthread.
Qed.

(** A load command that is accepted changes only the attributes of its own
    kind. *)
Lemma dispatch_lc_effect (fuel : nat) (cmd : Z) (f : file) (offset : Z) (m m' : MachO) :
  dispatch fuel cmd f offset m = Ok m' -> lc_effect m m'.
Proof.
  unfold dispatch. intros Hrun.
  repeat match type of Hrun with
         | (if ?c then _ else _) = _ => destruct c
         end.
  - by apply load_segment_effect in Hrun.
  - by apply load_symtab_effect in Hrun.
  - unfold _load_dyld_info in Hrun. res_inv. apply effect_dyld_info.
  - unfold _load_dylib_info in Hrun. res_inv. apply effect_dylib.
  - by apply load_lc_main_effect in Hrun.
  - by apply load_lc_unixthread_effect in Hrun.
  - by apply load_lc_function_starts_effect in Hrun.
  - by apply load_lc_data_in_code_effect in Hrun.
  - apply assert_unencrypted_frame in Hrun as ->. apply effect_none.
  - injection Hrun as <-. apply effect_none.
Qed.

End Effects.

(** ** The image after the load commands *)

Lemma lc_effects_invariant (P : MachO -> Prop) (m m' : MachO) :
  (forall m1 m2, lc_effect m1 m2 -> P m1 -> P m2) ->
  rtc lc_effect m m' -> P m -> P m'.
Proof. intros Hstep Hrtc. induction Hrtc; eauto. Qed.

Lemma except_IOError_Ok {A} (r : res A) (a : A) : except_IOError r = Ok a -> r = Ok a.
Proof. destruct r as [?|[]|]; simpl; congruence. Qed.

Section ParsedImage.
Context `{Externals}.

Lemma lc_turns_effects fuel f lc_offset st st' :
  rtc (lc_turn fuel f lc_offset) st st' -> rtc lc_effect st.2 st'.2.
Proof.
  induction 1 as [st|st1 st2 st3 [_ Hbody] _ IH]; [done|].
  eapply rtc_l; [|exact IH].
  destruct st1 as [[c1 o1] m1], st2 as [[c2 o2] m2]. unfold lc_body in Hbody.
  apply bind_Ok in Hbody as (vs & _ & Hbody). apply bind_Ok in Hbody as (m' & Hd & Hbody).
  injection Hbody as _ _ <-. simpl. by apply dispatch_lc_effect in Hd.
Qed.

Lemma load_commands_turns fuel f lc_offset m st :
  load_commands fuel f lc_offset m = Ok st ->
  rtc (lc_turn fuel f lc_offset) (0, lc_offset, m) st /\ lc_continue lc_offset st = false.
Proof.
  intros Hrun. pose proof (lc_loop_outcome fuel f lc_offset _ _ (load_commands_gas lc_offset m)) as Hout.
  unfold load_commands in Hrun. by rewrite Hrun in Hout.
Qed.

(** X11: the load commands of a file that is accepted change the object one
    command at a time, each by the update of its own kind: a segment
    command appends a segment, whose [nsect] is the number of its sections,
    and for any name but [__PAGEZERO] one backer at its [vaddr]; LC_SYMTAB
    replaces the string table and the symbols, all without an address; the
    others append a library name, set the five dyld blobs, set [entryoff] or
    [unixthread_pc] when neither was set, replace the function starts or
    append data-in-code records.  No command writes an attribute of the
    mach header, and exactly [ncmds] commands are processed. *)
Theorem load_commands_effects (fuel : nat) (f : file) (lc_offset : Z) (m : MachO)
    (count offset : Z) (m' : MachO) :
  0 <= ncmds m ->
  load_commands fuel f lc_offset m = Ok (count, offset, m') ->
  lc_assert lc_offset (count, offset, m') = Ok m' ->
  rtc lc_effect m m' /\ same_control m m' /\ count = ncmds m /\
  sizeofcmds m <= offset - lc_offset.
Proof.
  intros Hn Hrun Hassert. apply load_commands_turns in Hrun as [Hturns _].
  pose proof (lc_turns_effects _ _ _ _ _ Hturns) as Heff.
  apply lc_turns_frame in Hturns as (Hsame & _ & Hbound & _). simpl in *.
  specialize (Hbound Hn). destruct (Hsame) as [_ _ Hnc Hsz].
  unfold lc_assert in Hassert. rewrite Hnc, Hsz in Hassert.
  destruct (Z.ltb_spec count (ncmds m)), (Z.ltb_spec (offset - lc_offset) (sizeofcmds m));
    try discriminate.
  split; [done|]. split; [done|lia].
Qed.

Lemma lc_effects_header (m m' : MachO) : rtc lc_effect m m' -> header_of m' = header_of m.
Proof.
  intros Hrtc. apply (lc_effects_invariant (fun m1 => header_of m1 = header_of m) m m');
    [|done|done].
  intros m1 m2 Heff <-. by destruct Heff.
Qed.

(** A file that is accepted: the steps of the [try] block of [__init__]. *)
Lemma parse_file_Ok fuel host f m :
  parse_file fuel host f = Ok m ->
  exists magic bo vs count offset,
    struct_unpack (if host then Little else Big) [fI] (take 4 f) = Ok magic /\
    _detect_byteorder host (int_at magic 0) = Ok bo /\
    _unpack bo (replicate 7 fI) f 0 28 = Ok vs /\
    Z.land (int_at vs 6) 0x80 <> 0 /\
    is_Some (_detect_arch_ident (header_object bo vs)) /\
    load_commands fuel f (lc_offset_of (header_object bo vs)) (header_object bo vs)
      = Ok (count, offset, m) /\
    lc_assert (lc_offset_of (header_object bo vs)) (count, offset, m) = Ok m.
Proof.
  intros Hrun. apply except_IOError_Ok in Hrun.
  apply bind_Ok in Hrun as (magic & Hmagic & Hrun).
  apply bind_Ok in Hrun as (bo & Hbo & Hrun). cbv zeta in Hrun.
  apply bind_Ok in Hrun as (m1 & Hhdr & Hrun).
  unfold _parse_mach_header in Hhdr. apply bind_Ok in Hhdr as (vs & Hvs & Hhdr).
  cbv zeta in Hhdr. cbn [flags set_mach_header struct_byteorder set_struct_byteorder] in Hvs, Hhdr.
  destruct (Z.eqb_spec (Z.land (int_at vs 6) 0x80) 0) as [|Hflag]; [discriminate|].
  injection Hhdr as <-.
  destruct (_detect_arch_ident _) as [ident|] eqn:Hident; [|discriminate].
  apply bind_Ok in Hrun as ([[count offset] m2] & Hload & Hassert).
  assert (m2 = m) as ->.
  { unfold lc_assert in Hassert. destruct (_ || _); [discriminate|]. by injection Hassert. }
  exists magic, bo, vs, count, offset.
  split; [done|]. split; [done|]. split; [done|]. split; [done|].
  split; [by exists ident|]. by split.
Qed.

(** The effects of the commands of a file that is accepted. *)
Lemma parse_file_effects fuel host f m :
  parse_file fuel host f = Ok m ->
  exists bo vs, _unpack bo (replicate 7 fI) f 0 28 = Ok vs /\
    Z.land (int_at vs 6) 0x80 <> 0 /\
    is_Some (_detect_arch_ident (header_object bo vs)) /\
    rtc lc_effect (header_object bo vs) m.
Proof.
  intros Hrun. apply parse_file_Ok in Hrun
    as (magic & bo & vs & count & offset & _ & _ & Hvs & Hflag & Hident & Hload & _).
  exists bo, vs. split; [done|]. split; [done|]. split; [done|].
  apply load_commands_turns in Hload as [Hturns _].
  by apply lc_turns_effects in Hturns.
Qed.

(** X12: the object of a file that is accepted carries the mach header as
    it stands in the file: read in the byte order of the object, the seven
    words at offset 0 give [cputype], [cpusubtype], [filetype], [ncmds],
    [sizeofcmds] and [flags]; MH_TWOLEVEL is set, [pie] is the MH_PIE flag,
    the CPU type is one of the four known ones and fixes the width.  No
    load command changes any of them. *)
Theorem parse_file_header (fuel : nat) (host_is_little : bool) (f : file) (m : MachO) :
  parse_file fuel host_is_little f = Ok m ->
  exists vs,
    _unpack (struct_byteorder m) (replicate 7 fI) f 0 28 = Ok vs /\
    cputype m = int_at vs 1 /\ cpusubtype m = int_at vs 2 /\ filetype m = int_at vs 3 /\
    ncmds m = int_at vs 4 /\ sizeofcmds m = int_at vs 5 /\ flags m = int_at vs 6 /\
    Z.land (flags m) 0x80 <> 0 /\
    pie m = negb (Z.land (flags m) 0x200000 =? 0) /\
    cputype m ∈ [0x100000c; 0xc; 0x7; 0x1000007] /\
    arch_bits m = arch_from_id_bits (cputype m).
Proof.
  intros Hrun. apply parse_file_effects in Hrun as (bo & vs & Hvs & Hflag & Hident & Heff).
  apply lc_effects_header in Heff. unfold header_of in Heff. cbn in Heff.
  injection Heff as -> -> -> -> -> -> -> -> ->.
  exists vs. repeat (split; [done|]). split; [|done].
  destruct Hident as [ident Hident]. unfold _detect_arch_ident in Hident. cbn in Hident.
  repeat match type of Hident with
         | (if ?a =? ?b then _ else _) = _ => destruct (Z.eqb_spec a b) as [->|]
         end; [set_solver..|discriminate].
Qed.

(** X13: in the object of a file that is accepted the library list starts
    with the name [Self], so that the library ordinals of the symbols, which
    count from 1, index the names the LC_LOAD_DYLIB commands appended. *)
Theorem parse_file_libraries (fuel : nat) (host_is_little : bool) (f : file) (m : MachO) :
  parse_file fuel host_is_little f = Ok m ->
  exists names, imported_libraries m = "Self"%string :: names.
Proof.
  intros Hrun. apply parse_file_effects in Hrun as (bo & vs & _ & _ & _ & Heff).
  apply (lc_effects_invariant
           (fun m1 => exists names, imported_libraries m1 = "Self"%string :: names) _ _)
    in Heff; [done| |by exists []].
  intros m1 m2 Hstep [names Hnames]. destruct Hstep; try by exists names.
  exists (names ++ [name]). simpl. by rewrite Hnames.
Qed.

(** X14: in the object of a file that is accepted every segment has as many
    sections as its [nsect] says, and the backers stand, in order, for the
    segments whose name is not [__PAGEZERO], each at the [vaddr] of its
    segment. *)
Theorem parse_file_segments (fuel : nat) (host_is_little : bool) (f : file) (m : MachO) :
  parse_file fuel host_is_little f = Ok m ->
  Forall sections_counted (segments m) /\ backers_of_segments m.
Proof.
  intros Hrun. apply parse_file_effects in Hrun as (bo & vs & _ & _ & _ & Heff).
  apply (lc_effects_invariant
           (fun m1 => Forall sections_counted (segments m1) /\ backers_of_segments m1) _ _)
    in Heff; [done| |by split; [constructor|]].
  unfold backers_of_segments.
  intros m1 m2 Hstep [Hcount Hmem]. destruct Hstep; try done; simpl.
  - split; [apply Forall_app; split; [done|by apply Forall_singleton]|].
    rewrite filter_app, filter_cons_False, filter_nil, app_nil_r; [done|]. by intros ?.
  - split; [apply Forall_app; split; [done|by apply Forall_singleton]|].
    rewrite filter_app, filter_cons_True, filter_nil by done.
    by rewrite !fmap_app, Hmem.
Qed.

(** X15: the object of a file that is accepted has at most one of
    [entryoff] and [unixthread_pc]. *)
Theorem parse_file_one_entry (fuel : nat) (host_is_little : bool) (f : file) (m : MachO) :
  parse_file fuel host_is_little f = Ok m ->
  entryoff m = None \/ unixthread_pc m = None.
Proof.
  intros Hrun. apply parse_file_effects in Hrun as (bo & vs & _ & _ & _ & Heff).
  apply (lc_effects_invariant (fun m1 => entryoff m1 = None \/ unixthread_pc m1 = None) _ _)
    in Heff; [done| |by left].
  intros m1 m2 Hstep Hone. destruct Hstep; try done; simpl; auto.
Qed.

End ParsedImage.

(** ** The stages after the load commands *)

Lemma index_symbols_lookup (syms : list MachOSymbol) (acc : gmap Z MachOSymbol) (a : Z) :
  index_symbols syms acc !! a
  = match last (filter (indexed_at a) syms) with
    | Some sym => Some sym
    | None => acc !! a
    end.
Proof.
  unfold index_symbols. revert acc. induction syms as [|sym syms IH]; intros acc; [done|].
  cbn [foldl]. rewrite IH. destruct (decide (indexed_at a sym)) as [[Hstab Haddr]|Hno].
  - rewrite filter_cons_True by done. rewrite Hstab, Haddr. cbn [negb].
    rewrite lookup_insert_eq. by destruct (filter _ syms) as [|? ?] using rev_ind;
      [|rewrite app_comm_cons, !last_snoc].
  - rewrite filter_cons_False by done.
    destruct (last _); [done|]. destruct (is_stab sym) eqn:Hstab; [done|]. cbn [negb].
    destruct (sym_addr sym) as [b|] eqn:Haddr; [|done].
    rewrite lookup_insert_ne; [done|]. intros ->. by apply Hno.
Qed.

Section LaterStages.
Context `{Externals}.

Lemma parse_exports_keeps fuel blob m m1 :
  _parse_exports fuel blob m = Ok m1 -> exists exports, m1 = set_exports_by_name exports m.
Proof.
  unfold _parse_exports. intros Hrun. destruct blob as [blob|].
  - apply bind_Ok in Hrun as (exports & _ & Hrun). injection Hrun as <-. by exists exports.
  - injection Hrun as <-. exists (exports_by_name m). by destruct m.
Qed.

Lemma resolve_entry_keeps m m1 :
  _resolve_entry m = Ok m1 -> exists e, m1 = set__entry (Some e) m.
Proof.
  unfold _resolve_entry. intros Hrun.
  destruct (truthy (entryoff m)); [destruct (find_segment_by_name _ _); [|done]|].
  - injection Hrun as <-. by eexists.
  - destruct (truthy (unixthread_pc m)) eqn:Hpc.
    + injection Hrun as <-. destruct (unixthread_pc m) as [pc|]; [by exists pc|done].
    + injection Hrun as <-. by eexists.
Qed.

Lemma parse_mod_funcs_keeps m m' :
  _parse_mod_funcs m = Ok m' ->
  parsed_part m' = parsed_part m /\ _entry m' = _entry m /\ memory m' = memory m /\
  symbols m' = symbols m /\ symbols_by_addr m' = symbols_by_addr m /\
  exports_by_name m' = exports_by_name m.
Proof.
  unfold _parse_mod_funcs. intros Hrun.
  eapply (for_each_preserves
            (fun s => parsed_part s = parsed_part m /\ _entry s = _entry m /\
                      memory s = memory m /\ symbols s = symbols m /\
                      symbols_by_addr s = symbols_by_addr m /\
                      exports_by_name s = exports_by_name m)) in Hrun; [done| |done].
  intros sec s1 s2 Hs1 Hbody.
  destruct (sec_type sec =? 0x9); [|destruct (sec_type sec =? 0xa)].
  - apply bind_Ok in Hbody as (t & _ & Hbody). by injection Hbody as <-.
  - apply bind_Ok in Hbody as (t & _ & Hbody). by injection Hbody as <-.
  - by injection Hbody as <-.
Qed.

(** X17: when [_resolve_symbols] has returned, [symbols_by_addr] holds at
    each address the last symbol of the symbol list that is not a stab and
    has this address; stabs are never filed, and an address no such symbol
    has keeps what the map held before. *)
Theorem resolve_symbols_by_addr (fuel : nat) (m m' : MachO) (a : Z) :
  _resolve_symbols fuel m = Ok m' ->
  symbols_by_addr m' !! a
  = match last (filter (indexed_at a) (symbols m')) with
    | Some sym => Some sym
    | None => symbols_by_addr m !! a
    end.
Proof.
  unfold _resolve_symbols. intros Hrun.
  apply bind_Ok in Hrun as (m1 & Hexp & Hrun). apply parse_exports_keeps in Hexp as [exports ->].
  apply bind_Ok in Hrun as ([syms' e'] & _ & Hrun).
  apply bind_Ok in Hrun as (eff1 & _ & Hrun).
  apply bind_Ok in Hrun as (eff2 & _ & Hrun). injection Hrun as <-.
  cbn [symbols_by_addr symbols set_symbols_by_addr]. by rewrite index_symbols_lookup.
Qed.

Lemma resolve_symbols_keeps fuel m m' :
  _resolve_symbols fuel m = Ok m' ->
  parsed_part m' = parsed_part m /\ _entry m' = _entry m /\
  length (symbols m') = length (symbols m) /\
  exists extern, memory m' = memory m ++ [(ext_symbol_start m, extern)].
Proof.
  unfold _resolve_symbols. intros Hrun.
  apply bind_Ok in Hrun as (m1 & Hexp & Hrun). apply parse_exports_keeps in Hexp as [exports ->].
  apply bind_Ok in Hrun as ([syms' e'] & Hloop & Hrun).
  apply bind_Ok in Hrun as (eff1 & _ & Hrun).
  apply bind_Ok in Hrun as (eff2 & _ & Hrun). injection Hrun as <-.
  apply resolve_symbols_loop_spec in Hloop as (Hlen & _).
  split; [done|]. split; [done|]. split; [|by eexists].
  cbn. by rewrite !length_imap.
Qed.

(** X16: the stages of [__init__] that follow the load commands leave what
    the commands and the header gave: segments, libraries, entry command
    values, string table, dyld blobs, function starts and data-in-code
    records are those of the parse.  They set the entry point, keep the
    number of symbols, and add to the backers exactly one, placed last, at
    the start of the range of the symbols without an address. *)
Theorem init_keeps_parsed (fuel : nat) (host_is_little : bool) (f : file) (m : MachO) :
  MachO_init fuel host_is_little f = Ok m ->
  exists parsed extern,
    parse_file fuel host_is_little f = Ok parsed /\
    parsed_part m = parsed_part parsed /\
    is_Some (_entry m) /\
    length (symbols m) = length (symbols parsed) /\
    memory m = memory parsed ++ [(ext_symbol_start parsed, extern)].
Proof.
  unfold MachO_init. intros Hrun.
  apply bind_Ok in Hrun as (parsed & Hparse & Hrun).
  apply bind_Ok in Hrun as (m1 & Hentry & Hrun).
  apply bind_Ok in Hrun as (m2 & Hsyms & Hrun).
  apply resolve_entry_keeps in Hentry as [e ->].
  apply resolve_symbols_keeps in Hsyms as (Hpart2 & Hentry2 & Hlen2 & extern & Hmem2).
  apply parse_mod_funcs_keeps in Hrun as (Hpart & Hentry & Hmem & Hsymbols & _).
  exists parsed, extern. split; [done|]. split; [by rewrite Hpart, Hpart2|].
  split; [rewrite Hentry, Hentry2; by eexists|].
  split; [by rewrite Hsymbols, Hlen2|]. by rewrite Hmem, Hmem2.
Qed.

Lemma resolve_symbol_attrs_sect m tab sym sym' :
  sym_type sym = SYMBOL_TYPE_SECT ->
  resolve_symbol_attrs m tab sym = Ok sym' ->
  exists sec, py_getitem tab (n_sect sym) = Ok sec /\
    sym_addr sym' = Some (n_value sym) /\
    (segment_name sym', section_name sym')
    = match sec with
      | Some sec => (Some (sec_segname sec), Some (sec_sectname sec))
      | None => (segment_name sym, section_name sym)
      end.
Proof.
  unfold resolve_symbol_attrs. cbv zeta. intros Htype.
  destruct (is_common _); unfold sym_type in *;
    cbn [n_type n_value n_sect sym_addr sym_size set_is_export set_sym_size];
    rewrite Htype, Z.eqb_refl; intros Hrun.
  all: apply bind_Ok in Hrun as (sec & Hsec & Hrun); injection Hrun as <-;
    exists sec; split; [done|]; by destruct sec.
Qed.

Lemma resolve_symbol_attrs_keeps m tab sym sym' :
  resolve_symbol_attrs m tab sym = Ok sym' ->
  sym_name sym' = sym_name sym /\ _is_export sym' = _is_export sym.
Proof.
  unfold resolve_symbol_attrs. cbv zeta. intros Hrun.
  destruct (is_common _);
    (destruct (sym_type _ =? SYMBOL_TYPE_SECT);
     [ apply bind_Ok in Hrun as ([sec|] & _ & Hrun); by injection Hrun as <-
     | destruct (is_import _);
       [ destruct (library_ordinal _); [|discriminate];
         apply bind_Ok in Hrun as (lib & _ & Hrun) |];
       by injection Hrun as <- ]).
Qed.

Lemma resolve_symbol_each m tab sym e sym' e' :
  resolve_symbol m tab sym e = Ok (sym', e') ->
  sym_name sym' = sym_name sym /\
  _is_export sym' = Some (bool_decide (is_Some (exports_by_name m !! sym_name sym))) /\
  (is_stab sym = false -> sym_type sym = SYMBOL_TYPE_SECT ->
   exists sec, py_getitem tab (n_sect sym) = Ok sec /\
     sym_addr sym' = Some (n_value sym) /\
     (segment_name sym', section_name sym')
     = match sec with
       | Some sec => (Some (sec_segname sec), Some (sec_sectname sec))
       | None => (segment_name sym, section_name sym)
       end).
Proof.
  unfold resolve_symbol. cbv zeta.
  change (is_stab (mark_export m sym)) with (is_stab sym).
  destruct (is_stab sym) eqn:Hstab; intros Hrun.
  - injection Hrun as <- <-. by repeat split.
  - apply bind_Ok in Hrun as (s1 & Hattrs & Hrun).
    pose proof (resolve_symbol_attrs_keeps _ _ _ _ Hattrs) as [Hname Hexport].
    assert (Hkeep : sym_name sym' = sym_name s1 /\ _is_export sym' = _is_export s1).
    { unfold assign_address in Hrun.
      destruct (sym_addr s1); injection Hrun as <- <-; by split. }
    destruct Hkeep as [Hname' Hexport'].
    split; [by rewrite Hname', Hname|]. split; [by rewrite Hexport', Hexport|].
    intros _ Htype.
    apply resolve_symbol_attrs_sect in Hattrs as (sec & Hsec & Haddr & Hnames); [|done].
    exists sec. split; [done|]. unfold assign_address in Hrun. rewrite Haddr in Hrun.
    injection Hrun as <- <-. by split.
Qed.

Lemma resolve_symbols_loop_each m tab syms e syms' e' :
  resolve_symbols_loop m tab syms e = Ok (syms', e') ->
  forall i sym, syms !! i = Some sym ->
  exists sym' e0 e1, syms' !! i = Some sym' /\ resolve_symbol m tab sym e0 = Ok (sym', e1).
Proof.
  revert e syms' e'. induction syms as [|s syms IH]; intros e syms' e' Hrun i sym Hsym;
    simpl in Hrun; [by rewrite lookup_nil in Hsym|].
  apply bind_Ok in Hrun as ([s1 e1] & Hhead & Hrun).
  apply bind_Ok in Hrun as ([rest' e2] & Htail & Hrun). injection Hrun as <- <-.
  destruct i as [|i]; simpl in *.
  - injection Hsym as <-. by exists s1, e, e1.
  - by eapply IH.
Qed.

(** X18: when [_resolve_symbols] has returned, every symbol carries in
    [_is_export] whether its name is among the exports; and a symbol of
    type SECT that is not a stab has [n_value] as its address and the
    segment and section names of the section [n_sect], counted from 1
    through the sections of all segments in order; [n_sect = 0] leaves the
    names as they were. *)
Theorem resolve_symbols_sections (fuel : nat) (m m' : MachO) (i : nat)
    (sym sym' : MachOSymbol) :
  _resolve_symbols fuel m = Ok m' ->
  symbols m !! i = Some sym -> symbols m' !! i = Some sym' ->
  sym_name sym' = sym_name sym /\
  _is_export sym' = Some (bool_decide (is_Some (exports_by_name m' !! sym_name sym))) /\
  (is_stab sym = false -> sym_type sym = SYMBOL_TYPE_SECT ->
   exists sec, py_getitem (section_tab m) (n_sect sym) = Ok sec /\
     sym_addr sym' = Some (n_value sym) /\
     (segment_name sym', section_name sym')
     = match sec with
       | Some sec => (Some (sec_segname sec), Some (sec_sectname sec))
       | None => (segment_name sym, section_name sym)
       end).
Proof.
  unfold _resolve_symbols. intros Hrun Hsym Hsym'.
  apply bind_Ok in Hrun as (m1 & Hexp & Hrun). apply parse_exports_keeps in Hexp as [exports ->].
  apply bind_Ok in Hrun as ([syms' e'] & Hloop & Hrun).
  apply bind_Ok in Hrun as (eff1 & _ & Hrun).
  apply bind_Ok in Hrun as (eff2 & _ & Hrun). injection Hrun as <-.
  cbn [symbols set_symbols set_exports_by_name] in Hloop.
  cbn [symbols apply_bind set_symbols set_symbols_by_addr set_memory] in Hsym'.
  rewrite !list_lookup_imap in Hsym'.
  destruct (resolve_symbols_loop_each _ _ _ _ _ _ Hloop i sym Hsym)
    as (s1 & e0 & e1 & Hs1 & Hstep).
  rewrite Hs1 in Hsym'. injection Hsym' as <-.
  apply resolve_symbol_each in Hstep as (Hname & Hexport & Hsect).
  split; [done|]. split; [done|]. exact Hsect.
Qed.

End LaterStages.

(** ** The symbol table *)

Lemma py_range_lookup (n : Z) (k : nat) (i : Z) :
  py_range 0 n 1 !! k = Some i -> i = Z.of_nat k.
Proof.
  unfold py_range. rewrite list_lookup_fmap. intros Hk.
  destruct (seq 0 _ !! k) as [j|] eqn:Hj; [|done]. injection Hk as <-.
  apply lookup_seq in Hj as [-> _]. lia.
Qed.

Section Symtab.
Context `{Externals}.

Lemma load_symtab_loop (f : file) (m0 : MachO) (symoff : Z) (l : list Z) (s s' : MachO) :
  strtab s = strtab m0 -> struct_byteorder s = struct_byteorder m0 ->
  arch_bits s = arch_bits m0 ->
  for_each (fun i m =>
      let offset := i * (nlist_packstr m0).2 + symoff in
      e ← _unpack (struct_byteorder m) (nlist_packstr m0).1 f offset (nlist_packstr m0).2;
      let n_strx := int_at e 0 in
      name ← (if negb (n_strx =? 0) then get_string m n_strx else Ok []);
      Ok (set_symbols
            (symbols m ++ [MachOSymbol_new m name offset (int_at e 1) (int_at e 2)
                             (int_at e 3) (int_at e 4)]) m)) l s = Ok s' ->
  strtab s' = strtab m0 /\
  exists news, symbols s' = symbols s ++ news /\ length news = length l /\
    forall k i sym, l !! k = Some i -> news !! k = Some sym ->
      symbol_of_nlist f m0 (i * (nlist_packstr m0).2 + symoff) sym.
Proof.
  revert s. induction l as [|i l IH]; intros s Htab Hbo Hbits Hrun; simpl in Hrun.
  - injection Hrun as <-. split; [done|]. exists []. rewrite app_nil_r.
    split; [done|]. split; [done|]. intros k i sym Hk. by rewrite lookup_nil in Hk.
  - apply bind_Ok in Hrun as (s1 & Hbody & Hrun).
    apply bind_Ok in Hbody as (e & He & Hbody).
    apply bind_Ok in Hbody as (name & Hname & Hbody). injection Hbody as <-.
    apply IH in Hrun as (Htab' & news & Hsyms & Hlen & Hall); [|done..].
    split; [done|]. eexists (_ :: news). cbn [symbols set_symbols] in Hsyms.
    rewrite <- app_assoc in Hsyms. split; [exact Hsyms|]. split; [simpl; by rewrite Hlen|].
    intros [|k] j sym Hj Hsym; simpl in Hj, Hsym; [|by eapply Hall].
    injection Hj as <-. injection Hsym as <-. split; [done|].
    exists e. rewrite Hbo in He. split; [done|]. repeat (split; [done|]). cbn [sym_name MachOSymbol_new].
    destruct (int_at e 0 =? 0); cbn [negb] in Hname.
    + by injection Hname as <-.
    + exists name. split; [|done]. unfold get_string in *. by rewrite <- Htab.
Qed.

(** X19: an LC_SYMTAB command that is accepted replaces the string table by
    the [strsize] bytes of the file at [stroff] and the symbols by [nsyms]
    new ones, the symbol [i] read from the [nlist] entry at
    [i * structsize + symoff]: type, section, description and value are
    those of the entry, the name is the string at [n_strx] of the new table
    or empty when [n_strx] is 0, and the address is not set. *)
Theorem load_symtab_table (f : file) (offset : Z) (m m' : MachO) :
  _load_symtab f offset m = Ok m' ->
  exists vs,
    _unpack (struct_byteorder m) (replicate 6 fI) f offset 24 = Ok vs /\
    _read f (int_at vs 4) (int_at vs 5) = Ok (strtab m') /\
    length (symbols m') = Z.to_nat (int_at vs 3) /\
    forall i sym, symbols m' !! i = Some sym ->
      symbol_of_nlist f m' (Z.of_nat i * (nlist_packstr m).2 + int_at vs 2) sym.
Proof.
  unfold _load_symtab. intros Hrun.
  apply bind_Ok in Hrun as (vs & Hvs & Hrun). cbv zeta in Hrun.
  apply bind_Ok in Hrun as (tab & Htab & Hrun).
  cbn [arch_bits set_strtab] in Hrun.
  assert (Hloop :
    for_each (fun i m1 =>
      let offset := i * (nlist_packstr (set_strtab tab m)).2 + int_at vs 2 in
      e ← _unpack (struct_byteorder m1) (nlist_packstr (set_strtab tab m)).1 f offset
            (nlist_packstr (set_strtab tab m)).2;
      let n_strx := int_at e 0 in
      name ← (if negb (n_strx =? 0) then get_string m1 n_strx else Ok []);
      Ok (set_symbols
            (symbols m1 ++ [MachOSymbol_new m1 name offset (int_at e 1) (int_at e 2)
                             (int_at e 3) (int_at e 4)]) m1))
      (py_range 0 (int_at vs 3) 1) (set_symbols [] (set_strtab tab m)) = Ok m').
  { unfold nlist_packstr. cbn [arch_bits set_strtab]. by destruct (arch_bits m =? 64). }
  clear Hrun. pose proof Hloop as Hframe.
  apply (for_each_preserves
           (fun s => struct_byteorder s = struct_byteorder m /\ arch_bits s = arch_bits m))
    in Hframe as [Hbo Hbits]; [| |done].
  2:{ intros i s1 s2 Hs1 Hbody. apply bind_Ok in Hbody as (e & _ & Hbody).
      apply bind_Ok in Hbody as (name & _ & Hbody). by injection Hbody as <-. }
  apply load_symtab_loop in Hloop as (Htab' & news & Hsyms & Hlen & Hall); [|done..].
  cbn [symbols set_symbols app] in Hsyms. cbn [strtab set_strtab] in Htab'.
  exists vs. split; [done|]. split; [by rewrite Htab'|].
  rewrite Hsyms. split; [by rewrite Hlen, py_range_count|].
  intros i sym Hsym.
  destruct (lookup_lt_is_Some_2 (py_range 0 (int_at vs 3) 1) i) as [j Hj];
    [rewrite <- Hlen; by eapply lookup_lt_Some|].
  pose proof (py_range_lookup _ _ _ Hj) as ->.
  specialize (Hall i _ sym Hj Hsym). revert Hall. unfold symbol_of_nlist, nlist_packstr, get_string.
  cbn [arch_bits struct_byteorder strtab set_strtab]. by rewrite Hbo, Hbits, Htab'.
Qed.

End Symtab.

(** ** Module init and term pointers *)

Lemma for_each_appends {A B} (body : A -> list B -> res (list B)) (l : list A)
    (acc result : list B) :
  (forall x acc1 acc2, body x acc1 = Ok acc2 -> exists y, acc2 = acc1 ++ [y]) ->
  for_each body l acc = Ok result ->
  exists new, result = acc ++ new /\ length new = length l.
Proof.
  intros Hbody. revert acc. induction l as [|x l IH]; intros acc Hrun; simpl in Hrun.
  - injection Hrun as <-. exists []. by rewrite app_nil_r.
  - apply bind_Ok in Hrun as (acc1 & Hx & Hrun). apply Hbody in Hx as [y ->].
    apply IH in Hrun as (new & -> & Hlen). exists (y :: new).
    split; [by rewrite <- app_assoc|]. simpl. by rewrite Hlen.
Qed.

Section ModFuncs.
Context `{Externals}.

Lemma parse_mod_funcs_internal_appends m sec target result :
  parse_mod_funcs_internal m sec target = Ok result ->
  exists new, result = target ++ new /\ length new = pointer_count m sec.
Proof.
  unfold parse_mod_funcs_internal, pointer_count. cbv zeta. apply for_each_appends.
  intros i acc1 acc2 Hbody. apply bind_Ok in Hbody as (bs & _ & Hbody).
  apply bind_Ok in Hbody as (vs & _ & Hbody). injection Hbody as <-. by eexists.
Qed.

Lemma parse_mod_funcs_loop (m : MachO) (secs : list MachOSection) (s s' : MachO) :
  arch_bits s = arch_bits m ->
  for_each (fun sec m =>
      if sec_type sec =? 0x9 then
        t ← parse_mod_funcs_internal m sec (mod_init_func_pointers m);
        Ok (set_mod_init_func_pointers t m)
      else if sec_type sec =? 0xa then
        t ← parse_mod_funcs_internal m sec (mod_term_func_pointers m);
        Ok (set_mod_term_func_pointers t m)
      else Ok m) secs s = Ok s' ->
  exists inits terms,
    mod_init_func_pointers s' = mod_init_func_pointers s ++ inits /\
    mod_term_func_pointers s' = mod_term_func_pointers s ++ terms /\
    length inits = pointers_in m 0x9 secs /\ length terms = pointers_in m 0xa secs.
Proof.
  unfold pointers_in. revert s. induction secs as [|sec secs IH]; intros s Hbits Hrun;
    simpl in Hrun.
  - injection Hrun as <-. exists [], []. by rewrite !app_nil_r.
  - apply bind_Ok in Hrun as (s1 & Hbody & Hrun).
    assert (Hcount : pointer_count s sec = pointer_count m sec)
      by (unfold pointer_count, is_64bit; by rewrite Hbits).
    destruct (Z.eqb_spec (sec_type sec) 0x9) as [H9|H9];
      [|destruct (Z.eqb_spec (sec_type sec) 0xa) as [Ha|Ha]].
    + apply bind_Ok in Hbody as (t & Ht & Hbody). injection Hbody as <-.
      apply parse_mod_funcs_internal_appends in Ht as (new & -> & Hnew).
      apply IH in Hrun as (inits & terms & Hi & Ht & Hli & Hlt); [|done].
      cbn in Hi, Ht. exists (new ++ inits), terms.
      rewrite filter_cons_True by done. rewrite filter_cons_False by (rewrite H9; lia).
      rewrite app_assoc. split; [done|]. split; [done|]. split; [|done].
      rewrite length_app, Hli, Hnew, Hcount. done.
    + apply bind_Ok in Hbody as (t & Ht & Hbody). injection Hbody as <-.
      apply parse_mod_funcs_internal_appends in Ht as (new & -> & Hnew).
      apply IH in Hrun as (inits & terms & Hi & Ht & Hli & Hlt); [|done].
      cbn in Hi, Ht. exists inits, (new ++ terms).
      rewrite filter_cons_False by done. rewrite filter_cons_True by done.
      rewrite app_assoc. split; [done|]. split; [done|]. split; [done|].
      rewrite length_app, Hlt, Hnew, Hcount. done.
    + injection Hbody as <-.
      apply IH in Hrun as (inits & terms & Hi & Ht & Hli & Hlt); [|done].
      exists inits, terms. by rewrite !filter_cons_False by done.
Qed.

(** X20: [_parse_mod_funcs] only appends to the two pointer lists: what they
    held stays in front, and the init list gains one pointer for every
    pointer-sized step through each section of type 0x9, the term list one
    for every step through each section of type 0xa, over the sections of
    all segments; sections of other types add nothing. *)
Theorem parse_mod_funcs_pointers (m m' : MachO) :
  _parse_mod_funcs m = Ok m' ->
  exists inits terms,
    mod_init_func_pointers m' = mod_init_func_pointers m ++ inits /\
    mod_term_func_pointers m' = mod_term_func_pointers m ++ terms /\
    length inits = pointers_in m 0x9 (concat (seg_sections <$> segments m)) /\
    length terms = pointers_in m 0xa (concat (seg_sections <$> segments m)).
Proof. unfold _parse_mod_funcs. by apply parse_mod_funcs_loop. Qed.

End ModFuncs.

(** ** The further properties on sample inputs *)

Lemma parse_lc_str_spec_witness :
  0 <= 24 /\
  match parse_lc_str sample_lc_load_dylib 24 None with
  | Ok s => s = bytes_of "libSystem" /\
      exists after, drop 24 sample_lc_load_dylib = s ++ NUL :: after
  | _ => False
  end.
Proof.
  split; [lia|].
  pose proof (parse_lc_str_spec sample_lc_load_dylib 24 ltac:(lia)) as Hspec.
  destruct (parse_lc_str sample_lc_load_dylib 24 None) as [s|e|] eqn:Hrun;
    [|vm_compute in Hrun; discriminate..].
  destruct Hspec as [-> Hafter]. split; [vm_compute; reflexivity | exact Hafter].
Defined.

Lemma load_dylib_info_appends_witness :
  exists m',
    _load_dylib_info sample_lc_load_dylib 0 (sample_after_header 1 40) = Ok m' /\
    imported_libraries m' = ["Self"%string; "libSystem"%string] /\
    exists name, (NUL ∉ name) /\ imported_libraries m' !! 1%nat = Some (text name).
Proof.
  eexists. split; [vm_compute; reflexivity|]. split; [reflexivity|].
  match goal with
  | |- exists name, _ /\ imported_libraries ?m' !! _ = _ =>
      destruct (load_dylib_info_appends sample_lc_load_dylib 0 (sample_after_header 1 40) m')
        as (vs & name & after & _ & _ & Hnul & _ & Hlast & _); [vm_compute; reflexivity|]
  end.
  exists name. split; [exact Hnul | exact Hlast].
Defined.

Lemma parse_exports_keeps_names_witness :
  exists m',
    _parse_exports (H := sample_externals) 8 (Some sample_trie) sample_exported = Ok m' /\
    is_Some (exports_by_name m' !! "_main"%string) /\
    dom (exports_by_name sample_exported) ⊆ dom (exports_by_name m') /\
    segments m' = segments sample_exported.
Proof.
  eexists. split; [vm_compute; reflexivity|]. split; [by eexists|].
  match goal with
  | |- _ ⊆ dom (exports_by_name ?m') /\ _ =>
      destruct (parse_exports_keeps_names (H := sample_externals) 8 (Some sample_trie)
                  sample_exported m') as (Hdom & _ & Hsegs & _); [vm_compute; reflexivity|]
  end.
  split; [exact Hdom | exact Hsegs].
Defined.

Lemma detect_byteorder_of_file_witness :
  length (u32 0xfeedfacf) = 4%nat /\
  _detect_byteorder true (uint Little (u32 0xfeedfacf))
    = _detect_byteorder false (uint Big (u32 0xfeedfacf)) /\
  _detect_byteorder false (uint Big (u32 0xfeedfacf)) = Ok Little.
Proof.
  split; [reflexivity|].
  destruct (detect_byteorder_of_file (u32 0xfeedfacf) eq_refl) as [Hsame _].
  split; [exact Hsame | vm_compute; reflexivity].
Defined.

Lemma load_commands_effects_witness :
  0 <= ncmds (sample_after_header 2 144) /\
  exists count offset m',
    load_commands (H := sample_externals) 16 sample_two_segments 32 (sample_after_header 2 144)
      = Ok (count, offset, m') /\
    lc_assert 32 (count, offset, m') = Ok m' /\
    rtc lc_effect (sample_after_header 2 144) m' /\ count = 2.
Proof.
  split; [vm_compute; discriminate|].
  do 3 eexists. split; [vm_compute; reflexivity|]. split; [vm_compute; reflexivity|].
  match goal with
  | |- rtc lc_effect _ ?m' /\ ?count = _ =>
      destruct (load_commands_effects (H := sample_externals) 16 sample_two_segments 32
                  (sample_after_header 2 144) count 176 m')
        as (Heff & _ & Hcount & _);
        [vm_compute; discriminate | vm_compute; reflexivity | vm_compute; reflexivity |]
  end.
  split; [exact Heff | exact Hcount].
Defined.

Lemma parse_file_header_witness :
  exists m, parse_file (H := sample_externals) 16 true scenario_5 = Ok m /\
    (cputype m, ncmds m, sizeofcmds m, flags m, arch_bits m) = (0x100000c, 4, 288, 0x200080, 64) /\
    cputype m ∈ [0x100000c; 0xc; 0x7; 0x1000007] /\ Z.land (flags m) 0x80 <> 0.
Proof.
  eexists. split; [vm_compute; reflexivity|]. split; [reflexivity|].
  match goal with
  | |- cputype ?m ∈ _ /\ _ =>
      destruct (parse_file_header (H := sample_externals) 16 true scenario_5 m)
        as (vs & _ & _ & _ & _ & _ & _ & _ & Hflag & _ & Hcpu & _); [vm_compute; reflexivity|]
  end.
  split; [exact Hcpu | exact Hflag].
Defined.

Lemma parse_file_libraries_witness :
  exists m, parse_file (H := sample_externals) 16 true scenario_5 = Ok m /\
    exists names, imported_libraries m = "Self"%string :: names.
Proof.
  eexists. split; [vm_compute; reflexivity|].
  apply (parse_file_libraries (H := sample_externals) 16 true scenario_5).
  vm_compute. reflexivity.
Defined.

Lemma parse_file_segments_witness :
  exists m, parse_file (H := sample_externals) 16 true scenario_5 = Ok m /\
    seg_segname <$> segments m = ["__PAGEZERO"%string; "__TEXT"%string] /\
    Forall sections_counted (segments m) /\ backers_of_segments m.
Proof.
  eexists. split; [vm_compute; reflexivity|]. split; [reflexivity|].
  apply (parse_file_segments (H := sample_externals) 16 true scenario_5).
  vm_compute. reflexivity.
Defined.

Lemma parse_file_one_entry_witness :
  exists m, parse_file (H := sample_externals) 16 true scenario_1 = Ok m /\
    entryoff m = Some 0x1000 /\ (entryoff m = None \/ unixthread_pc m = None).
Proof.
  eexists. split; [vm_compute; reflexivity|]. split; [reflexivity|].
  apply (parse_file_one_entry (H := sample_externals) 16 true scenario_1).
  vm_compute. reflexivity.
Defined.

Lemma init_keeps_parsed_witness :
  exists m, MachO_init (H := sample_externals) 16 true scenario_5 = Ok m /\
    exists parsed extern,
      parse_file (H := sample_externals) 16 true scenario_5 = Ok parsed /\
      parsed_part m = parsed_part parsed /\ is_Some (_entry m) /\
      length (symbols m) = length (symbols parsed) /\
      memory m = memory parsed ++ [(ext_symbol_start parsed, extern)].
Proof.
  eexists. split; [vm_compute; reflexivity|].
  apply (init_keeps_parsed (H := sample_externals) 16 true scenario_5).
  vm_compute. reflexivity.
Defined.

Lemma resolve_symbols_by_addr_witness :
  exists m', _resolve_symbols (H := sample_externals) 4 sample_with_symbols = Ok m' /\
    sym_name <$> symbols_by_addr m' !! 0x100001234 = Some "_bar"%string /\
    symbols_by_addr m' !! 0x100001234
    = match last (filter (indexed_at 0x100001234) (symbols m')) with
      | Some sym => Some sym
      | None => symbols_by_addr sample_with_symbols !! 0x100001234
      end.
Proof.
  eexists. split; [vm_compute; reflexivity|]. split; [vm_compute; reflexivity|].
  apply (resolve_symbols_by_addr (H := sample_externals) 4 sample_with_symbols).
  vm_compute. reflexivity.
Defined.

Lemma resolve_symbols_sections_witness :
  exists m' sym sym',
    _resolve_symbols (H := sample_externals) 4 sample_with_symbols = Ok m' /\
    symbols sample_with_symbols !! 1%nat = Some sym /\ symbols m' !! 1%nat = Some sym' /\
    is_stab sym = false /\ sym_type sym = SYMBOL_TYPE_SECT /\
    sym_name sym' = "_bar"%string /\
    exists sec, py_getitem (section_tab sample_with_symbols) (n_sect sym) = Ok sec /\
      sym_addr sym' = Some (n_value sym) /\
      (segment_name sym', section_name sym')
      = match sec with
        | Some sec => (Some (sec_segname sec), Some (sec_sectname sec))
        | None => (segment_name sym, section_name sym)
        end.
Proof.
  do 3 eexists. split; [vm_compute; reflexivity|].
  match goal with
  | |- _ /\ symbols ?m' !! _ = _ /\ _ =>
      pose proof (resolve_symbols_sections (H := sample_externals) 4 sample_with_symbols m' 1)
        as Hthm
  end.
  split; [reflexivity|]. split; [reflexivity|]. split; [reflexivity|].
  split; [reflexivity|]. split; [reflexivity|].
  destruct (Hthm _ _ ltac:(vm_compute; reflexivity) eq_refl eq_refl) as (_ & _ & Hsect).
  apply Hsect; reflexivity.
Defined.

Lemma load_symtab_table_witness :
  exists m', _load_symtab (H := sample_externals) scenario_5 296 (sample_after_header 4 288)
      = Ok m' /\
    sym_name <$> symbols m' = ["_foo"%string; "_bar"%string] /\
    exists vs,
      _unpack Little (replicate 6 fI) scenario_5 296 24 = Ok vs /\
      _read scenario_5 (int_at vs 4) (int_at vs 5) = Ok (strtab m') /\
      length (symbols m') = Z.to_nat (int_at vs 3) /\
      forall i sym, symbols m' !! i = Some sym ->
        symbol_of_nlist scenario_5 m'
          (Z.of_nat i * (nlist_packstr (sample_after_header 4 288)).2 + int_at vs 2) sym.
Proof.
  eexists. split; [vm_compute; reflexivity|]. split; [reflexivity|].
  apply (load_symtab_table (H := sample_externals) scenario_5 296 (sample_after_header 4 288)).
  vm_compute. reflexivity.
Defined.

Lemma parse_mod_funcs_pointers_witness :
  exists m', _parse_mod_funcs (H := sample_externals) sample_mod_init = Ok m' /\
    mod_init_func_pointers m' = [0x100001000; 0x100001040] /\
    exists inits terms,
      mod_init_func_pointers m' = mod_init_func_pointers sample_mod_init ++ inits /\
      mod_term_func_pointers m' = mod_term_func_pointers sample_mod_init ++ terms /\
      length inits
      = pointers_in sample_mod_init 0x9 (concat (seg_sections <$> segments sample_mod_init)) /\
      length terms
      = pointers_in sample_mod_init 0xa (concat (seg_sections <$> segments sample_mod_init)).
Proof.
  eexists. split; [vm_compute; reflexivity|]. split; [reflexivity|].
  apply (parse_mod_funcs_pointers (H := sample_externals) sample_mod_init).
  vm_compute. reflexivity.
Defined.
